(** * Terminal command decorations: a shallow embedding of
      [src/vs/workbench/contrib/terminal/browser/xterm/decorationAddon.ts]

    The development follows the source file top-down: the constants and
    records first, then the leaf computations ([_updateClasses],
    [_updateLayout], [_getCommandActions]), then the stateful addon
    (registry of decorations, placeholder, capability listeners and the
    visibility switch) as state-passing code over an explicit model of the
    host objects the addon holds references to. *)

From Stdlib Require Import ZArith List Ascii String Bool Lia Floats DecimalString.
From stdpp Require Import base list.
Import ListNotations.

Local Open Scope string_scope.
Local Open Scope list_scope.

Set Warnings "-inexact-float".

(** ** Constants of the source *)

Module DecorationSelector.
Definition CommandDecoration : string := "terminal-command-decoration".
Definition Hide : string := "hide".
Definition ErrorColor : string := "error".
Definition DefaultColor : string := "default-color".
Definition Default : string := "default".
Definition Codicon : string := "codicon".
Definition XtermDecoration : string := "xterm-decoration".
Definition GenericMarkerIcon : string := "codicon-circle-small-filled".
Definition Container : string := ".xterm-decoration-container".
Definition OverviewRuler : string := ".xterm-decoration-overview-ruler".
End DecorationSelector.

Module DecorationStyles.
Definition DefaultDimension : float := 16%float.
Definition MarginLeft : float := (-17)%float.
End DecorationStyles.

(** ** Data of the source *)

(** [IMarker] of the host: the addon reads [id] and [line]. *)
Record Marker := { marker_id : nat; marker_line : nat }.

(** [IGenericMarkProperties]: the addon reads [hoverMessage?: string]. *)
Record GenericMarkProperties := { hoverMessage : option string }.

(** [ITerminalCommand], the fields the addon reads.  [exitCode?: number] is
    an integer once the command has finished; [hasOutput()] and
    [getOutput()] are accessors of the command. *)
Record TerminalCommand := {
  command : string;
  marker : option Marker;
  exitCode : option Z;
  genericMarkProperties : option GenericMarkProperties;
  hasOutput : bool;
  getOutput : option string
}.

(** JavaScript truthiness of the values the source tests. *)
Definition truthy_number (z : Z) : bool := negb (z =? 0)%Z.
Definition truthy_string (s : string) : bool := negb (String.eqb s "").
Definition truthy_opt_string (o : option string) : bool :=
  match o with Some s => truthy_string s | None => false end.
Definition truthy_exitCode (o : option Z) : bool :=
  match o with Some z => truthy_number z | None => false end.

(** A configuration value as [inspect(...).value] returns it: the source
    only asks [typeof v === 'number']. *)
Inductive ConfigValue := CNumber (x : float) | CNotANumber.

(** The settings the addon reads from the configuration service. *)
Inductive DecorationsEnabled := Never | Both | Gutter | OverviewRulerOnly | Unrecognized.

Record Configuration := {
  shellIntegrationDecorationIcon : string;
  shellIntegrationDecorationIconSuccess : string;
  shellIntegrationDecorationIconError : string;
  shellIntegrationDecorationsEnabled : DecorationsEnabled;
  fontSize : ConfigValue;
  defaultFontSize : ConfigValue;
  lineHeight : ConfigValue
}.

(** The inline style the addon writes: the number of pixels of each of the
    four properties (the source writes the number followed by [px]), [None]
    for a property the style does not declare. *)
Record Style := {
  width : option float;
  height : option float;
  styleFontSize : option float;
  marginLeft : option float
}.

(** An [HTMLElement] as far as the addon touches it: its [classList], an
    ordered set of tokens, and its inline style. *)
Record HTMLElement := { classList : list string; style : Style }.

Definition noStyle : Style :=
  {| width := None; height := None; styleFontSize := None; marginLeft := None |}.

(** ** Running the source: outcomes

    A call of the source returns or throws. *)
Inductive Outcome (A : Type) := Returned (a : A) | Thrown (message : string).
Arguments Returned {A} a.
Arguments Thrown {A} message.

(** ** [DOMTokenList] *)

Definition token_in (tok : string) (l : list string) : bool :=
  existsb (String.eqb tok) l.

(** [classList.remove(tok)], for a token of the list. *)
Definition classList_remove (tok : string) (l : list string) : list string :=
  List.filter (fun c => negb (String.eqb c tok)) l.

(** ASCII whitespace of the DOM standard: tab, line feed, form feed,
    carriage return and space. *)
Definition ascii_whitespace (c : ascii) : bool :=
  let n := nat_of_ascii c in
  Nat.eqb n 9 || Nat.eqb n 10 || Nat.eqb n 12 || Nat.eqb n 13 || Nat.eqb n 32.

Fixpoint has_whitespace (s : string) : bool :=
  match s with
  | EmptyString => false
  | String c rest => ascii_whitespace c || has_whitespace rest
  end.

(** A token [DOMTokenList] accepts: not the empty string, and without ASCII
    whitespace. *)
Definition valid_token (t : string) : bool :=
  negb (String.eqb t "") && negb (has_whitespace t).

(** The validation of [classList.add(t1, ..., tn)], token by token: the
    exception of the first token that is not accepted, a [SyntaxError] for
    the empty string and an [InvalidCharacterError] for whitespace. *)
Fixpoint validate_tokens (toks : list string) : option string :=
  match toks with
  | [] => None
  | t :: ts =>
      if String.eqb t "" then Some "SyntaxError"
      else if has_whitespace t then Some "InvalidCharacterError"
      else validate_tokens ts
  end.

(** The update of [classList.add]: each token is appended unless present. *)
Fixpoint append_tokens (toks : list string) (l : list string) : list string :=
  match toks with
  | [] => l
  | t :: ts => append_tokens ts (if token_in t l then l else l ++ [t])
  end.

(** [classList.add(t1, ..., tn)]: every token is validated first, so that a
    call that throws has added nothing; then the tokens are appended. *)
Definition classList_add (toks : list string) (l : list string)
    : Outcome (list string) :=
  match validate_tokens toks with
  | Some message => Thrown message
  | None => Returned (append_tokens toks l)
  end.

(** [for (const classes of element.classList) element.classList.remove(classes)]:
    the list is live, the iterator is an index into it.  [fuel] bounds the
    number of iterations; the loop ends when the index leaves the list. *)
Fixpoint remove_each_iterating (fuel i : nat) (l : list string) : list string :=
  match fuel with
  | O => l
  | S fuel' =>
      match nth_error l i with
      | None => l
      | Some c => remove_each_iterating fuel' (S i) (classList_remove c l)
      end
  end.

Definition classList_removeEach (l : list string) : list string :=
  remove_each_iterating (length l) 0 l.

(** ** Style Resolver: [_updateClasses] *)

(** The arguments of the calls of [classList.add] in [_updateClasses], in the
    order of the calls. *)
Definition _updateClasses_calls (cfg : Configuration)
    (exitCode : option Z) (gmp : option GenericMarkProperties) : list (list string) :=
  [DecorationSelector.CommandDecoration; DecorationSelector.Codicon;
   DecorationSelector.XtermDecoration] ::
  match gmp with
  | Some g =>
      [DecorationSelector.DefaultColor; DecorationSelector.GenericMarkerIcon] ::
      (if truthy_opt_string (hoverMessage g) then [] else [[DecorationSelector.Default]])
  | None =>
      match exitCode with
      | None =>
          [[DecorationSelector.DefaultColor; DecorationSelector.Default];
           [String.append "codicon-" (shellIntegrationDecorationIcon cfg)]]
      | Some z =>
          if truthy_number z
          then [[DecorationSelector.ErrorColor];
                [String.append "codicon-" (shellIntegrationDecorationIconError cfg)]]
          else [[String.append "codicon-" (shellIntegrationDecorationIconSuccess cfg)]]
      end
  end.

(** The tokens [_updateClasses] adds when none of its calls throws. *)
Definition _updateClasses_tokens (cfg : Configuration)
    (exitCode : option Z) (gmp : option GenericMarkProperties) : list string :=
  List.concat (_updateClasses_calls cfg exitCode gmp).

(** The configured icon whose class [_updateClasses] adds in its last call;
    with a generic mark the icon is fixed. *)
Definition configuredIcon (cfg : Configuration)
    (exitCode : option Z) (gmp : option GenericMarkProperties) : option string :=
  match gmp, exitCode with
  | Some _, _ => None
  | None, None => Some (shellIntegrationDecorationIcon cfg)
  | None, Some z =>
      Some (if truthy_number z then shellIntegrationDecorationIconError cfg
            else shellIntegrationDecorationIconSuccess cfg)
  end.

(** The calls of [classList.add] one after the other: the first that throws
    ends the method, what the earlier calls added stays on the element. *)
Fixpoint classList_addEach (calls : list (list string)) (l : list string)
    : Outcome unit * list string :=
  match calls with
  | [] => (Returned tt, l)
  | toks :: rest =>
      match classList_add toks l with
      | Returned l' => classList_addEach rest l'
      | Thrown message => (Thrown message, l)
      end
  end.

(** [_updateClasses] on an element: how the call ends, and the element after
    it (the element is changed in place, also by a call that throws). *)
Definition updateClasses_element (cfg : Configuration) (el : HTMLElement)
    (exitCode : option Z) (gmp : option GenericMarkProperties)
    : Outcome unit * HTMLElement :=
  let r := classList_addEach (_updateClasses_calls cfg exitCode gmp)
             (classList_removeEach (classList el)) in
  (fst r, {| classList := snd r; style := style el |}).

(** [_updateClasses(element?, exitCode?, genericMarkProperties?)]; the
    element after the call, [None] when there was none. *)
Definition _updateClasses (cfg : Configuration) (element : option HTMLElement)
    (exitCode : option Z) (gmp : option GenericMarkProperties)
    : Outcome unit * option HTMLElement :=
  match element with
  | None => (Returned tt, None)
  | Some el =>
      let r := updateClasses_element cfg el exitCode gmp in (fst r, Some (snd r))
  end.

(** ** Layout Calculator: [_updateLayout] *)

(** [(fontSize / defaultFontSize) <= 1 ? (fontSize / defaultFontSize) : 1] *)
Definition scalar (fs dfs : float) : float :=
  if (fs / dfs <=? 1)%float then (fs / dfs)%float else 1%float.

(** [element.style.p = `${x}px`]: the style keeps the declaration only if it
    parses as a value of the property.  [NaNpx] and [Infinitypx] are no
    lengths; [width], [height] and [font-size] take no negative length,
    [margin-left] does.  A declaration that does not parse leaves the
    property as it was. *)
Definition validLength (nonNegative : bool) (x : float) : bool :=
  negb (PrimFloat.is_nan x) && negb (PrimFloat.is_infinity x)
  && negb (nonNegative && (x <? 0)%float).

Definition setLength (nonNegative : bool) (x : float) (old : option float)
    : option float :=
  if validLength nonNegative x then Some x else old.

(** The four assignments of [_updateLayout] on a style. *)
Definition layout_style (fs dfs lh : float) (old : Style) : Style :=
  let s := scalar fs dfs in
  {| width := setLength true (s * DecorationStyles.DefaultDimension)%float (width old);
     height :=
       setLength true (s * DecorationStyles.DefaultDimension * lh)%float (height old);
     styleFontSize :=
       setLength true (s * DecorationStyles.DefaultDimension)%float (styleFontSize old);
     marginLeft :=
       setLength false (s * DecorationStyles.MarginLeft)%float (marginLeft old) |}.

Definition updateLayout_element (cfg : Configuration) (el : HTMLElement) : HTMLElement :=
  match fontSize cfg, defaultFontSize cfg, lineHeight cfg with
  | CNumber fs, CNumber dfs, CNumber lh =>
      {| classList := classList el; style := layout_style fs dfs lh (style el) |}
  | _, _, _ => el
  end.


(** ** Interaction Builder: [_getCommandActions] *)

(** What running an action does: the three effects the source wires. *)
Inductive ActionRun :=
| FireRunCommand (c : TerminalCommand) (copyAsHtml : bool)
| ClipboardWriteText (text : option string)
| OpenerOpen (url : string).

(** [IAction]: the object literals of the source, and [new Separator()].
    [localize(key, text)] is taken at its default text. *)
Inductive IAction :=
| Action (id label tooltip : string) (enabled : bool) (run : ActionRun)
| Separator.

Definition rerunAction (c : TerminalCommand) : IAction :=
  Action "terminal.rerunCommand" "Rerun Command" "Rerun Command" true
    (FireRunCommand c false).
Definition copyCommandAction (c : TerminalCommand) : IAction :=
  Action "terminal.copyCommand" "Copy Command" "Copy Command" true
    (ClipboardWriteText (Some (command c))).
Definition copyOutputAction (c : TerminalCommand) : IAction :=
  Action "terminal.copyOutput" "Copy Output" "Copy Output" true
    (ClipboardWriteText (getOutput c)).
Definition copyOutputAsHtmlAction (c : TerminalCommand) : IAction :=
  Action "terminal.copyOutputAsHtml" "Copy Output as HTML" "Copy Output as HTML" true
    (FireRunCommand c true).
Definition learnShellIntegrationAction : IAction :=
  Action "terminal.learnShellIntegration" "Learn About Shell Integration"
    "Learn About Shell Integration" true
    (OpenerOpen "https://code.visualstudio.com/docs/editor/integrated-terminal#_shell-integration").

(** [if (actions.length > 0) { actions.push(new Separator()); }] *)
Definition pushSeparatorIfNonEmpty (actions : list IAction) : list IAction :=
  if (0 <? length actions)%nat then actions ++ [Separator] else actions.

Definition _getCommandActions (c : TerminalCommand) : list IAction :=
  let actions := [] in
  let actions :=
    if negb (String.eqb (command c) "")
    then actions ++ [rerunAction c; copyCommandAction c]
    else actions in
  let actions :=
    if hasOutput c
    then pushSeparatorIfNonEmpty actions ++ [copyOutputAction c; copyOutputAsHtmlAction c]
    else actions in
  pushSeparatorIfNonEmpty actions ++ [learnShellIntegrationAction].

(** ** Host objects the addon refers to *)

Inductive RulerPosition := RulerLeft | RulerRight.

(** [overviewRulerOptions]: [{ color, position }]; [_refreshStyles] also
    writes [{ color }] alone. *)
Record OverviewRulerOptions := { color : string; position : option RulerPosition }.

(** The theme colours [successColor], [errorColor] and [defaultColor] are
    variables of the module, each a [string | Color | undefined]. *)
Inductive ThemeColor := ColorString (s : string) | ColorObject (toString : string).

Record Theme := {
  successColor : option ThemeColor;
  errorColor : option ThemeColor;
  defaultColor : option ThemeColor
}.

(** [IDecoration] of the host.  A decoration is known by its handle, the
    index in the host's table.  [onDispose] holds the listeners the addon
    registered, each [() => this._decorations.delete(k)], by their key [k];
    [renderCommand] is the command captured by the [onRender] listener;
    [beforeCommandExecution] records the flag the decoration was registered
    with. *)
Record IDecoration := {
  decorationMarker : Marker;
  overviewRulerOptions : option OverviewRulerOptions;
  isDisposed : bool;
  element : option HTMLElement;
  onDispose : list nat;
  renderCommand : TerminalCommand;
  beforeCommandExecution : bool
}.

(** The listeners [_createDisposables] attaches to an element. *)
Inductive ElementListener := Click | MouseEnter | MouseLeave | MouseOut.

(** [IDisposableDecoration], an entry of [_decorations]. *)
Record IDisposableDecoration := {
  decoration : nat;
  disposables : list ElementListener;
  entryExitCode : option Z;
  entryGenericMarkProperties : option GenericMarkProperties
}.

(** The events of the command detection capability. *)
Inductive CommandEvent :=
  OnCommandStarted | OnCommandFinished | OnCommandInvalidated | OnCurrentCommandInvalidated.

Inductive CommandInvalidationReason := NoProblemsReported | Windows.

(** A listener registered on a capability event: the event, the capability
    object it was registered on, and whether it has been disposed. *)
Record Subscription := { subEvent : CommandEvent; subCapability : nat; subActive : bool }.

(** The command detection capability: an object ([capabilityId] tells two
    objects apart), its executing command and its finished commands. *)
Record Capability := {
  capabilityId : nat;
  executingCommandObject : option TerminalCommand;
  commands : list TerminalCommand
}.

(** [Map<number, V>]: insertion-ordered, as [entries()] enumerates it. *)
Definition JsMap (V : Type) : Type := list (nat * V).

Definition map_get {V} (k : nat) (m : JsMap V) : option V :=
  match List.find (fun kv => Nat.eqb (fst kv) k) m with
  | Some kv => Some (snd kv)
  | None => None
  end.

Fixpoint map_set {V} (k : nat) (v : V) (m : JsMap V) : JsMap V :=
  match m with
  | [] => [(k, v)]
  | kv :: m' => if Nat.eqb (fst kv) k then (k, v) :: m' else kv :: map_set k v m'
  end.

Definition map_delete {V} (k : nat) (m : JsMap V) : JsMap V :=
  List.filter (fun kv => negb (Nat.eqb (fst kv) k)) m.

(** ** The addon

    The six private fields of [DecorationAddon] the properties below are about, the
    number of listeners it registered on the capability store (each call of
    [_attachToCommandCapability] registers more), and the world around it:
    the decorations of the terminal, the listeners on capability events, the
    capability store, the configuration, the theme colours, the class lists
    of the gutter containers in the document, and what the terminal answers
    to the n-th [registerDecoration]. *)
Record Addon := {
  _terminal : bool;
  _commandDetectionListeners : option (list nat);
  _decorations : JsMap IDisposableDecoration;
  _placeholderDecoration : option nat;
  _overviewRulerDecorations : option bool;
  _decorationsDisabled : option bool;
  addCapabilityListeners : nat;
  removeCapabilityListeners : nat;
  hostDecorations : list IDecoration;
  subscriptions : list Subscription;
  capabilities : option Capability;
  configuration : Configuration;
  theme : Theme;
  containers : list (list string);
  registerDecorationCalls : nat;
  registerDecorationAnswers : nat -> bool
}.

(** Field assignment, one function per field. *)
Definition set_terminal (v : bool) (a : Addon) : Addon :=
  {| _terminal := v;
     _commandDetectionListeners := _commandDetectionListeners a;
     _decorations := _decorations a;
     _placeholderDecoration := _placeholderDecoration a;
     _overviewRulerDecorations := _overviewRulerDecorations a;
     _decorationsDisabled := _decorationsDisabled a;
     addCapabilityListeners := addCapabilityListeners a;
     removeCapabilityListeners := removeCapabilityListeners a;
     hostDecorations := hostDecorations a;
     subscriptions := subscriptions a;
     capabilities := capabilities a;
     configuration := configuration a;
     theme := theme a;
     containers := containers a;
     registerDecorationCalls := registerDecorationCalls a;
     registerDecorationAnswers := registerDecorationAnswers a |}.
Definition set_commandDetectionListeners (v : option (list nat)) (a : Addon) : Addon :=
  {| _terminal := _terminal a;
     _commandDetectionListeners := v;
     _decorations := _decorations a;
     _placeholderDecoration := _placeholderDecoration a;
     _overviewRulerDecorations := _overviewRulerDecorations a;
     _decorationsDisabled := _decorationsDisabled a;
     addCapabilityListeners := addCapabilityListeners a;
     removeCapabilityListeners := removeCapabilityListeners a;
     hostDecorations := hostDecorations a;
     subscriptions := subscriptions a;
     capabilities := capabilities a;
     configuration := configuration a;
     theme := theme a;
     containers := containers a;
     registerDecorationCalls := registerDecorationCalls a;
     registerDecorationAnswers := registerDecorationAnswers a |}.
Definition set_decorations (v : JsMap IDisposableDecoration) (a : Addon) : Addon :=
  {| _terminal := _terminal a;
     _commandDetectionListeners := _commandDetectionListeners a;
     _decorations := v;
     _placeholderDecoration := _placeholderDecoration a;
     _overviewRulerDecorations := _overviewRulerDecorations a;
     _decorationsDisabled := _decorationsDisabled a;
     addCapabilityListeners := addCapabilityListeners a;
     removeCapabilityListeners := removeCapabilityListeners a;
     hostDecorations := hostDecorations a;
     subscriptions := subscriptions a;
     capabilities := capabilities a;
     configuration := configuration a;
     theme := theme a;
     containers := containers a;
     registerDecorationCalls := registerDecorationCalls a;
     registerDecorationAnswers := registerDecorationAnswers a |}.
Definition set_placeholderDecoration (v : option nat) (a : Addon) : Addon :=
  {| _terminal := _terminal a;
     _commandDetectionListeners := _commandDetectionListeners a;
     _decorations := _decorations a;
     _placeholderDecoration := v;
     _overviewRulerDecorations := _overviewRulerDecorations a;
     _decorationsDisabled := _decorationsDisabled a;
     addCapabilityListeners := addCapabilityListeners a;
     removeCapabilityListeners := removeCapabilityListeners a;
     hostDecorations := hostDecorations a;
     subscriptions := subscriptions a;
     capabilities := capabilities a;
     configuration := configuration a;
     theme := theme a;
     containers := containers a;
     registerDecorationCalls := registerDecorationCalls a;
     registerDecorationAnswers := registerDecorationAnswers a |}.
Definition set_overviewRulerDecorations (v : option bool) (a : Addon) : Addon :=
  {| _terminal := _terminal a;
     _commandDetectionListeners := _commandDetectionListeners a;
     _decorations := _decorations a;
     _placeholderDecoration := _placeholderDecoration a;
     _overviewRulerDecorations := v;
     _decorationsDisabled := _decorationsDisabled a;
     addCapabilityListeners := addCapabilityListeners a;
     removeCapabilityListeners := removeCapabilityListeners a;
     hostDecorations := hostDecorations a;
     subscriptions := subscriptions a;
     capabilities := capabilities a;
     configuration := configuration a;
     theme := theme a;
     containers := containers a;
     registerDecorationCalls := registerDecorationCalls a;
     registerDecorationAnswers := registerDecorationAnswers a |}.
Definition set_decorationsDisabled (v : option bool) (a : Addon) : Addon :=
  {| _terminal := _terminal a;
     _commandDetectionListeners := _commandDetectionListeners a;
     _decorations := _decorations a;
     _placeholderDecoration := _placeholderDecoration a;
     _overviewRulerDecorations := _overviewRulerDecorations a;
     _decorationsDisabled := v;
     addCapabilityListeners := addCapabilityListeners a;
     removeCapabilityListeners := removeCapabilityListeners a;
     hostDecorations := hostDecorations a;
     subscriptions := subscriptions a;
     capabilities := capabilities a;
     configuration := configuration a;
     theme := theme a;
     containers := containers a;
     registerDecorationCalls := registerDecorationCalls a;
     registerDecorationAnswers := registerDecorationAnswers a |}.
Definition set_addCapabilityListeners (v : nat) (a : Addon) : Addon :=
  {| _terminal := _terminal a;
     _commandDetectionListeners := _commandDetectionListeners a;
     _decorations := _decorations a;
     _placeholderDecoration := _placeholderDecoration a;
     _overviewRulerDecorations := _overviewRulerDecorations a;
     _decorationsDisabled := _decorationsDisabled a;
     addCapabilityListeners := v;
     removeCapabilityListeners := removeCapabilityListeners a;
     hostDecorations := hostDecorations a;
     subscriptions := subscriptions a;
     capabilities := capabilities a;
     configuration := configuration a;
     theme := theme a;
     containers := containers a;
     registerDecorationCalls := registerDecorationCalls a;
     registerDecorationAnswers := registerDecorationAnswers a |}.
Definition set_removeCapabilityListeners (v : nat) (a : Addon) : Addon :=
  {| _terminal := _terminal a;
     _commandDetectionListeners := _commandDetectionListeners a;
     _decorations := _decorations a;
     _placeholderDecoration := _placeholderDecoration a;
     _overviewRulerDecorations := _overviewRulerDecorations a;
     _decorationsDisabled := _decorationsDisabled a;
     addCapabilityListeners := addCapabilityListeners a;
     removeCapabilityListeners := v;
     hostDecorations := hostDecorations a;
     subscriptions := subscriptions a;
     capabilities := capabilities a;
     configuration := configuration a;
     theme := theme a;
     containers := containers a;
     registerDecorationCalls := registerDecorationCalls a;
     registerDecorationAnswers := registerDecorationAnswers a |}.
Definition set_hostDecorations (v : list IDecoration) (a : Addon) : Addon :=
  {| _terminal := _terminal a;
     _commandDetectionListeners := _commandDetectionListeners a;
     _decorations := _decorations a;
     _placeholderDecoration := _placeholderDecoration a;
     _overviewRulerDecorations := _overviewRulerDecorations a;
     _decorationsDisabled := _decorationsDisabled a;
     addCapabilityListeners := addCapabilityListeners a;
     removeCapabilityListeners := removeCapabilityListeners a;
     hostDecorations := v;
     subscriptions := subscriptions a;
     capabilities := capabilities a;
     configuration := configuration a;
     theme := theme a;
     containers := containers a;
     registerDecorationCalls := registerDecorationCalls a;
     registerDecorationAnswers := registerDecorationAnswers a |}.
Definition set_subscriptions (v : list Subscription) (a : Addon) : Addon :=
  {| _terminal := _terminal a;
     _commandDetectionListeners := _commandDetectionListeners a;
     _decorations := _decorations a;
     _placeholderDecoration := _placeholderDecoration a;
     _overviewRulerDecorations := _overviewRulerDecorations a;
     _decorationsDisabled := _decorationsDisabled a;
     addCapabilityListeners := addCapabilityListeners a;
     removeCapabilityListeners := removeCapabilityListeners a;
     hostDecorations := hostDecorations a;
     subscriptions := v;
     capabilities := capabilities a;
     configuration := configuration a;
     theme := theme a;
     containers := containers a;
     registerDecorationCalls := registerDecorationCalls a;
     registerDecorationAnswers := registerDecorationAnswers a |}.
Definition set_capabilities (v : option Capability) (a : Addon) : Addon :=
  {| _terminal := _terminal a;
     _commandDetectionListeners := _commandDetectionListeners a;
     _decorations := _decorations a;
     _placeholderDecoration := _placeholderDecoration a;
     _overviewRulerDecorations := _overviewRulerDecorations a;
     _decorationsDisabled := _decorationsDisabled a;
     addCapabilityListeners := addCapabilityListeners a;
     removeCapabilityListeners := removeCapabilityListeners a;
     hostDecorations := hostDecorations a;
     subscriptions := subscriptions a;
     capabilities := v;
     configuration := configuration a;
     theme := theme a;
     containers := containers a;
     registerDecorationCalls := registerDecorationCalls a;
     registerDecorationAnswers := registerDecorationAnswers a |}.
Definition set_configuration (v : Configuration) (a : Addon) : Addon :=
  {| _terminal := _terminal a;
     _commandDetectionListeners := _commandDetectionListeners a;
     _decorations := _decorations a;
     _placeholderDecoration := _placeholderDecoration a;
     _overviewRulerDecorations := _overviewRulerDecorations a;
     _decorationsDisabled := _decorationsDisabled a;
     addCapabilityListeners := addCapabilityListeners a;
     removeCapabilityListeners := removeCapabilityListeners a;
     hostDecorations := hostDecorations a;
     subscriptions := subscriptions a;
     capabilities := capabilities a;
     configuration := v;
     theme := theme a;
     containers := containers a;
     registerDecorationCalls := registerDecorationCalls a;
     registerDecorationAnswers := registerDecorationAnswers a |}.
Definition set_theme (v : Theme) (a : Addon) : Addon :=
  {| _terminal := _terminal a;
     _commandDetectionListeners := _commandDetectionListeners a;
     _decorations := _decorations a;
     _placeholderDecoration := _placeholderDecoration a;
     _overviewRulerDecorations := _overviewRulerDecorations a;
     _decorationsDisabled := _decorationsDisabled a;
     addCapabilityListeners := addCapabilityListeners a;
     removeCapabilityListeners := removeCapabilityListeners a;
     hostDecorations := hostDecorations a;
     subscriptions := subscriptions a;
     capabilities := capabilities a;
     configuration := configuration a;
     theme := v;
     containers := containers a;
     registerDecorationCalls := registerDecorationCalls a;
     registerDecorationAnswers := registerDecorationAnswers a |}.
Definition set_containers (v : list (list string)) (a : Addon) : Addon :=
  {| _terminal := _terminal a;
     _commandDetectionListeners := _commandDetectionListeners a;
     _decorations := _decorations a;
     _placeholderDecoration := _placeholderDecoration a;
     _overviewRulerDecorations := _overviewRulerDecorations a;
     _decorationsDisabled := _decorationsDisabled a;
     addCapabilityListeners := addCapabilityListeners a;
     removeCapabilityListeners := removeCapabilityListeners a;
     hostDecorations := hostDecorations a;
     subscriptions := subscriptions a;
     capabilities := capabilities a;
     configuration := configuration a;
     theme := theme a;
     containers := v;
     registerDecorationCalls := registerDecorationCalls a;
     registerDecorationAnswers := registerDecorationAnswers a |}.
Definition set_registerDecorationCalls (v : nat) (a : Addon) : Addon :=
  {| _terminal := _terminal a;
     _commandDetectionListeners := _commandDetectionListeners a;
     _decorations := _decorations a;
     _placeholderDecoration := _placeholderDecoration a;
     _overviewRulerDecorations := _overviewRulerDecorations a;
     _decorationsDisabled := _decorationsDisabled a;
     addCapabilityListeners := addCapabilityListeners a;
     removeCapabilityListeners := removeCapabilityListeners a;
     hostDecorations := hostDecorations a;
     subscriptions := subscriptions a;
     capabilities := capabilities a;
     configuration := configuration a;
     theme := theme a;
     containers := containers a;
     registerDecorationCalls := v;
     registerDecorationAnswers := registerDecorationAnswers a |}.

(** Field assignment on a decoration of the host. *)
Definition dec_set_isDisposed (v : bool) (d : IDecoration) : IDecoration :=
  {| decorationMarker := decorationMarker d; overviewRulerOptions := overviewRulerOptions d;
     isDisposed := v; element := element d; onDispose := onDispose d;
     renderCommand := renderCommand d; beforeCommandExecution := beforeCommandExecution d |}.
Definition dec_set_overviewRulerOptions (v : option OverviewRulerOptions) (d : IDecoration)
    : IDecoration :=
  {| decorationMarker := decorationMarker d; overviewRulerOptions := v;
     isDisposed := isDisposed d; element := element d; onDispose := onDispose d;
     renderCommand := renderCommand d; beforeCommandExecution := beforeCommandExecution d |}.
Definition dec_set_element (v : option HTMLElement) (d : IDecoration) : IDecoration :=
  {| decorationMarker := decorationMarker d; overviewRulerOptions := overviewRulerOptions d;
     isDisposed := isDisposed d; element := v; onDispose := onDispose d;
     renderCommand := renderCommand d; beforeCommandExecution := beforeCommandExecution d |}.
Definition dec_set_onDispose (v : list nat) (d : IDecoration) : IDecoration :=
  {| decorationMarker := decorationMarker d; overviewRulerOptions := overviewRulerOptions d;
     isDisposed := isDisposed d; element := element d; onDispose := v;
     renderCommand := renderCommand d; beforeCommandExecution := beforeCommandExecution d |}.

(** ** Running the source: state passing with exceptions

    A method of the addon is a function from the state before to an outcome
    and the state after; an exception keeps the state it was thrown in. *)

Definition M (A : Type) : Type := Addon -> Outcome A * Addon.

Definition ret {A} (a : A) : M A := fun s => (Returned a, s).
Definition throw {A} (message : string) : M A := fun s => (Thrown message, s).
Definition bind {A B} (m : M A) (k : A -> M B) : M B :=
  fun s => match m s with
           | (Returned a, s') => k a s'
           | (Thrown e, s') => (Thrown e, s')
           end.
Definition get : M Addon := fun s => (Returned s, s).
Definition modify (f : Addon -> Addon) : M unit := fun s => (Returned tt, f s).

Declare Scope addon_scope.
Delimit Scope addon_scope with addon.
Notation "x <- m ;; k" := (bind m (fun x => k))
  (at level 100, m at next level, right associativity) : addon_scope.
Notation "m ;; k" := (bind m (fun _ => k))
  (at level 100, right associativity) : addon_scope.
Local Open Scope addon_scope.

(** [for (const x of l) body(x)] over a list that the body does not change. *)
Fixpoint forEach {A} (l : list A) (body : A -> M unit) : M unit :=
  match l with
  | [] => ret tt
  | x :: l' => body x ;; forEach l' body
  end.

(** A listener called by an emitter: an exception of the listener is
    reported by the emitter, the emitter goes on with the state reached. *)
Definition deliver (listener : M unit) : M unit :=
  fun s => (Returned tt, snd (listener s)).

Fixpoint times (n : nat) (m : M unit) : M unit :=
  match n with
  | O => ret tt
  | S n' => m ;; times n' m
  end.

Definition ignore {A} (m : M A) : M unit := _ <- m ;; ret tt.

(** The end of a call on an object of the host: [Thrown] propagates. *)
Definition rethrow (o : Outcome unit) : M unit :=
  match o with
  | Returned _ => ret tt
  | Thrown message => throw message
  end.
Arguments rethrow : simpl never.

Definition truthy_flag (o : option bool) : bool :=
  match o with Some b => b | None => false end.

(** ** Host operations *)

(** [decoration.dispose()]: first disposal marks the decoration and fires
    its [onDispose] listeners, each deleting its key from [_decorations]. *)
Definition decoration_dispose (d : nat) : M unit :=
  fun s =>
    match hostDecorations s !! d with
    | Some dec =>
        if isDisposed dec then (Returned tt, s)
        else
          let s1 := set_hostDecorations
                      (<[d := dec_set_isDisposed true dec]> (hostDecorations s)) s in
          (Returned tt,
           fold_left (fun a k => set_decorations (map_delete k (_decorations a)) a)
                     (onDispose dec) s1)
    | None => (Returned tt, s)
    end.

Definition dispose_optional (o : option nat) : M unit :=
  match o with Some d => decoration_dispose d | None => ret tt end.

(** [marker.dispose()]: the host disposes the decorations anchored at it. *)
Definition decorations_at (id : nat) (decs : list IDecoration) : list nat :=
  List.filter
    (fun i => match decs !! i with
              | Some dec => Nat.eqb (marker_id (decorationMarker dec)) id
              | None => false
              end)
    (seq 0 (length decs)).

Definition marker_dispose (id : nat) : M unit :=
  s <- get ;; forEach (decorations_at id (hostDecorations s)) decoration_dispose.

(** A decoration as the host creates it, with the [onRender] listener of
    [registerCommandDecoration] on it. *)
Definition newDecoration (m : Marker) (oro : option OverviewRulerOptions)
    (c : TerminalCommand) (before : bool) : IDecoration :=
  {| decorationMarker := m; overviewRulerOptions := oro; isDisposed := false;
     element := None; onDispose := []; renderCommand := c;
     beforeCommandExecution := before |}.

(** [this._terminal.registerDecoration({ marker, overviewRulerOptions })]
    followed by [decoration.onRender(...)], whose listener captures the
    command: the host answers with a new decoration or with [undefined]. *)
Definition terminal_registerDecoration (m : Marker) (oro : option OverviewRulerOptions)
    (c : TerminalCommand) (before : bool) : M (option nat) :=
  fun s =>
    let n := registerDecorationCalls s in
    let s1 := set_registerDecorationCalls (S n) s in
    if registerDecorationAnswers s n then
      (Returned (Some (length (hostDecorations s))),
       set_hostDecorations (hostDecorations s ++ [newDecoration m oro c before]) s1)
    else (Returned None, s1).

(** [dispose(listeners)] on capability listeners. *)
Definition deactivate (sub : Subscription) : Subscription :=
  {| subEvent := subEvent sub; subCapability := subCapability sub; subActive := false |}.

Definition subscription_dispose (i : nat) (a : Addon) : Addon :=
  set_subscriptions (alter deactivate i (subscriptions a)) a.

Definition dispose_listeners (l : list nat) : M unit :=
  modify (fun a => fold_left (fun a i => subscription_dispose i a) l a).

(** ** Methods of [DecorationAddon] *)

(** [_updateGutterDecorationVisibility(visible?)]: [hide] is a valid token,
    [classList.add('hide')] is its update ([classList_add_hide]). *)
Definition _updateGutterDecorationVisibility (visible : bool) : M unit :=
  modify (fun a =>
    set_containers
      (List.map (fun cl => if visible then classList_remove DecorationSelector.Hide cl
                           else append_tokens [DecorationSelector.Hide] cl)
                (containers a)) a).

(** [_clearPlaceholder()] *)
Definition _clearPlaceholder : M unit :=
  s <- get ;;
  dispose_optional (_placeholderDecoration s) ;;
  modify (set_placeholderDecoration None).

(** The colour of a command: [exitCode === undefined ? defaultColor :
    exitCode ? errorColor : successColor], then [toString()] of a [Color]
    and the empty string otherwise. *)
Definition commandColor (th : Theme) (code : option Z) : string :=
  let c := match code with
           | None => defaultColor th
           | Some z => if truthy_number z then errorColor th else successColor th
           end in
  match c with
  | Some (ColorObject s) => s
  | _ => ""
  end.

Definition isSome {A} (o : option A) : bool :=
  match o with Some _ => true | None => false end.

(** The [overviewRulerOptions] of a new decoration: [undefined] unless
    [_overviewRulerDecorations], else the colour of the command, on the left
    before execution and for exit code 0, on the right for a failure. *)
Definition rulerOptions (s : Addon) (c : TerminalCommand) (before : bool)
    : option OverviewRulerOptions :=
  let color := commandColor (theme s) (exitCode c) in
  if truthy_flag (_overviewRulerDecorations s) then
    Some (if before
          then {| color := color; position := Some RulerLeft |}
          else {| color := color;
                  position := Some (if truthy_exitCode (exitCode c)
                                    then RulerRight else RulerLeft) |})
  else None.

(** The three guards at the head of [registerCommandDecoration]. *)
Definition guarded (s : Addon) (c : TerminalCommand) (before : bool) : bool :=
  negb (_terminal s) || (before && isSome (genericMarkProperties c))
  || truthy_flag (_decorationsDisabled s).

(** [registerCommandDecoration(command, beforeCommandExecution?)] *)
Definition registerCommandDecoration (c : TerminalCommand) (before : bool)
    : M (option nat) :=
  s <- get ;;
  if guarded s c before
  then ret None
  else
    match marker c with
    | None => throw "cannot add a decoration for a command with no marker"
    | Some m =>
        _clearPlaceholder ;;
        s <- get ;;
        r <- terminal_registerDecoration m (rulerOptions s c before) c before ;;
        match r with
        | None => ret None
        | Some d =>
            (if before then modify (set_placeholderDecoration (Some d)) else ret tt) ;;
            ret (Some d)
        end
    end.

(** [_createHover]: three listeners; [_createDisposables(element, command)]. *)
Definition _createHover : list ElementListener := [MouseEnter; MouseLeave; MouseOut].

Definition _createDisposables (c : TerminalCommand) : list ElementListener :=
  match exitCode c, genericMarkProperties c with
  | None, None => []
  | _, Some _ => _createHover
  | _, None => Click :: _createHover
  end.

Definition alter_decoration (d : nat) (f : IDecoration -> IDecoration) : M unit :=
  modify (fun a => set_hostDecorations (alter f d (hostDecorations a)) a).

(** The listener [registerCommandDecoration] gives to [decoration.onRender],
    called by the host with the element of decoration [d]; the element is
    an object, what the listener does to it is written back, also when
    [_updateClasses] throws: the exception leaves the listener after the
    entry is in the registry and the element has its layout and the classes
    added before the call that threw. *)
Definition onRender_listener (d : nat) (el : HTMLElement) : M unit :=
  s <- get ;;
  match hostDecorations s !! d with
  | None => ret tt
  | Some dec =>
      let c := renderCommand dec in
      let key := marker_id (decorationMarker dec) in
      (match map_get key (_decorations s) with
       | Some _ => ret tt
       | None =>
           alter_decoration d (fun x => dec_set_onDispose (onDispose x ++ [key]) x) ;;
           modify (fun a =>
             set_decorations
               (map_set key {| decoration := d;
                               disposables := _createDisposables c;
                               entryExitCode := exitCode c;
                               entryGenericMarkProperties := genericMarkProperties c |}
                        (_decorations a)) a)
       end) ;;
      s <- get ;;
      let line0 := match marker c with
                   | Some m => Nat.eqb (marker_line m) 0
                   | None => false
                   end in
      let r :=
        if negb (token_in DecorationSelector.Codicon (classList el)) || line0
        then updateClasses_element (configuration s)
               (updateLayout_element (configuration s) el)
               (exitCode c) (genericMarkProperties c)
        else (Returned tt, el) in
      alter_decoration d (dec_set_element (Some (snd r))) ;;
      rethrow (fst r)
  end.

(** The host renders decoration [d]: a disposed decoration is not rendered;
    the element is created on the first rendering ([fresh]). *)
Definition host_render (d : nat) (fresh : HTMLElement) : M unit :=
  s <- get ;;
  match hostDecorations s !! d with
  | None => ret tt
  | Some dec =>
      if isDisposed dec then ret tt
      else onRender_listener d (match element dec with Some el => el | None => fresh end)
  end.

(** [this._commandDetectionListeners.push(capability.onX(listener))] *)
Definition push_listener (ev : CommandEvent) (cap : Capability) : M unit :=
  s <- get ;;
  match _commandDetectionListeners s with
  | None => throw "TypeError: cannot read properties of undefined"
  | Some l =>
      modify (fun a =>
        set_commandDetectionListeners (Some (l ++ [length (subscriptions a)]))
          (set_subscriptions
             (subscriptions a ++
              [{| subEvent := ev; subCapability := capabilityId cap; subActive := true |}])
             a))
  end.

(** [_addCommandDetectionListeners()] *)
Definition _addCommandDetectionListeners : M unit :=
  s <- get ;;
  (match _commandDetectionListeners s with
   | Some l => dispose_listeners l
   | None => ret tt
   end) ;;
  match capabilities s with
  | None => ret tt
  | Some capability =>
      modify (set_commandDetectionListeners (Some [])) ;;
      (match executingCommandObject capability with
       | Some c =>
           if isSome (marker c) then ignore (registerCommandDecoration c true) else ret tt
       | None => ret tt
       end) ;;
      push_listener OnCommandStarted capability ;;
      forEach (commands capability)
        (fun c => ignore (registerCommandDecoration c false)) ;;
      push_listener OnCommandFinished capability ;;
      push_listener OnCommandInvalidated capability ;;
      push_listener OnCurrentCommandInvalidated capability
  end.

(** [_attachToCommandCapability()]: the two listeners on the capability
    store are registered with [this._register], they live as long as the
    addon. *)
Definition _attachToCommandCapability : M unit :=
  s <- get ;;
  (if isSome (capabilities s)
   then _addCommandDetectionListeners
   else modify (fun a => set_addCapabilityListeners (S (addCapabilityListeners a)) a)) ;;
  modify (fun a => set_removeCapabilityListeners (S (removeCapabilityListeners a)) a).

(** The listener registered on [onDidRemoveCapability]. *)
Definition onDidRemoveCapability_listener : M unit :=
  s <- get ;;
  match _commandDetectionListeners s with
  | Some l => dispose_listeners l ;; modify (set_commandDetectionListeners None)
  | None => ret tt
  end.

(** [for (const decoration of this._decorations) decoration[1].decoration.dispose()]:
    the iteration of a [Map] visits the entries that are still present when
    it reaches them; [keys] are the keys at the start of the loop, the body
    deletes entries and adds none. *)
Definition dispose_entries (keys : list nat) : M unit :=
  forEach keys
    (fun k => s <- get ;;
              match map_get k (_decorations s) with
              | Some e => decoration_dispose (decoration e)
              | None => ret tt
              end).

(** [_updateDecorationVisibility()] *)
Definition _updateDecorationVisibility : M unit :=
  s <- get ;;
  match shellIntegrationDecorationsEnabled (configuration s) with
  | Never =>
      _updateGutterDecorationVisibility false ;;
      modify (set_overviewRulerDecorations (Some false)) ;;
      modify (set_decorationsDisabled (Some true))
  | Both =>
      _updateGutterDecorationVisibility true ;;
      _attachToCommandCapability ;;
      modify (set_overviewRulerDecorations (Some true)) ;;
      modify (set_decorationsDisabled (Some false)) ;;
      _attachToCommandCapability
  | Gutter =>
      _updateGutterDecorationVisibility true ;;
      (match _placeholderDecoration s with
       | Some p => alter_decoration p (dec_set_overviewRulerOptions None)
       | None => ret tt
       end) ;;
      forEach (_decorations s)
        (fun kv => alter_decoration (decoration (snd kv))
                     (dec_set_overviewRulerOptions None)) ;;
      modify (set_overviewRulerDecorations (Some false)) ;;
      modify (set_decorationsDisabled (Some false)) ;;
      _attachToCommandCapability
  | OverviewRulerOnly =>
      _updateGutterDecorationVisibility false ;;
      modify (set_overviewRulerDecorations (Some true)) ;;
      modify (set_decorationsDisabled (Some false)) ;;
      _attachToCommandCapability
  | Unrecognized => ret tt
  end.

Definition update_element (d : nat) (f : HTMLElement -> HTMLElement) : M unit :=
  alter_decoration d (fun x => dec_set_element (option_map f (element x)) x).

(** [refreshLayouts()] *)
Definition refreshLayouts : M unit :=
  s <- get ;;
  (match _placeholderDecoration s with
   | Some p => update_element p (updateLayout_element (configuration s))
   | None => ret tt
   end) ;;
  forEach (_decorations s)
    (fun kv => update_element (decoration (snd kv))
                 (updateLayout_element (configuration s))).

(** [_refreshStyles(refreshOverviewRulerColors?)] *)
Definition refreshOverviewRulerColor (th : Theme) (e : IDisposableDecoration) : M unit :=
  let color := commandColor th (entryExitCode e) in
  alter_decoration (decoration e)
    (fun x => dec_set_overviewRulerOptions
                (match overviewRulerOptions x with
                 | Some o => Some {| color := color; position := position o |}
                 | None => Some {| color := color; position := None |}
                 end) x).

(** [this._updateClasses(d.element, exitCode, genericMarkProperties)] for
    the decoration [d] of the host; the element is changed in place, also
    when the call throws. *)
Definition updateClasses_of (d : nat) (exitCode : option Z)
    (gmp : option GenericMarkProperties) : M unit :=
  s <- get ;;
  match hostDecorations s !! d with
  | Some dec =>
      let r := _updateClasses (configuration s) (element dec) exitCode gmp in
      alter_decoration d (dec_set_element (snd r)) ;;
      rethrow (fst r)
  | None => ret tt
  end.

Definition _refreshStyles (refreshOverviewRulerColors : bool) : M unit :=
  s <- get ;;
  (if refreshOverviewRulerColors
   then forEach (_decorations s) (fun kv => refreshOverviewRulerColor (theme s) (snd kv))
   else ret tt) ;;
  (match _placeholderDecoration s with
   | Some p => updateClasses_of p None None
   | None => ret tt
   end) ;;
  forEach (_decorations s)
    (fun kv => updateClasses_of (decoration (snd kv))
                 (entryExitCode (snd kv)) (entryGenericMarkProperties (snd kv))).

(** [clearDecorations()] *)
Definition clearDecorations : M unit :=
  s <- get ;;
  (match _placeholderDecoration s with
   | Some p =>
       match hostDecorations s !! p with
       | Some dec => marker_dispose (marker_id (decorationMarker dec))
       | None => ret tt
       end
   | None => ret tt
   end) ;;
  _clearPlaceholder ;;
  s <- get ;;
  dispose_entries (List.map fst (_decorations s)) ;;
  modify (set_decorations []).

(** [_dispose()] *)
Definition _dispose : M unit :=
  s <- get ;;
  (match _commandDetectionListeners s with
   | Some l => dispose_listeners l
   | None => ret tt
   end) ;;
  clearDecorations.

(** [activate(terminal)] *)
Definition activate : M unit :=
  modify (set_terminal true) ;; _attachToCommandCapability.

(** [e.affectsConfiguration(key)] for the keys the constructor asks about. *)
Record ConfigurationChangeEvent := {
  affectsDecorationIcon : bool;
  affectsDecorationIconSuccess : bool;
  affectsDecorationIconError : bool;
  affectsFontSize : bool;
  affectsLineHeight : bool;
  affectsColorCustomizations : bool;
  affectsDecorationsEnabled : bool
}.

(** The listener the constructor registers on [onDidChangeConfiguration]. *)
Definition onDidChangeConfiguration_listener (e : ConfigurationChangeEvent) : M unit :=
  if affectsDecorationIcon e || affectsDecorationIconSuccess e
     || affectsDecorationIconError e
  then _refreshStyles false
  else if affectsFontSize e || affectsLineHeight e
  then refreshLayouts
  else if affectsColorCustomizations e
  then _refreshStyles true
  else if affectsDecorationsEnabled e
  then
    s <- get ;;
    dispose_optional (_placeholderDecoration s) ;;
    s <- get ;;
    dispose_entries (List.map fst (_decorations s)) ;;
    _updateDecorationVisibility
  else ret tt.

(** The listeners of [_addCommandDetectionListeners]. *)
Definition onCommandStarted_listener (c : TerminalCommand) : M unit :=
  ignore (registerCommandDecoration c true).

Definition onCommandFinished_listener (c : TerminalCommand) : M unit :=
  ignore (registerCommandDecoration c false).

Definition onCommandInvalidated_listener (cs : list TerminalCommand) : M unit :=
  forEach cs
    (fun c =>
       match marker c with
       | Some m =>
           if negb (Nat.eqb (marker_id m) 0) then
             s <- get ;;
             match map_get (marker_id m) (_decorations s) with
             | Some e => decoration_dispose (decoration e)
             | None => ret tt
             end
           else ret tt
       | None => ret tt
       end).

Definition onCurrentCommandInvalidated_listener (reason : CommandInvalidationReason)
    : M unit :=
  match reason with
  | NoProblemsReported =>
      s <- get ;;
      match last (_decorations s) with
      | Some lastDecoration => decoration_dispose (decoration (snd lastDecoration))
      | None => ret tt
      end
  | Windows => _clearPlaceholder
  end.

(** ** Events

    What happens to an addon after its construction: calls of its public
    methods and the events it listens to.  [Dispose] is the disposable the
    constructor registers first, [toDisposable(() => this._dispose())],
    being run. *)
Inductive Event :=
| Activate
| RegisterCommandDecoration (c : TerminalCommand) (before : bool)
| RefreshLayouts
| ClearDecorations
| Dispose
| ConfigurationChanged (e : ConfigurationChangeEvent) (cfg : Configuration)
| ColorThemeChanged (th : Theme)
| CapabilityAdded (cap : Capability)
| CapabilityRemoved
| CapabilityUpdated (executing : option TerminalCommand) (finished : list TerminalCommand)
| CommandStarted (c : TerminalCommand)
| CommandFinished (c : TerminalCommand)
| CommandInvalidated (cs : list TerminalCommand)
| CurrentCommandInvalidated (reason : CommandInvalidationReason)
| Rendered (d : nat) (fresh : HTMLElement)
| HostDisposed (d : nat).

(** The listeners an event of the current capability reaches: the live
    ones registered for it on that capability object. *)
Definition listens (ev : CommandEvent) (capId : nat) (sub : Subscription) : bool :=
  subActive sub && Nat.eqb (subCapability sub) capId
  && match subEvent sub, ev with
     | OnCommandStarted, OnCommandStarted
     | OnCommandFinished, OnCommandFinished
     | OnCommandInvalidated, OnCommandInvalidated
     | OnCurrentCommandInvalidated, OnCurrentCommandInvalidated => true
     | _, _ => false
     end.

Definition fired (ev : CommandEvent) (a : Addon) : list Subscription :=
  match capabilities a with
  | Some cap => List.filter (listens ev (capabilityId cap)) (subscriptions a)
  | None => []
  end.

Definition fire (ev : CommandEvent) (listener : M unit) : M unit :=
  s <- get ;; forEach (fired ev s) (fun _ => deliver listener).

Definition handle (ev : Event) : M unit :=
  match ev with
  | Activate => activate
  | RegisterCommandDecoration c before => ignore (registerCommandDecoration c before)
  | RefreshLayouts => refreshLayouts
  | ClearDecorations => clearDecorations
  | Dispose => _dispose
  | ConfigurationChanged e cfg =>
      modify (set_configuration cfg) ;;
      deliver (onDidChangeConfiguration_listener e)
  | ColorThemeChanged th =>
      modify (set_theme th) ;; deliver (_refreshStyles true)
  | CapabilityAdded cap =>
      modify (set_capabilities (Some cap)) ;;
      s <- get ;;
      times (addCapabilityListeners s) (deliver _addCommandDetectionListeners)
  | CapabilityRemoved =>
      modify (set_capabilities None) ;;
      s <- get ;;
      times (removeCapabilityListeners s) (deliver onDidRemoveCapability_listener)
  | CapabilityUpdated executing finished =>
      modify (fun a =>
        match capabilities a with
        | Some cap =>
            set_capabilities
              (Some {| capabilityId := capabilityId cap;
                       executingCommandObject := executing;
                       commands := finished |}) a
        | None => a
        end)
  | CommandStarted c => fire OnCommandStarted (onCommandStarted_listener c)
  | CommandFinished c => fire OnCommandFinished (onCommandFinished_listener c)
  | CommandInvalidated cs => fire OnCommandInvalidated (onCommandInvalidated_listener cs)
  | CurrentCommandInvalidated reason =>
      fire OnCurrentCommandInvalidated (onCurrentCommandInvalidated_listener reason)
  | Rendered d fresh => host_render d fresh
  | HostDisposed d => decoration_dispose d
  end.

Definition step (a : Addon) (ev : Event) : Addon := snd (handle ev a).

Definition run (evs : list Event) (a : Addon) : Addon := fold_left step evs a.

(** The addon as its constructor leaves it: the fields at their initial
    values, then [_updateDecorationVisibility()]. *)
Definition blank (cap : option Capability) (cfg : Configuration) (th : Theme)
    (conts : list (list string)) (answers : nat -> bool) : Addon :=
  {| _terminal := false;
     _commandDetectionListeners := None;
     _decorations := [];
     _placeholderDecoration := None;
     _overviewRulerDecorations := None;
     _decorationsDisabled := None;
     addCapabilityListeners := 0;
     removeCapabilityListeners := 0;
     hostDecorations := [];
     subscriptions := [];
     capabilities := cap;
     configuration := cfg;
     theme := th;
     containers := conts;
     registerDecorationCalls := 0;
     registerDecorationAnswers := answers |}.

Definition construct (cap : option Capability) (cfg : Configuration) (th : Theme)
    (conts : list (list string)) (answers : nat -> bool) : Addon :=
  snd (_updateDecorationVisibility (blank cap cfg th conts answers)).

(** ** The specification's wording, for comparison with the source *)



(** The action list as the specification words it: both separators are
    unconditional. *)
Definition spec_actions (c : TerminalCommand) : list IAction :=
  (if negb (String.eqb (command c) "")
   then [rerunAction c; copyCommandAction c] else []) ++
  (if hasOutput c
   then [Separator; copyOutputAction c; copyOutputAsHtmlAction c] else []) ++
  [Separator; learnShellIntegrationAction].


(** ** Sample data *)

Definition sampleConfiguration (mode : DecorationsEnabled) : Configuration :=
  {| shellIntegrationDecorationIcon := "circle-outline";
     shellIntegrationDecorationIconSuccess := "primitive-dot";
     shellIntegrationDecorationIconError := "error-small";
     shellIntegrationDecorationsEnabled := mode;
     fontSize := CNumber 7; defaultFontSize := CNumber 14; lineHeight := CNumber 1.2 |}.

Definition sampleTheme : Theme :=
  {| successColor := Some (ColorObject "#1b81a8");
     errorColor := Some (ColorObject "#f14c4c");
     defaultColor := Some (ColorString "#ffffff40") |}.

Definition sampleCommand (text : string) (id : nat) (code : option Z) (out : bool)
    : TerminalCommand :=
  {| command := text;
     marker := Some {| marker_id := id; marker_line := 5 |};
     exitCode := code;
     genericMarkProperties := None;
     hasOutput := out;
     getOutput := if out then Some "output" else None |}.


(** A generic mark without hover text, and a command that carries it. *)
Definition silentMark : GenericMarkProperties := {| hoverMessage := None |}.

Definition markedCommand : TerminalCommand :=
  {| command := ""; marker := Some {| marker_id := 3; marker_line := 7 |};
     exitCode := None; genericMarkProperties := Some silentMark;
     hasOutput := false; getOutput := None |}.

(** A finished command without a marker. *)
Definition unmarkedCommand : TerminalCommand :=
  {| command := "ls"; marker := None; exitCode := Some 0%Z;
     genericMarkProperties := None; hasOutput := false; getOutput := None |}.

Definition freshElement : HTMLElement :=
  {| classList := [DecorationSelector.XtermDecoration]; style := noStyle |}.



(** A configuration with the font size [fs] and the line height [lh], and
    an element as the host creates it, one pixel wide and high. *)
Definition layoutConfiguration (fs lh : float) : Configuration :=
  {| shellIntegrationDecorationIcon := "circle-outline";
     shellIntegrationDecorationIconSuccess := "primitive-dot";
     shellIntegrationDecorationIconError := "error-small";
     shellIntegrationDecorationsEnabled := Both;
     fontSize := CNumber fs; defaultFontSize := CNumber 14; lineHeight := CNumber lh |}.

Definition sizedElement : HTMLElement :=
  {| classList := [DecorationSelector.XtermDecoration];
     style := {| width := Some 1%float; height := Some 1%float;
                 styleFontSize := None; marginLeft := None |} |}.

(** ** Effects of the host operations, in closed form *)

Definition delete_keys (keys : list nat) (m : JsMap IDisposableDecoration)
    : JsMap IDisposableDecoration :=
  fold_left (fun m k => map_delete k m) keys m.

(** The keys whose entries the disposal of [d] deletes. *)
Definition dispose_keys (d : nat) (a : Addon) : list nat :=
  match hostDecorations a !! d with
  | Some dec => if isDisposed dec then [] else onDispose dec
  | None => []
  end.

Definition disposed (d : nat) (a : Addon) : Addon :=
  set_decorations (delete_keys (dispose_keys d a) (_decorations a))
    (set_hostDecorations (alter (dec_set_isDisposed true) d (hostDecorations a)) a).

Definition cleared (s : Addon) : Addon :=
  set_placeholderDecoration None
    (match _placeholderDecoration s with Some p => disposed p s | None => s end).

(** [registerCommandDecoration] past its guards, for a command with marker
    [m]: the placeholder is cleared, the host is asked. *)
Definition registered (c : TerminalCommand) (before : bool) (m : Marker) (s : Addon)
    : Outcome (option nat) * Addon :=
  let s1 := cleared s in
  let n := registerDecorationCalls s1 in
  let d := length (hostDecorations s1) in
  if registerDecorationAnswers s1 n then
    (Returned (Some d),
     (if before then set_placeholderDecoration (Some d) else fun a => a)
       (set_hostDecorations
          (hostDecorations s1 ++ [newDecoration m (rulerOptions s1 c before) c before])
          (set_registerDecorationCalls (S n) s1)))
  else (Returned None, set_registerDecorationCalls (S n) s1).

Definition thrown {A} (r : Outcome A) : bool :=
  match r with Thrown _ => true | Returned _ => false end.

(** ** Invariants *)

(** A property of the addon that a method keeps, whatever its outcome. *)
Definition keeps {A} (I : Addon -> Prop) (m : M A) : Prop :=
  forall s, I s -> I (snd (m s)).

(** Pre- and postcondition of a method: [Q] after a return, [E] after an
    exception. *)
Definition hoare {A} (P : Addon -> Prop) (m : M A) (Q : A -> Addon -> Prop)
    (E : Addon -> Prop) : Prop :=
  forall s, P s ->
    match m s with
    | (Returned a, s') => Q a s'
    | (Thrown _, s') => E s'
    end.

(** A change of a decoration that leaves its marker, its disposal, its
    [onDispose] listeners and its registration flag alone. *)
Definition cosmetic (f : IDecoration -> IDecoration) : Prop :=
  forall x, decorationMarker (f x) = decorationMarker x /\
            isDisposed (f x) = isDisposed x /\
            onDispose (f x) = onDispose x /\
            beforeCommandExecution (f x) = beforeCommandExecution x.

(** A change of the addon outside the decorations, the registry, the
    placeholder and the capability listeners. *)
Definition ambient (f : Addon -> Addon) : Prop :=
  forall a, hostDecorations (f a) = hostDecorations a /\
            _decorations (f a) = _decorations a /\
            _placeholderDecoration (f a) = _placeholderDecoration a /\
            _commandDetectionListeners (f a) = _commandDetectionListeners a /\
            subscriptions (f a) = subscriptions a.

(** I2: a decoration registered as placeholder and not disposed is the one
    [_placeholderDecoration] refers to. *)
Definition I2 (a : Addon) : Prop :=
  forall d dec,
    hostDecorations a !! d = Some dec ->
    beforeCommandExecution dec = true -> isDisposed dec = false ->
    _placeholderDecoration a = Some d.

(** The handles of the placeholders that are not disposed. *)
Definition live_placeholders (a : Addon) : list nat :=
  List.filter
    (fun d => match hostDecorations a !! d with
              | Some dec => beforeCommandExecution dec && negb (isDisposed dec)
              | None => false
              end)
    (seq 0 (length (hostDecorations a))).

(** I1 and what the render listener establishes: the keys of [_decorations]
    are distinct, an entry under key [k] holds a decoration that is not
    disposed, sits at the marker [k] and deletes [k] when disposed, an
    [onDispose] listener of a decoration deletes the key of its marker, and
    a decoration that is not disposed and has such a listener is the one
    entered under that key. *)
Definition tracked (a : Addon) : Prop :=
  List.NoDup (List.map fst (_decorations a)) /\
  (forall k e, In (k, e) (_decorations a) ->
     exists dec, hostDecorations a !! decoration e = Some dec /\
                 isDisposed dec = false /\
                 marker_id (decorationMarker dec) = k /\
                 In k (onDispose dec)) /\
  (forall d dec k, hostDecorations a !! d = Some dec -> In k (onDispose dec) ->
     k = marker_id (decorationMarker dec)) /\
  (forall d dec k, hostDecorations a !! d = Some dec -> isDisposed dec = false ->
     In k (onDispose dec) ->
     exists e, In (k, e) (_decorations a) /\ decoration e = d).

(** The capability listeners that are live are the ones in
    [_commandDetectionListeners], and no two of those are for the same
    event. *)
Definition bound (a : Addon) : Prop :=
  (forall i sub, subscriptions a !! i = Some sub -> subActive sub = true ->
     exists l, _commandDetectionListeners a = Some l /\ In i l) /\
  (forall l i j si sj,
     _commandDetectionListeners a = Some l -> In i l -> In j l ->
     subscriptions a !! i = Some si -> subscriptions a !! j = Some sj ->
     subEvent si = subEvent sj -> i = j).

(** While [_addCommandDetectionListeners] runs: the older listeners are
    disposed, the list holds the new ones, registered for [evs] in order. *)
Definition binding (evs : list CommandEvent) (a : Addon) : Prop :=
  exists old new,
    subscriptions a = old ++ new /\
    Forall (fun sub => subActive sub = false) old /\
    _commandDetectionListeners a = Some (seq (length old) (length new)) /\
    List.map subEvent new = evs.

(** The live listeners for an event, on any capability object. *)
Definition event_eqb (x y : CommandEvent) : bool :=
  match x, y with
  | OnCommandStarted, OnCommandStarted
  | OnCommandFinished, OnCommandFinished
  | OnCommandInvalidated, OnCommandInvalidated
  | OnCurrentCommandInvalidated, OnCurrentCommandInvalidated => true
  | _, _ => false
  end.

Definition active_for (ev : CommandEvent) (a : Addon) : list Subscription :=
  List.filter (fun sub => subActive sub && event_eqb (subEvent sub) ev) (subscriptions a).

(** The listeners after [dispose(l)]. *)
Definition deactivated (l : list nat) (subs : list Subscription) : list Subscription :=
  fold_left (fun subs i => alter deactivate i subs) l subs.

(** No placeholder is left that is not disposed. *)
Definition no_live_placeholder (a : Addon) : Prop :=
  forall d dec,
    hostDecorations a !! d = Some dec ->
    beforeCommandExecution dec = true -> isDisposed dec = false -> False.

(** No capability listener is live. *)
Definition all_disposed (a : Addon) : Prop :=
  forall i sub, subscriptions a !! i = Some sub -> subActive sub = false.

(** The first [n] capability listeners are disposed. *)
Definition old_disposed (n : nat) (a : Addon) : Prop :=
  (n <= length (subscriptions a))%nat /\
  forall i sub, (i < n)%nat -> subscriptions a !! i = Some sub -> subActive sub = false.

(** The loop over the entries of [_decorations] that disposes each, in
    closed form. *)
Definition entries_disposed (keys : list nat) (s : Addon) : Addon :=
  fold_left
    (fun a k => match map_get k (_decorations a) with
                | Some e => disposed (decoration e) a
                | None => a
                end)
    keys s.

(** The end of [clearDecorations]: the loop over the entries, then
    [this._decorations.clear()]. *)
Definition clearEntries : M unit :=
  s <- get ;;
  dispose_entries (List.map fst (_decorations s)) ;;
  modify (set_decorations []).

(** ** The visibility setting changes *)

(** A configuration change that affects the decorations setting alone. *)
Definition visibilityChanged : ConfigurationChangeEvent :=
  {| affectsDecorationIcon := false;
     affectsDecorationIconSuccess := false;
     affectsDecorationIconError := false;
     affectsFontSize := false;
     affectsLineHeight := false;
     affectsColorCustomizations := false;
     affectsDecorationsEnabled := true |}.

Definition with_mode (mode : DecorationsEnabled) (cfg : Configuration) : Configuration :=
  {| shellIntegrationDecorationIcon := shellIntegrationDecorationIcon cfg;
     shellIntegrationDecorationIconSuccess := shellIntegrationDecorationIconSuccess cfg;
     shellIntegrationDecorationIconError := shellIntegrationDecorationIconError cfg;
     shellIntegrationDecorationsEnabled := mode;
     fontSize := fontSize cfg;
     defaultFontSize := defaultFontSize cfg;
     lineHeight := lineHeight cfg |}.

(** The listener of the constructor, run on the new setting. *)
Definition setVisibility_run (mode : DecorationsEnabled) (a : Addon)
    : Outcome unit * Addon :=
  onDidChangeConfiguration_listener visibilityChanged
    (set_configuration (with_mode mode (configuration a)) a).

(** The addon after the setting has changed to [mode]; this is
    [step a (ConfigurationChanged visibilityChanged cfg)] for the
    configuration [cfg] with the new mode. *)
Definition setVisibility (mode : DecorationsEnabled) (a : Addon) : Addon :=
  snd (setVisibility_run mode a).

Definition enabled_mode (mode : DecorationsEnabled) : bool :=
  match mode with Both | Gutter | OverviewRulerOnly => true | _ => false end.

Definition mode_has_ruler (mode : DecorationsEnabled) : bool :=
  match mode with Both | OverviewRulerOnly => true | _ => false end.

(** The decorations a replay of the capability registers, on an addon with
    an empty registry: a placeholder for the executing command with a
    marker and no generic mark, disposed again as soon as a finished command
    is replayed, then one decoration for each finished command. *)
Definition finalDecoration (a : Addon) (c : TerminalCommand) : option IDecoration :=
  match marker c with
  | Some m => Some (newDecoration m (rulerOptions a c false) c false)
  | None => None
  end.

Definition executingDecoration (a : Addon) (cap : Capability) : list IDecoration :=
  match executingCommandObject cap with
  | Some c =>
      match marker c with
      | Some m =>
          if isSome (genericMarkProperties c) then []
          else [newDecoration m (rulerOptions a c true) c true]
      | None => []
      end
  | None => []
  end.

Definition replayed (a : Addon) (cap : Capability) : list IDecoration :=
  match commands cap with
  | [] => executingDecoration a cap
  | _ :: _ =>
      List.map (dec_set_isDisposed true) (executingDecoration a cap) ++
      omap (finalDecoration a) (commands cap)
  end.

(** What the replay depends on besides the decorations. *)
Definition setup (a : Addon)
    : bool * option bool * option bool * Theme * option Capability * (nat -> bool) :=
  (_terminal a, _decorationsDisabled a, _overviewRulerDecorations a, theme a,
   capabilities a, registerDecorationAnswers a).

(** An addon that registers what it is asked to. *)
Definition registering (a : Addon) : Prop :=
  _terminal a = true /\ truthy_flag (_decorationsDisabled a) = false /\
  forall n, registerDecorationAnswers a n = true.

(** During a replay on an empty registry: the decorations of the host, the
    placeholder, and the setup of [s0]. *)
Definition replaying (s0 : Addon) (H : list IDecoration) (ph : option nat) (s : Addon)
    : Prop :=
  hostDecorations s = H /\ _decorations s = [] /\ _placeholderDecoration s = ph /\
  setup s = setup s0.

(** The placeholder reference, if any, is to a disposed decoration or to
    none. *)
Definition stale (ph : option nat) (H : list IDecoration) : Prop :=
  forall p dec, ph = Some p -> H !! p = Some dec -> isDisposed dec = true.

Definition clearedHost (ph : option nat) (H : list IDecoration) : list IDecoration :=
  match ph with
  | Some p => alter (dec_set_isDisposed true) p H
  | None => H
  end.

(** The decorations of [s0] are still there, with the overview ruler
    options they had, and disposed if they were. *)
Definition since (s0 s : Addon) : Prop :=
  forall d dec, hostDecorations s0 !! d = Some dec ->
    exists dec', hostDecorations s !! d = Some dec' /\
                 overviewRulerOptions dec' = overviewRulerOptions dec /\
                 (isDisposed dec = true -> isDisposed dec' = true).



(** ** Sample addons *)

(** A capability that knows one executing command, or one finished command,
    or neither. *)
Definition sampleCapability (executing : bool) (finished : bool) : Capability :=
  {| capabilityId := 0;
     executingCommandObject :=
       if executing then Some (sampleCommand "ls" 1 None false) else None;
     commands := if finished then [sampleCommand "make" 2 (Some 2%Z) true] else [] |}.

Definition sampleAddon (executing finished : bool) (mode : DecorationsEnabled) : Addon :=
  construct (Some (sampleCapability executing finished)) (sampleConfiguration mode)
    sampleTheme [[]] (fun _ => true).

(** A command has started: one placeholder, not rendered yet. *)
Definition startedAddon (mode : DecorationsEnabled) : Addon :=
  run [Activate; CommandStarted (sampleCommand "ls" 1 None false)]
    (sampleAddon false false mode).

(** The placeholder has been rendered: it is the one entry of the registry. *)
Definition renderedAddon (mode : DecorationsEnabled) : Addon :=
  run [Activate; CommandStarted (sampleCommand "ls" 1 None false);
       Rendered 0 freshElement] (sampleAddon false false mode).

(** The capability knows a finished command; its decoration, registered at
    activation, has been rendered. *)
Definition finishedAddon (mode : DecorationsEnabled) : Addon :=
  run [Activate; Rendered 0 freshElement] (sampleAddon false true mode).






(** ** The specification's wording of the stateful claims *)

(** "Current command invalidated" for "no problems reported", one
    placeholder [p] and no finished entry: the placeholder is disposed, the
    registry is empty and the placeholder reference is none. *)
Definition retracted_as_specified (s : Addon) (p : nat) : Prop :=
  let s' := snd (onCurrentCommandInvalidated_listener NoProblemsReported s) in
  (exists dec, hostDecorations s' !! p = Some dec /\ isDisposed dec = true) /\
  _decorations s' = [] /\
  _placeholderDecoration s' = None.


(** Switching between enabled modes: every live entry keeps its decoration
    (nothing is recreated) and carries the overview ruler option exactly
    when the new mode shows the ruler. *)
Definition patched_as_specified (mode : DecorationsEnabled) (a : Addon) : Prop :=
  forall k e, In (k, e) (_decorations a) ->
    In (k, e) (_decorations (setVisibility mode a)) /\
    exists dec, hostDecorations (setVisibility mode a) !! decoration e = Some dec /\
                isDisposed dec = false /\
                isSome (overviewRulerOptions dec) = mode_has_ruler mode.

(** The addon after the listener of the configuration change has disposed
    the placeholder and every entry. *)
Definition swept (a : Addon) : Addon :=
  let a0 := match _placeholderDecoration a with
            | Some p => disposed p a
            | None => a
            end in
  entries_disposed (List.map fst (_decorations a0)) a0.

(** [s'] differs from [s] in the decorations of the host and in the
    registry at most. *)
Definition shaped (s s' : Addon) : Prop :=
  s' = set_decorations (_decorations s') (set_hostDecorations (hostDecorations s') s).

(** The two flags [_updateDecorationVisibility] sets. *)
Definition flags (a : Addon) : option bool * option bool :=
  (_overviewRulerDecorations a, _decorationsDisabled a).

(** [_addCommandDetectionListeners] from [this._commandDetectionListeners =
    []] on, for the capability it found. *)
Definition replayAndSubscribe (capability : Capability) : M unit :=
  modify (set_commandDetectionListeners (Some [])) ;;
  (match executingCommandObject capability with
   | Some c =>
       if isSome (marker c) then ignore (registerCommandDecoration c true) else ret tt
   | None => ret tt
   end) ;;
  push_listener OnCommandStarted capability ;;
  forEach (commands capability)
    (fun c => ignore (registerCommandDecoration c false)) ;;
  push_listener OnCommandFinished capability ;;
  push_listener OnCommandInvalidated capability ;;
  push_listener OnCurrentCommandInvalidated capability.

(** The placeholder reference after a replay that started with [ph] and
    [n] decorations. *)
Definition replayedPlaceholder (a : Addon) (cap : Capability) (n : nat) (ph : option nat)
    : option nat :=
  match commands cap with
  | [] => match executingDecoration a cap with [] => ph | _ :: _ => Some n end
  | _ :: _ => None
  end.

(** The list of capability listeners exists. *)
Definition listening (s : Addon) : Prop := _commandDetectionListeners s <> None.

(** ** The rest of the addon *)

(** The classes at the odd positions of a class list: what the loop of
    [_updateClasses] over the live [classList] leaves. *)
Fixpoint odd_positions {A} (l : list A) : list A :=
  match l with
  | _ :: x :: l' => x :: odd_positions l'
  | _ => []
  end.

(** [String(n)] for an integer [n]. *)
Definition numberToString (z : Z) : string := NilZero.string_of_int (Z.to_int z).

Definition lineFeed : string := String (Ascii.ascii_of_nat 10) EmptyString.

(** The task the listener of [mouseenter] in [_createHover] hands to the
    hover delayer: the content [showHover] is called with when the task
    runs, [None] when the task returns without showing a hover.  [ago] is
    [fromNow(command.timestamp, true)]; [localize(key, text, ...)] is taken
    at its default text. *)
Definition hoverContent (c : TerminalCommand) (ago : string) : option string :=
  let hoverContent :=
    String.append "Show Command Actions"
      (String.append lineFeed
         (String.append lineFeed (String.append "---" (String.append lineFeed lineFeed)))) in
  match genericMarkProperties c with
  | Some g =>
      if truthy_opt_string (hoverMessage g) then hoverMessage g else None
  | None =>
      match exitCode c with
      | Some z =>
          if truthy_number z then
            if (z =? -1)%Z
            then Some (String.append hoverContent
                         (String.append "Command executed "
                            (String.append ago " and failed")))
            else Some (String.append hoverContent
                         (String.append "Command executed "
                            (String.append ago
                               (String.append " and failed (Exit Code "
                                  (String.append (numberToString z) ")")))))
          else Some (String.append hoverContent (String.append "Command executed " ago))
      | None => Some (String.append hoverContent (String.append "Command executed " ago))
      end
  end.

(** The entry [(k, e)] is in the registry, or its decoration is disposed. *)
Definition held (k : nat) (e : IDisposableDecoration) (s : Addon) : Prop :=
  In (k, e) (_decorations s) \/
  exists dec, hostDecorations s !! decoration e = Some dec /\ isDisposed dec = true.

(** The keys the listener of [onCommandInvalidated] looks up: the marker
    ids of the commands, but for a missing marker and for the id 0. *)
Definition invalidated_keys (cs : list TerminalCommand) : list nat :=
  omap (fun c => match marker c with
                 | Some m => if negb (Nat.eqb (marker_id m) 0) then Some (marker_id m)
                             else None
                 | None => None
                 end) cs.

(** The addon after the decorations [ds] have been disposed, in order. *)
Definition disposed_all (ds : list nat) (s : Addon) : Addon :=
  fold_left (fun a d => disposed d a) ds s.

(** [this._placeholderDecoration?.marker.dispose()] of [clearDecorations],
    in closed form. *)
Definition placeholderMarkerDisposed (s : Addon) : Addon :=
  match _placeholderDecoration s with
  | Some p =>
      match hostDecorations s !! p with
      | Some dec =>
          disposed_all (decorations_at (marker_id (decorationMarker dec)) (hostDecorations s)) s
      | None => s
      end
  | None => s
  end.

(** The addon has no terminal yet and has registered nothing. *)
Definition inactive (s : Addon) : Prop :=
  _terminal s = false /\ hostDecorations s = [] /\ _decorations s = [] /\
  _placeholderDecoration s = None /\ registerDecorationCalls s = 0.

(** Decorations are disabled; the host holds [n] decorations and has been
    asked for a decoration [calls] times. *)
Definition disabled (n calls : nat) (s : Addon) : Prop :=
  truthy_flag (_decorationsDisabled s) = true /\
  length (hostDecorations s) = n /\ registerDecorationCalls s = calls.

(** The events that leave the decorations setting alone. *)
Definition keepsSetting (ev : Event) : bool :=
  match ev with
  | ConfigurationChanged e _ => negb (affectsDecorationsEnabled e)
  | _ => true
  end.

Definition isActivate (ev : Event) : bool :=
  match ev with Activate => true | _ => false end.

(** The decorations of the host after a loop that alters, for each [x] of
    [l], the decoration [dOf x] by [fOf x]. *)
Definition altered {A} (dOf : A -> nat) (fOf : A -> IDecoration -> IDecoration)
    (l : list A) (H : list IDecoration) : list IDecoration :=
  fold_left (fun H x => alter (fOf x) (dOf x) H) l H.

(** What [_refreshStyles(true)] does to the overview ruler option of the
    decoration of an entry. *)
Definition recolored (th : Theme) (e : IDisposableDecoration) (x : IDecoration)
    : IDecoration :=
  dec_set_overviewRulerOptions
    (match overviewRulerOptions x with
     | Some o => Some {| color := commandColor th (entryExitCode e); position := position o |}
     | None => Some {| color := commandColor th (entryExitCode e); position := None |}
     end) x.

(** What [update_element] does to a decoration. *)
Definition restyled (f : HTMLElement -> HTMLElement) (x : IDecoration) : IDecoration :=
  dec_set_element (option_map f (element x)) x.

(** What [_updateClasses] does to the element of a decoration. *)
Definition reclassed (cfg : Configuration) (exitCode : option Z)
    (gmp : option GenericMarkProperties) (x : IDecoration) : IDecoration :=
  dec_set_element (snd (_updateClasses cfg (element x) exitCode gmp)) x.

(** [s] is [s0] but for the decorations of the host, which are as many and
    agree with those of [s0] on [field]. *)
Definition refreshed {B} (field : IDecoration -> B) (s0 s : Addon) : Prop :=
  s = set_hostDecorations (hostDecorations s) s0 /\
  length (hostDecorations s) = length (hostDecorations s0) /\
  forall d, field <$> hostDecorations s !! d = field <$> hostDecorations s0 !! d.

(** None of the three configured icons has whitespace in its name. *)
Definition iconsValid (cfg : Configuration) : bool :=
  negb (has_whitespace (shellIntegrationDecorationIcon cfg))
  && negb (has_whitespace (shellIntegrationDecorationIconSuccess cfg))
  && negb (has_whitespace (shellIntegrationDecorationIconError cfg)).

(** The decorations of the host after [refreshLayouts]. *)
Definition refreshedLayouts (s : Addon) : list IDecoration :=
  altered (fun kv : nat * IDisposableDecoration => decoration (snd kv))
    (fun _ => restyled (updateLayout_element (configuration s)))
    (_decorations s)
    (match _placeholderDecoration s with
     | Some p => alter (restyled (updateLayout_element (configuration s))) p
                   (hostDecorations s)
     | None => hostDecorations s
     end).

(** What a decoration is, apart from its looks: its marker, whether it is
    disposed, its [onDispose] listeners, the command it was registered for
    and whether as a placeholder. *)
Definition identity (x : IDecoration) : Marker * bool * list nat * TerminalCommand * bool :=
  (decorationMarker x, isDisposed x, onDispose x, renderCommand x,
   beforeCommandExecution x).

(** The guards of [registerCommandDecoration] are open for a final
    decoration, and [n] listeners are registered on [onDidRemoveCapability]. *)
Definition open (n : nat) (s : Addon) : Prop :=
  _terminal s = true /\ truthy_flag (_decorationsDisabled s) = false /\
  removeCapabilityListeners s = n.

(** A capability that knows a finished command without a marker. *)
Definition markerlessCapability : Capability :=
  {| capabilityId := 0;
     executingCommandObject := None;
     commands := [sampleCommand "make" 2 (Some 2%Z) true;
                  {| command := "ls"; marker := None; exitCode := Some 0%Z;
                     genericMarkProperties := None; hasOutput := false;
                     getOutput := None |}] |}.

(** The listeners of the addon on the capability [cap], which is the
    current one: the older ones are disposed, the list holds the new ones,
    live and registered on [cap] for [evs], in order. *)
Definition listeningTo (cap : Capability) (evs : list CommandEvent) (a : Addon) : Prop :=
  capabilities a = Some cap /\
  exists old,
    subscriptions a =
      old ++ List.map (fun ev => {| subEvent := ev; subCapability := capabilityId cap;
                                    subActive := true |}) evs /\
    Forall (fun sub => subActive sub = false) old /\
    _commandDetectionListeners a = Some (seq (length old) (length evs)).

(** * Properties *)

(** ** Class lists *)

Lemma token_in_In (t : string) (l : list string) : token_in t l = true <-> In t l.
Proof.
  unfold token_in. rewrite existsb_exists. split.
  - intros [x [Hx Heq]]. apply String.eqb_eq in Heq. now subst.
  - intros H. exists t. split; [assumption | apply String.eqb_refl].
Qed.

Lemma append_tokens_keeps (toks l : list string) (t : string) :
  In t l -> In t (append_tokens toks l).
Proof.
  revert l. induction toks as [|u toks IH]; intros l H; simpl; [assumption|].
  apply IH. destruct (token_in u l); [assumption | apply in_or_app; now left].
Qed.

Lemma append_tokens_adds (toks l : list string) (t : string) :
  In t toks -> In t (append_tokens toks l).
Proof.
  revert l. induction toks as [|u toks IH]; intros l H; simpl; [contradiction|].
  destruct H as [-> | H]; [| now apply IH].
  apply append_tokens_keeps. destruct (token_in t l) eqn:E.
  - now apply token_in_In.
  - apply in_or_app. right. now left.
Qed.


Lemma append_tokens_app (toks toks' l : list string) :
  append_tokens (toks ++ toks') l = append_tokens toks' (append_tokens toks l).
Proof.
  revert l. induction toks as [|u toks IH]; intros l; simpl; [reflexivity | apply IH].
Qed.

Lemma validate_tokens_valid (toks : list string) :
  validate_tokens toks = None <-> forallb valid_token toks = true.
Proof.
  induction toks as [|t toks IH]; simpl; [tauto|].
  unfold valid_token.
  destruct (String.eqb t ""); simpl; [split; discriminate|].
  destruct (has_whitespace t); simpl; [split; discriminate | exact IH].
Qed.

(** [classList.add] returns exactly when every token is valid. *)
Lemma classList_add_valid (toks l : list string) :
  forallb valid_token toks = true ->
  classList_add toks l = Returned (append_tokens toks l).
Proof.
  intros H. apply validate_tokens_valid in H. unfold classList_add. now rewrite H.
Qed.

Lemma classList_add_invalid (toks l : list string) :
  forallb valid_token toks = false ->
  exists message, classList_add toks l = Thrown message.
Proof.
  intros H. unfold classList_add.
  destruct (validate_tokens toks) as [message|] eqn:E; [now exists message|].
  apply validate_tokens_valid in E. congruence.
Qed.

(** [classList.add('hide')] does not throw. *)
Lemma classList_add_hide (l : list string) :
  classList_add [DecorationSelector.Hide] l =
  Returned (append_tokens [DecorationSelector.Hide] l).
Proof. reflexivity. Qed.

(** The tokens of the calls that come before the first invalid one are on
    the element, whether the method throws or not. *)
Lemma classList_addEach_keeps (calls : list (list string)) (l : list string) (t : string) :
  In t l -> In t (snd (classList_addEach calls l)).
Proof.
  revert l. induction calls as [|toks calls IH]; intros l H; simpl; [assumption|].
  destruct (forallb valid_token toks) eqn:Hv.
  - rewrite classList_add_valid by exact Hv. apply IH. now apply append_tokens_keeps.
  - destruct (classList_add_invalid toks l Hv) as [message ->]. assumption.
Qed.

Lemma classList_addEach_prefix (pre rest : list (list string)) (l : list string)
    (t : string) :
  forallb (forallb valid_token) pre = true -> In t (List.concat pre) ->
  In t (snd (classList_addEach (pre ++ rest) l)).
Proof.
  revert l. induction pre as [|toks pre IH]; intros l Hv Hin; simpl in *; [contradiction|].
  apply andb_true_iff in Hv. destruct Hv as [Hv1 Hv2].
  rewrite classList_add_valid by exact Hv1.
  apply in_app_or in Hin. destruct Hin as [Hin | Hin].
  - apply classList_addEach_keeps. now apply append_tokens_adds.
  - now apply IH.
Qed.


Lemma classList_addEach_returned (calls : list (list string)) (l : list string) :
  forallb (forallb valid_token) calls = true ->
  classList_addEach calls l = (Returned tt, append_tokens (List.concat calls) l).
Proof.
  revert l. induction calls as [|toks calls IH]; intros l Hv; simpl in *; [reflexivity|].
  apply andb_true_iff in Hv. destruct Hv as [Hv1 Hv2].
  rewrite classList_add_valid by exact Hv1. rewrite append_tokens_app. now apply IH.
Qed.

Lemma classList_addEach_thrown (calls : list (list string)) (l : list string) :
  forallb (forallb valid_token) calls = false ->
  exists message, fst (classList_addEach calls l) = Thrown message.
Proof.
  revert l. induction calls as [|toks calls IH]; intros l Hv; simpl in *; [discriminate|].
  destruct (forallb valid_token toks) eqn:Hv1; simpl in Hv.
  - rewrite classList_add_valid by exact Hv1. now apply IH.
  - destruct (classList_add_invalid toks l Hv1) as [message ->]. now exists message.
Qed.


Lemma classList_remove_length (c : string) (l : list string) :
  In c l -> (length (classList_remove c l) < length l)%nat.
Proof.
  unfold classList_remove. induction l as [|x l IH]; simpl; [contradiction|].
  intros [-> | H].
  - rewrite String.eqb_refl. simpl.
    pose proof (List.filter_length_le (fun c0 => negb (c0 =? c)%string) l). lia.
  - specialize (IH H). destruct (negb (x =? c)%string); simpl; lia.
Qed.


(** The loop ends because the index leaves the list, not because the fuel
    runs out: from [length l - i] on, more fuel changes nothing. *)
Lemma remove_each_iterating_fuel (fuel extra i : nat) (l : list string) :
  (length l <= i + fuel)%nat ->
  remove_each_iterating (fuel + extra) i l = remove_each_iterating fuel i l.
Proof.
  revert i l. induction fuel as [|fuel IH]; intros i l Hlen; simpl.
  - destruct extra; simpl; [reflexivity|].
    destruct (nth_error l i) eqn:E; [|reflexivity].
    assert (nth_error l i = None) by (apply nth_error_None; lia). congruence.
  - destruct (nth_error l i) as [c|] eqn:E; [|reflexivity].
    apply IH. pose proof (classList_remove_length c l (nth_error_In _ _ E)). lia.
Qed.


(** ** Style Resolver *)

(** The class of an icon is a valid token when the icon has no whitespace. *)
Lemma valid_icon_token (icon : string) :
  valid_token (String.append "codicon-" icon) = negb (has_whitespace icon).
Proof. reflexivity. Qed.

(** The calls of [_updateClasses] are valid but for the class of the
    configured icon. *)
Lemma updateClasses_calls_valid (cfg : Configuration) (code : option Z)
    (gmp : option GenericMarkProperties) :
  forallb (forallb valid_token) (_updateClasses_calls cfg code gmp) =
  match configuredIcon cfg code gmp with
  | Some icon => negb (has_whitespace icon)
  | None => true
  end.
Proof.
  unfold _updateClasses_calls, configuredIcon.
  destruct gmp as [g|].
  - destruct (truthy_opt_string (hoverMessage g)); reflexivity.
  - destruct code as [z|]; [destruct (truthy_number z)|];
      cbn [forallb]; rewrite valid_icon_token;
      repeat (rewrite ?andb_true_r; cbn [andb]); reflexivity.
Qed.

(** The classes of the first call are on the element after the method,
    whether it throws or not. *)
Lemma updateClasses_base (cfg : Configuration) (el : HTMLElement) (code : option Z)
    (gmp : option GenericMarkProperties) (t : string) :
  In t [DecorationSelector.CommandDecoration; DecorationSelector.Codicon;
        DecorationSelector.XtermDecoration] ->
  In t (classList (snd (updateClasses_element cfg el code gmp))).
Proof.
  intros H. unfold updateClasses_element. cbn [snd classList].
  unfold _updateClasses_calls.
  match goal with
  | |- In t (snd (classList_addEach (?b :: ?rest) ?l)) =>
      apply (classList_addEach_prefix [b] rest l t); [reflexivity|]
  end.
  simpl. simpl in H. tauto.
Qed.

Lemma updateClasses_codicon (cfg : Configuration) (el : HTMLElement) (code : option Z)
    (gmp : option GenericMarkProperties) :
  token_in DecorationSelector.Codicon
    (classList (snd (updateClasses_element cfg el code gmp))) = true.
Proof. apply token_in_In. apply updateClasses_base. simpl. tauto. Qed.


(** When the configured icon has no whitespace the method returns, and the
    element has every token of its calls. *)
Lemma updateClasses_returned (cfg : Configuration) (el : HTMLElement) (code : option Z)
    (gmp : option GenericMarkProperties) :
  match configuredIcon cfg code gmp with
  | Some icon => has_whitespace icon = false
  | None => True
  end ->
  updateClasses_element cfg el code gmp =
  (Returned tt,
   {| classList := append_tokens (_updateClasses_tokens cfg code gmp)
                     (classList_removeEach (classList el));
      style := style el |}).
Proof.
  intros Hv. unfold updateClasses_element.
  rewrite classList_addEach_returned; [reflexivity|].
  rewrite updateClasses_calls_valid.
  destruct (configuredIcon cfg code gmp); [now rewrite Hv | reflexivity].
Qed.

(** With whitespace in the configured icon the method throws. *)
Lemma updateClasses_thrown (cfg : Configuration) (el : HTMLElement) (code : option Z)
    (gmp : option GenericMarkProperties) (icon : string) :
  configuredIcon cfg code gmp = Some icon -> has_whitespace icon = true ->
  thrown (fst (updateClasses_element cfg el code gmp)) = true.
Proof.
  intros Hi Hw. unfold updateClasses_element. cbn [fst].
  destruct (classList_addEach_thrown (_updateClasses_calls cfg code gmp)
              (classList_removeEach (classList el))) as [message Hm].
  - rewrite updateClasses_calls_valid, Hi, Hw. reflexivity.
  - now rewrite Hm.
Qed.





(** ** Interaction Builder *)

(** C6, as stated, fails: for a command with empty text and no output the
    list is the single "learn" action, no separator comes before it. *)
Lemma C6_no_separator_in_front :
  _getCommandActions (sampleCommand "" 1 (Some 0%Z) false)
  <> spec_actions (sampleCommand "" 1 (Some 0%Z) false).
Proof. vm_compute. discriminate. Qed.

(** C6 (amended): the list is determined by (command text non-empty,
    hasOutput); a separator is pushed only when the list built so far is not
    empty.  So the list is the specification's whenever the command text is
    non-empty, in particular [rerun, copy command, separator, copy output,
    copy output as HTML, separator, learn more] with output present; with
    empty text it is [copy output, copy output as HTML, separator, learn
    more] when output is present and [learn more] alone otherwise. *)
Theorem C6_command_actions (c : TerminalCommand) :
  _getCommandActions c =
  (if negb (String.eqb (command c) "")
   then [rerunAction c; copyCommandAction c] ++
        (if hasOutput c
         then [Separator; copyOutputAction c; copyOutputAsHtmlAction c] else []) ++
        [Separator; learnShellIntegrationAction]
   else if hasOutput c
        then [copyOutputAction c; copyOutputAsHtmlAction c;
              Separator; learnShellIntegrationAction]
        else [learnShellIntegrationAction]) /\
  (command c <> "" -> _getCommandActions c = spec_actions c) /\
  (command c <> "" -> hasOutput c = true ->
   _getCommandActions c =
   [rerunAction c; copyCommandAction c; Separator; copyOutputAction c;
    copyOutputAsHtmlAction c; Separator; learnShellIntegrationAction]).
Proof.
  unfold _getCommandActions, spec_actions.
  repeat split.
  - destruct (String.eqb (command c) ""), (hasOutput c); reflexivity.
  - intros Hne. apply String.eqb_neq in Hne. rewrite Hne.
    destruct (hasOutput c); reflexivity.
  - intros Hne Hout. apply String.eqb_neq in Hne. rewrite Hne, Hout. reflexivity.
Qed.

Lemma C6_command_actions_witness :
  _getCommandActions (sampleCommand "make" 2 (Some 2%Z) true) =
  [rerunAction (sampleCommand "make" 2 (Some 2%Z) true);
   copyCommandAction (sampleCommand "make" 2 (Some 2%Z) true);
   Separator;
   copyOutputAction (sampleCommand "make" 2 (Some 2%Z) true);
   copyOutputAsHtmlAction (sampleCommand "make" 2 (Some 2%Z) true);
   Separator; learnShellIntegrationAction].
Proof.
  apply (proj2 (proj2 (C6_command_actions (sampleCommand "make" 2 (Some 2%Z) true)))).
  - simpl. discriminate.
  - reflexivity.
Defined.

(** ** Layout Calculator *)



Lemma setLength_twice (nonNegative : bool) (x : float) (old : option float) :
  setLength nonNegative x (setLength nonNegative x old) = setLength nonNegative x old.
Proof. unfold setLength. now destruct (validLength nonNegative x). Qed.




(** ** State passing *)

Lemma run_eta {A} (m : M A) (s : Addon) : m s = (fst (m s), snd (m s)).
Proof. now destruct (m s). Qed.

Lemma bind_get {A} (k : Addon -> M A) (s : Addon) : bind get k s = k s s.
Proof. reflexivity. Qed.

Lemma snd_rethrow (o : Outcome unit) (s : Addon) : snd (rethrow o s) = s.
Proof. now destruct o. Qed.

Lemma fst_rethrow (o : Outcome unit) (s : Addon) :
  fst (rethrow o s) = match o with
                      | Returned _ => Returned tt
                      | Thrown message => Thrown message
                      end.
Proof. now destruct o. Qed.

Lemma bind_returned {A B} (m : M A) (k : A -> M B) (s s' : Addon) (a : A) :
  m s = (Returned a, s') -> bind m k s = k a s'.
Proof. unfold bind. now intros ->. Qed.

Lemma bind_thrown {A B} (m : M A) (k : A -> M B) (s s' : Addon) (e : string) :
  m s = (Thrown e, s') -> bind m k s = (Thrown e, s').
Proof. unfold bind. now intros ->. Qed.

Lemma addon_eta (a : Addon) :
  {| _terminal := _terminal a;
     _commandDetectionListeners := _commandDetectionListeners a;
     _decorations := _decorations a;
     _placeholderDecoration := _placeholderDecoration a;
     _overviewRulerDecorations := _overviewRulerDecorations a;
     _decorationsDisabled := _decorationsDisabled a;
     addCapabilityListeners := addCapabilityListeners a;
     removeCapabilityListeners := removeCapabilityListeners a;
     hostDecorations := hostDecorations a;
     subscriptions := subscriptions a;
     capabilities := capabilities a;
     configuration := configuration a;
     theme := theme a;
     containers := containers a;
     registerDecorationCalls := registerDecorationCalls a;
     registerDecorationAnswers := registerDecorationAnswers a |} = a.
Proof. now destruct a. Qed.

(** ** Disposal of a decoration *)

Lemma fire_onDispose_closed (keys : list nat) (a : Addon) :
  fold_left (fun a k => set_decorations (map_delete k (_decorations a)) a) keys a =
  set_decorations (delete_keys keys (_decorations a)) a.
Proof.
  revert a. induction keys as [|k keys IH]; intros a; simpl.
  - unfold set_decorations, delete_keys. simpl. now rewrite addon_eta.
  - rewrite IH. reflexivity.
Qed.

Lemma dec_set_isDisposed_id (dec : IDecoration) :
  isDisposed dec = true -> dec_set_isDisposed true dec = dec.
Proof. destruct dec; simpl; now intros ->. Qed.

Lemma alter_lookup_id {A} (f : A -> A) (l : list A) (i : nat) (x : A) :
  l !! i = Some x -> f x = x -> alter f i l = l.
Proof.
  revert i. induction l as [|y l IH]; intros [|i] H Hf; simpl in *; try discriminate.
  - injection H as ->. now rewrite Hf.
  - f_equal. now apply IH.
Qed.

Lemma alter_field {B} (f : IDecoration -> IDecoration) (field : IDecoration -> B)
    (p : nat) (H : list IDecoration) (d : nat) :
  (forall dec, field (f dec) = field dec) ->
  field <$> alter f p H !! d = field <$> H !! d.
Proof.
  intros Hf. destruct (decide (p = d)) as [<- | Hne].
  - rewrite list_lookup_alter_eq. destruct (H !! p); simpl; [|reflexivity]. now rewrite Hf.
  - now rewrite list_lookup_alter_ne.
Qed.

Lemma alter_lookup_insert {A} (f : A -> A) (l : list A) (i : nat) (x : A) :
  l !! i = Some x -> alter f i l = <[i := f x]> l.
Proof.
  revert i. induction l as [|y l IH]; intros [|i] H; simpl in *; try discriminate.
  - now injection H as ->.
  - f_equal. now apply IH.
Qed.

Lemma alter_lookup_none {A} (f : A -> A) (l : list A) (i : nat) :
  l !! i = None -> alter f i l = l.
Proof.
  revert i. induction l as [|y l IH]; intros [|i] H; simpl in *; try discriminate;
    [reflexivity | reflexivity | f_equal; now apply IH].
Qed.

Lemma decoration_dispose_closed (d : nat) (s : Addon) :
  decoration_dispose d s = (Returned tt, disposed d s).
Proof.
  unfold decoration_dispose, disposed, dispose_keys.
  destruct (hostDecorations s !! d) as [dec|] eqn:E.
  - destruct (isDisposed dec) eqn:Ed.
    + rewrite (alter_lookup_id _ _ _ _ E (dec_set_isDisposed_id _ Ed)).
      unfold delete_keys, set_decorations, set_hostDecorations. simpl.
      now rewrite addon_eta.
    + rewrite fire_onDispose_closed. simpl.
      now rewrite (alter_lookup_insert _ _ _ _ E).
  - rewrite (alter_lookup_none _ _ _ E).
    unfold delete_keys, set_decorations, set_hostDecorations. simpl.
    now rewrite addon_eta.
Qed.

Lemma _clearPlaceholder_closed (s : Addon) :
  _clearPlaceholder s = (Returned tt, cleared s).
Proof.
  unfold _clearPlaceholder, cleared, bind, get, modify, dispose_optional.
  destruct (_placeholderDecoration s) as [p|].
  - now rewrite decoration_dispose_closed.
  - reflexivity.
Qed.

(** ** [registerCommandDecoration] *)

Lemma registerCommandDecoration_guarded (c : TerminalCommand) (before : bool) (s : Addon) :
  guarded s c before = true ->
  registerCommandDecoration c before s = (Returned None, s).
Proof. unfold registerCommandDecoration, bind, get. now intros ->. Qed.

Lemma registerCommandDecoration_no_marker (c : TerminalCommand) (before : bool) (s : Addon) :
  guarded s c before = false -> marker c = None ->
  registerCommandDecoration c before s =
  (Thrown "cannot add a decoration for a command with no marker", s).
Proof. unfold registerCommandDecoration, bind, get. now intros -> ->. Qed.

Lemma registerCommandDecoration_registered (c : TerminalCommand) (before : bool)
    (m : Marker) (s : Addon) :
  guarded s c before = false -> marker c = Some m ->
  registerCommandDecoration c before s = registered c before m s.
Proof.
  unfold registerCommandDecoration, registered, bind, get. intros -> ->.
  rewrite _clearPlaceholder_closed. unfold terminal_registerDecoration.
  destruct (registerDecorationAnswers (cleared s) (registerDecorationCalls (cleared s)));
    [|reflexivity].
  destruct before; reflexivity.
Qed.

Lemma cleared_hostDecorations (s : Addon) :
  hostDecorations (cleared s) =
  match _placeholderDecoration s with
  | Some p => alter (dec_set_isDisposed true) p (hostDecorations s)
  | None => hostDecorations s
  end.
Proof. unfold cleared. now destruct (_placeholderDecoration s). Qed.

Lemma cleared_length (s : Addon) :
  length (hostDecorations (cleared s)) = length (hostDecorations s).
Proof.
  rewrite cleared_hostDecorations.
  destruct (_placeholderDecoration s); [apply length_alter | reflexivity].
Qed.

Lemma cleared_calls (s : Addon) :
  registerDecorationCalls (cleared s) = registerDecorationCalls s.
Proof. unfold cleared. now destruct (_placeholderDecoration s). Qed.

Lemma cleared_answers (s : Addon) :
  registerDecorationAnswers (cleared s) = registerDecorationAnswers s.
Proof. unfold cleared. now destruct (_placeholderDecoration s). Qed.

Lemma cleared_placeholder_disposed (s : Addon) (p : nat) (dec : IDecoration) :
  _placeholderDecoration s = Some p -> hostDecorations s !! p = Some dec ->
  hostDecorations (cleared s) !! p = Some (dec_set_isDisposed true dec).
Proof.
  intros Hp Hdec. rewrite cleared_hostDecorations, Hp.
  now rewrite list_lookup_alter_eq, Hdec.
Qed.

(** C4: for a finished command, with an active terminal and decorations not
    disabled, [registerCommandDecoration] throws exactly when the command
    has no marker, and the listener of [onCommandFinished] lets the error
    through; behind one of the three guards it returns no decoration and
    leaves the addon as it was, marker or not. *)
Theorem C4_throws_iff_no_marker (c : TerminalCommand) (s : Addon) :
  (_terminal s = true -> truthy_flag (_decorationsDisabled s) = false ->
   (thrown (fst (registerCommandDecoration c false s)) = true <-> marker c = None) /\
   (thrown (fst (onCommandFinished_listener c s)) = true <-> marker c = None)) /\
  (forall before : bool,
     _terminal s = false \/ truthy_flag (_decorationsDisabled s) = true \/
     (before = true /\ genericMarkProperties c <> None) ->
     registerCommandDecoration c before s = (Returned None, s)).
Proof.
  split.
  - intros Ht Hd.
    assert (Hg : guarded s c false = false) by (unfold guarded; now rewrite Ht, Hd).
    unfold onCommandFinished_listener, ignore, bind.
    destruct (marker c) as [m|] eqn:Hm.
    + rewrite (registerCommandDecoration_registered c false m s Hg Hm).
      unfold registered.
      destruct (registerDecorationAnswers _ _); simpl; split; split; discriminate.
    + rewrite (registerCommandDecoration_no_marker c false s Hg Hm). simpl.
      split; split; reflexivity.
  - intros before H. apply registerCommandDecoration_guarded. unfold guarded.
    destruct H as [-> | [-> | [-> Hg]]].
    + reflexivity.
    + apply orb_true_r.
    + destruct (genericMarkProperties c); [|contradiction]. simpl.
      now rewrite orb_true_r.
Qed.

Lemma C4_throws_iff_no_marker_witness :
  let s := run [Activate]
             (construct (Some (sampleCapability false false)) (sampleConfiguration Both)
                sampleTheme [] (fun _ => true)) in
  let s' := run [Activate]
              (construct (Some (sampleCapability false false)) (sampleConfiguration Never)
                 sampleTheme [] (fun _ => true)) in
  (marker unmarkedCommand = None /\
   thrown (fst (registerCommandDecoration unmarkedCommand false s)) = true /\
   thrown (fst (onCommandFinished_listener unmarkedCommand s)) = true) /\
  (marker (sampleCommand "ls" 1 (Some 0%Z) false) <> None /\
   thrown (fst (registerCommandDecoration (sampleCommand "ls" 1 (Some 0%Z) false)
                  false s)) = false) /\
  registerCommandDecoration unmarkedCommand false
    (construct None (sampleConfiguration Both) sampleTheme [] (fun _ => true)) =
  (Returned None,
   construct None (sampleConfiguration Both) sampleTheme [] (fun _ => true)) /\
  registerCommandDecoration unmarkedCommand false s' = (Returned None, s') /\
  registerCommandDecoration markedCommand true s = (Returned None, s).
Proof.
  intros s s'.
  assert (Ht : _terminal s = true) by (vm_compute; reflexivity).
  assert (Hd : truthy_flag (_decorationsDisabled s) = false) by (vm_compute; reflexivity).
  split; [|split; [|split; [|split]]].
  - destruct (proj1 (C4_throws_iff_no_marker unmarkedCommand s) Ht Hd) as [H1 H2].
    split; [reflexivity|]. split; [apply H1 | apply H2]; reflexivity.
  - destruct (proj1 (C4_throws_iff_no_marker (sampleCommand "ls" 1 (Some 0%Z) false) s)
                Ht Hd) as [H1 _].
    split; [discriminate|].
    apply Bool.not_true_is_false. intros E. apply H1 in E. discriminate.
  - apply (proj2 (C4_throws_iff_no_marker unmarkedCommand
                    (construct None (sampleConfiguration Both) sampleTheme []
                       (fun _ => true)))).
    left. vm_compute. reflexivity.
  - apply (proj2 (C4_throws_iff_no_marker unmarkedCommand s')).
    right. left. vm_compute. reflexivity.
  - apply (proj2 (C4_throws_iff_no_marker markedCommand s)).
    right. right. split; [reflexivity | discriminate].
Defined.

(** C10: a call of [registerCommandDecoration] that passes the guards, for
    a command with a marker, disposes the placeholder it finds, whether it
    registers a placeholder or a final decoration and whether or not the host
    creates the new decoration; afterwards the placeholder reference is none
    unless this very call created a placeholder, which is then a new
    decoration of the host, not disposed. *)
Theorem C10_register_clears_placeholder (c : TerminalCommand) (before : bool)
    (m : Marker) (s : Addon) :
  guarded s c before = false -> marker c = Some m ->
  let r := fst (registerCommandDecoration c before s) in
  let s' := snd (registerCommandDecoration c before s) in
  (forall p dec, _placeholderDecoration s = Some p -> hostDecorations s !! p = Some dec ->
     exists dec', hostDecorations s' !! p = Some dec' /\ isDisposed dec' = true) /\
  (registerDecorationAnswers s (registerDecorationCalls s) = false ->
     r = Returned None /\ _placeholderDecoration s' = None) /\
  (registerDecorationAnswers s (registerDecorationCalls s) = true ->
     exists dec,
       r = Returned (Some (length (hostDecorations s))) /\
       hostDecorations s' !! length (hostDecorations s) = Some dec /\
       isDisposed dec = false /\ beforeCommandExecution dec = before /\
       _placeholderDecoration s' =
         (if before then Some (length (hostDecorations s)) else None)).
Proof.
  intros Hg Hm r s'. subst r s'.
  rewrite (registerCommandDecoration_registered c before m s Hg Hm).
  unfold registered. rewrite cleared_answers, cleared_calls, cleared_length.
  destruct (registerDecorationAnswers s (registerDecorationCalls s)) eqn:Hans.
  - split; [|split; [discriminate|]].
    + intros p dec Hp Hdec. exists (dec_set_isDisposed true dec). split; [|reflexivity].
      pose proof (cleared_placeholder_disposed s p dec Hp Hdec) as Hc.
      destruct before; simpl; now apply lookup_app_l_Some.
    + intros _. eexists. split; [reflexivity|].
      split; [|split; [|split]].
      * destruct before; simpl; rewrite <- (cleared_length s); apply list_lookup_middle;
          reflexivity.
      * reflexivity.
      * reflexivity.
      * destruct before; reflexivity.
  - split; [|split; [|discriminate]].
    + intros p dec Hp Hdec. exists (dec_set_isDisposed true dec). split; [|reflexivity].
      simpl. now apply cleared_placeholder_disposed.
    + intros _. split; reflexivity.
Qed.

(** ** Rules for [keeps] and [hoare] *)

Lemma keeps_ret {A} (I : Addon -> Prop) (a : A) : keeps I (ret a).
Proof. intros s H. exact H. Qed.

Lemma keeps_throw {A} (I : Addon -> Prop) (e : string) : keeps I (@throw A e).
Proof. intros s H. exact H. Qed.

Lemma keeps_get (I : Addon -> Prop) : keeps I get.
Proof. intros s H. exact H. Qed.

Lemma keeps_modify (I : Addon -> Prop) (f : Addon -> Addon) :
  (forall s, I s -> I (f s)) -> keeps I (modify f).
Proof. intros Hf s H. now apply Hf. Qed.

Lemma keeps_bind {A B} (I : Addon -> Prop) (m : M A) (k : A -> M B) :
  keeps I m -> (forall a, keeps I (k a)) -> keeps I (bind m k).
Proof.
  intros Hm Hk s H. unfold bind. specialize (Hm s H).
  destruct (m s) as [[a|e] s']; simpl in *; [now apply Hk | assumption].
Qed.

Lemma keeps_forEach {A} (I : Addon -> Prop) (l : list A) (body : A -> M unit) :
  (forall x, keeps I (body x)) -> keeps I (forEach l body).
Proof.
  intros Hb. induction l as [|x l IH]; simpl; [apply keeps_ret|].
  apply keeps_bind; [apply Hb | intros _; exact IH].
Qed.

Lemma keeps_deliver (I : Addon -> Prop) (m : M unit) : keeps I m -> keeps I (deliver m).
Proof. intros Hm s H. now apply Hm. Qed.

Lemma keeps_times (I : Addon -> Prop) (n : nat) (m : M unit) :
  keeps I m -> keeps I (times n m).
Proof.
  intros Hm. induction n as [|n IH]; simpl; [apply keeps_ret|].
  apply keeps_bind; [exact Hm | intros _; exact IH].
Qed.

Lemma keeps_ignore {A} (I : Addon -> Prop) (m : M A) : keeps I m -> keeps I (ignore m).
Proof. intros Hm. apply keeps_bind; [exact Hm | intros a; apply keeps_ret]. Qed.

Lemma keeps_and {A} (I J : Addon -> Prop) (m : M A) :
  keeps I m -> keeps J m -> keeps (fun a => I a /\ J a) m.
Proof. intros HI HJ s [H1 H2]. split; [now apply HI | now apply HJ]. Qed.

Lemma hoare_bind {A B} (P : Addon -> Prop) (m : M A) (Q : A -> Addon -> Prop)
    (k : A -> M B) (R : B -> Addon -> Prop) (E : Addon -> Prop) :
  hoare P m Q E -> (forall a, hoare (Q a) (k a) R E) -> hoare P (bind m k) R E.
Proof.
  intros Hm Hk s H. unfold bind. specialize (Hm s H).
  destruct (m s) as [[a|e] s']; [now apply Hk | assumption].
Qed.

Lemma hoare_keeps {A} (I : Addon -> Prop) (m : M A) :
  keeps I m -> hoare I m (fun _ => I) I.
Proof.
  intros Hm s H. specialize (Hm s H). now destruct (m s) as [[a|e] s'].
Qed.

Lemma hoare_forEach {A} (I : Addon -> Prop) (l : list A) (body : A -> M unit) :
  (forall x, keeps I (body x)) -> hoare I (forEach l body) (fun _ => I) I.
Proof. intros Hb. apply hoare_keeps. now apply keeps_forEach. Qed.

Create HintDb keeps.

Ltac keeps_step :=
  match goal with
  | |- keeps _ (bind _ _) => apply keeps_bind; [|intros ?]
  | |- keeps _ (ret _) => apply keeps_ret
  | |- keeps _ (throw _) => apply keeps_throw
  | |- keeps _ get => apply keeps_get
  | |- keeps _ (forEach _ _) => apply keeps_forEach; intros ?
  | |- keeps _ (deliver _) => apply keeps_deliver
  | |- keeps _ (times _ _) => apply keeps_times
  | |- keeps _ (ignore _) => apply keeps_ignore
  | |- keeps _ (dispose_optional ?o) => destruct o; unfold dispose_optional
  | |- keeps _ (rethrow ?o) => destruct o; unfold rethrow
  | |- keeps _ (let _ := _ in _) => cbv zeta
  | |- keeps _ (match ?x with _ => _ end) => destruct x
  end.

(** ** What every event keeps

    An invariant that the listed methods and assignments keep is kept by
    every method of the addon and by every event. *)
Section Events.

Variable I : Addon -> Prop.

Hypothesis keeps_dispose : forall d, keeps I (decoration_dispose d).
Hypothesis keeps_register : forall c before, keeps I (registerCommandDecoration c before).
Hypothesis keeps_clearPlaceholder : keeps I _clearPlaceholder.
Hypothesis keeps_render : forall d fresh, keeps I (host_render d fresh).
Hypothesis keeps_addListeners : keeps I _addCommandDetectionListeners.
Hypothesis keeps_removeListener : keeps I onDidRemoveCapability_listener.
Hypothesis keeps_disposeListeners : forall l, keeps I (dispose_listeners l).
Hypothesis keeps_cosmetic : forall d f, cosmetic f -> keeps I (alter_decoration d f).
Hypothesis keeps_ambient : forall f, ambient f -> keeps I (modify f).
Hypothesis keeps_clearEntries : keeps I clearEntries.

Local Hint Resolve keeps_dispose keeps_register keeps_clearPlaceholder keeps_render
  keeps_addListeners keeps_removeListener keeps_disposeListeners : keeps.

Ltac ambient_modify :=
  apply keeps_ambient; intros ?; repeat split; reflexivity.

Ltac cosmetic_alter :=
  apply keeps_cosmetic; intros ?; repeat split; reflexivity.

Ltac keeps_auto :=
  repeat first [ keeps_step | solve [auto with keeps] | ambient_modify | cosmetic_alter ].

Lemma keeps_updateGutter visible : keeps I (_updateGutterDecorationVisibility visible).
Proof. unfold _updateGutterDecorationVisibility. ambient_modify. Qed.

Lemma keeps_attach : keeps I _attachToCommandCapability.
Proof. unfold _attachToCommandCapability. keeps_auto. Qed.

Local Hint Resolve keeps_updateGutter keeps_attach : keeps.

Lemma keeps_dispose_entries keys : keeps I (dispose_entries keys).
Proof. unfold dispose_entries. keeps_auto. Qed.

Lemma keeps_marker_dispose id : keeps I (marker_dispose id).
Proof. unfold marker_dispose. keeps_auto. Qed.

Local Hint Resolve keeps_dispose_entries keeps_marker_dispose : keeps.

Lemma keeps_updateDecorationVisibility : keeps I _updateDecorationVisibility.
Proof. unfold _updateDecorationVisibility. keeps_auto. Qed.

Lemma keeps_update_element d f : keeps I (update_element d f).
Proof. unfold update_element. cosmetic_alter. Qed.

Lemma keeps_updateClasses_of d code gmp : keeps I (updateClasses_of d code gmp).
Proof. unfold updateClasses_of. keeps_auto. Qed.

Local Hint Resolve keeps_updateDecorationVisibility keeps_update_element
  keeps_updateClasses_of : keeps.

Lemma keeps_refreshLayouts : keeps I refreshLayouts.
Proof. unfold refreshLayouts. keeps_auto. Qed.

Lemma keeps_refreshStyles b : keeps I (_refreshStyles b).
Proof. unfold _refreshStyles, refreshOverviewRulerColor. keeps_auto. Qed.

Lemma keeps_clearDecorations : keeps I clearDecorations.
Proof.
  unfold clearDecorations.
  apply keeps_bind; [apply keeps_get | intros s].
  apply keeps_bind; [keeps_auto | intros _].
  apply keeps_bind; [exact keeps_clearPlaceholder | intros _].
  exact keeps_clearEntries.
Qed.

Local Hint Resolve keeps_refreshLayouts keeps_refreshStyles keeps_clearDecorations : keeps.

Lemma keeps_onDidChangeConfiguration e : keeps I (onDidChangeConfiguration_listener e).
Proof. unfold onDidChangeConfiguration_listener. keeps_auto. Qed.

Lemma keeps_onCommandInvalidated cs : keeps I (onCommandInvalidated_listener cs).
Proof. unfold onCommandInvalidated_listener. keeps_auto. Qed.

Lemma keeps_onCurrentCommandInvalidated reason :
  keeps I (onCurrentCommandInvalidated_listener reason).
Proof. unfold onCurrentCommandInvalidated_listener. keeps_auto. Qed.

Local Hint Resolve keeps_onDidChangeConfiguration keeps_onCommandInvalidated
  keeps_onCurrentCommandInvalidated : keeps.

Lemma keeps_handle ev : keeps I (handle ev).
Proof.
  destruct ev; unfold handle, activate, _dispose, fire,
    onCommandStarted_listener, onCommandFinished_listener; keeps_auto.
  apply keeps_ambient. intros a. destruct (capabilities a); repeat split; reflexivity.
Qed.

Lemma keeps_run evs a : I a -> I (run evs a).
Proof.
  revert a. induction evs as [|ev evs IH]; intros a H; simpl; [exact H|].
  apply IH. unfold step. now apply keeps_handle.
Qed.

Lemma keeps_construct cap cfg th conts answers :
  I (blank cap cfg th conts answers) -> I (construct cap cfg th conts answers).
Proof. intros H. unfold construct. now apply keeps_updateDecorationVisibility. Qed.

End Events.

(** ** I2 is kept *)

Lemma I2_ext (a a' : Addon) :
  hostDecorations a' = hostDecorations a ->
  _placeholderDecoration a' = _placeholderDecoration a ->
  I2 a -> I2 a'.
Proof. unfold I2. intros -> ->. auto. Qed.

Lemma I2_alter (a : Addon) (d : nat) (f : IDecoration -> IDecoration) :
  (forall x, isDisposed (f x) = false -> isDisposed x = false) ->
  (forall x, beforeCommandExecution (f x) = beforeCommandExecution x) ->
  I2 a -> I2 (set_hostDecorations (alter f d (hostDecorations a)) a).
Proof.
  intros Hdis Hbef H d' dec'. simpl. intros Hl Hb Hd.
  destruct (decide (d = d')) as [<- | Hne].
  - rewrite list_lookup_alter_eq in Hl.
    destruct (hostDecorations a !! d) as [dec|] eqn:E; [|discriminate].
    simpl in Hl. injection Hl as <-.
    apply (H d dec E); [now rewrite <- Hbef | now apply Hdis].
  - rewrite list_lookup_alter_ne in Hl by assumption. now apply (H d' dec').
Qed.

Lemma I2_disposed (d : nat) (a : Addon) : I2 a -> I2 (disposed d a).
Proof.
  intros H. unfold disposed.
  eapply I2_ext; [| | apply (I2_alter a d (dec_set_isDisposed true)); try exact H].
  - reflexivity.
  - reflexivity.
  - intros x. simpl. discriminate.
  - reflexivity.
Qed.

Lemma I2_cleared (a : Addon) : I2 a -> no_live_placeholder (cleared a).
Proof.
  intros H d dec Hl Hb Hd. rewrite cleared_hostDecorations in Hl.
  destruct (_placeholderDecoration a) as [p|] eqn:Hp.
  - destruct (decide (p = d)) as [<- | Hne].
    + rewrite list_lookup_alter_eq in Hl.
      destruct (hostDecorations a !! p); [|discriminate].
      simpl in Hl. injection Hl as <-. discriminate.
    + rewrite list_lookup_alter_ne in Hl by assumption.
      specialize (H d dec Hl Hb Hd). congruence.
  - specialize (H d dec Hl Hb Hd). congruence.
Qed.

Lemma no_live_placeholder_I2 (a : Addon) : no_live_placeholder a -> I2 a.
Proof. intros H d dec Hl Hb Hd. destruct (H d dec Hl Hb Hd). Qed.

Lemma keeps_I2_dispose (d : nat) : keeps I2 (decoration_dispose d).
Proof. intros s H. rewrite decoration_dispose_closed. now apply I2_disposed. Qed.

Lemma keeps_I2_clearPlaceholder : keeps I2 _clearPlaceholder.
Proof.
  intros s H. rewrite _clearPlaceholder_closed. simpl.
  now apply no_live_placeholder_I2, I2_cleared.
Qed.

Lemma I2_registered (c : TerminalCommand) (before : bool) (m : Marker) (s : Addon) :
  I2 s -> I2 (snd (registered c before m s)).
Proof.
  intros H. pose proof (I2_cleared s H) as Hc. unfold registered.
  destruct (registerDecorationAnswers _ _).
  - intros d dec Hl Hb Hd.
    assert (Hl' : (hostDecorations (cleared s) ++
                   [newDecoration m (rulerOptions (cleared s) c before) c before]) !! d
                  = Some dec) by (destruct before; exact Hl).
    clear Hl. apply lookup_snoc_Some in Hl'. destruct Hl' as [[Hlt Hl] | [-> <-]].
    + destruct (Hc d dec Hl Hb Hd).
    + simpl in Hb. subst before. reflexivity.
  - apply no_live_placeholder_I2. intros d dec Hl. exact (Hc d dec Hl).
Qed.

Lemma keeps_I2_register (c : TerminalCommand) (before : bool) :
  keeps I2 (registerCommandDecoration c before).
Proof.
  intros s H. destruct (guarded s c before) eqn:Hg.
  - now rewrite registerCommandDecoration_guarded.
  - destruct (marker c) as [m|] eqn:Hm.
    + rewrite (registerCommandDecoration_registered c before m s Hg Hm).
      now apply I2_registered.
    + now rewrite registerCommandDecoration_no_marker.
Qed.

Lemma dispose_listeners_closed (l : list nat) (s : Addon) :
  dispose_listeners l s =
  (Returned tt, set_subscriptions (deactivated l (subscriptions s)) s).
Proof.
  unfold dispose_listeners, modify. f_equal.
  revert s. induction l as [|i l IH]; intros s; simpl.
  - unfold set_subscriptions, deactivated. simpl. now rewrite addon_eta.
  - rewrite IH. reflexivity.
Qed.

Ltac frame_by ext :=
  let s := fresh "s" in
  let H := fresh "H" in
  intros s H; simpl; eapply ext; [ .. | exact H ]; reflexivity.

Lemma keeps_I2_alter (d : nat) (f : IDecoration -> IDecoration) :
  (forall x, isDisposed (f x) = false -> isDisposed x = false) ->
  (forall x, beforeCommandExecution (f x) = beforeCommandExecution x) ->
  keeps I2 (alter_decoration d f).
Proof. intros H1 H2 s H. simpl. now apply I2_alter. Qed.

Lemma keeps_I2_cosmetic (d : nat) (f : IDecoration -> IDecoration) :
  cosmetic f -> keeps I2 (alter_decoration d f).
Proof.
  intros Hf. apply keeps_I2_alter; intros x; destruct (Hf x) as (_ & H1 & _ & H2);
    congruence.
Qed.

Lemma keeps_I2_ambient (f : Addon -> Addon) : ambient f -> keeps I2 (modify f).
Proof.
  intros Hf s H. simpl. destruct (Hf s) as (H1 & _ & H2 & _).
  now apply (I2_ext s).
Qed.

Lemma keeps_I2_disposeListeners (l : list nat) : keeps I2 (dispose_listeners l).
Proof. intros s H. rewrite dispose_listeners_closed. revert H. now apply I2_ext. Qed.

Lemma keeps_I2_push (ev : CommandEvent) (cap : Capability) : keeps I2 (push_listener ev cap).
Proof. unfold push_listener. repeat keeps_step. frame_by I2_ext. Qed.

Lemma keeps_I2_render (d : nat) (fresh : HTMLElement) : keeps I2 (host_render d fresh).
Proof.
  unfold host_render, onRender_listener.
  repeat first [ keeps_step
               | apply keeps_I2_alter; intros x; simpl; congruence
               | frame_by I2_ext ].
Qed.

Lemma keeps_I2_addListeners : keeps I2 _addCommandDetectionListeners.
Proof.
  unfold _addCommandDetectionListeners.
  repeat first [ keeps_step
               | apply keeps_I2_disposeListeners | apply keeps_I2_register
               | apply keeps_I2_push | frame_by I2_ext ].
Qed.

Lemma keeps_I2_removeListener : keeps I2 onDidRemoveCapability_listener.
Proof.
  unfold onDidRemoveCapability_listener.
  repeat first [ keeps_step | apply keeps_I2_disposeListeners | frame_by I2_ext ].
Qed.

Lemma keeps_I2_clearEntries : keeps I2 clearEntries.
Proof.
  unfold clearEntries, dispose_entries.
  repeat first [ keeps_step | apply keeps_I2_dispose | frame_by I2_ext ].
Qed.

Lemma I2_blank cap cfg th conts answers : I2 (blank cap cfg th conts answers).
Proof. intros d dec Hl. simpl in Hl. now rewrite lookup_nil in Hl. Qed.

Ltac I2_units :=
  auto using keeps_I2_dispose, keeps_I2_register, keeps_I2_clearPlaceholder,
    keeps_I2_render, keeps_I2_addListeners, keeps_I2_removeListener,
    keeps_I2_disposeListeners, keeps_I2_cosmetic, keeps_I2_ambient, keeps_I2_clearEntries.

(** I2 holds whatever has happened to the addon since its construction. *)
Lemma I2_always cap cfg th conts answers (evs : list Event) :
  I2 (run evs (construct cap cfg th conts answers)).
Proof.
  apply keeps_run; [I2_units .. |].
  apply keeps_construct; [I2_units .. |].
  apply I2_blank.
Qed.

Lemma NoDup_all_equal {A} (l : list A) (p : A) :
  List.NoDup l -> (forall x, In x l -> x = p) -> (length l <= 1)%nat.
Proof.
  intros Hnd Hall. destruct l as [|x [|y l]]; simpl; [lia | lia |].
  exfalso. inversion Hnd as [|? ? Hnotin _]; subst. apply Hnotin.
  rewrite (Hall x), (Hall y); simpl; auto.
Qed.

Lemma live_placeholders_In (a : Addon) (d : nat) :
  In d (live_placeholders a) <->
  exists dec, hostDecorations a !! d = Some dec /\
              beforeCommandExecution dec = true /\ isDisposed dec = false.
Proof.
  unfold live_placeholders. rewrite filter_In. split.
  - intros [_ H]. destruct (hostDecorations a !! d) as [dec|]; [|discriminate].
    exists dec. apply andb_true_iff in H. destruct H as [H1 H2].
    apply negb_true_iff in H2. auto.
  - intros (dec & Hl & Hb & Hd). split.
    + apply in_seq. apply lookup_lt_Some in Hl. lia.
    + rewrite Hl, Hb, Hd. reflexivity.
Qed.

Lemma I2_at_most_one (a : Addon) : I2 a -> (length (live_placeholders a) <= 1)%nat.
Proof.
  intros H. destruct (_placeholderDecoration a) as [p|] eqn:Hp.
  - apply (NoDup_all_equal _ p).
    + apply List.NoDup_filter, List.seq_NoDup.
    + intros d Hd. apply live_placeholders_In in Hd. destruct Hd as (dec & Hl & Hb & Hd).
      specialize (H d dec Hl Hb Hd). congruence.
  - destruct (live_placeholders a) as [|d l] eqn:E; simpl; [lia|].
    assert (Hd : In d (live_placeholders a)) by (rewrite E; now left).
    apply live_placeholders_In in Hd. destruct Hd as (dec & Hl & Hb & Hd).
    specialize (H d dec Hl Hb Hd). congruence.
Qed.

Lemma filter_none {A} (f : A -> bool) (l : list A) :
  (forall x, In x l -> f x = false) -> List.filter f l = [].
Proof.
  induction l as [|x l IH]; intros H; simpl; [reflexivity|].
  rewrite (H x) by now left. apply IH. intros y Hy. apply H. now right.
Qed.

Lemma live_placeholders_snoc (a a' : Addon) (dec : IDecoration) :
  hostDecorations a' = hostDecorations a ++ [dec] ->
  no_live_placeholder a ->
  live_placeholders a' =
  if beforeCommandExecution dec && negb (isDisposed dec)
  then [length (hostDecorations a)] else [].
Proof.
  intros Hh Hno. unfold live_placeholders. rewrite Hh, length_app. simpl.
  rewrite Nat.add_1_r, seq_S, List.filter_app. simpl.
  rewrite list_lookup_middle by reflexivity.
  rewrite filter_none; [reflexivity|].
  intros d Hd. apply in_seq in Hd.
  rewrite lookup_app_l by lia.
  destruct (hostDecorations a !! d) as [x|] eqn:E; [|reflexivity].
  destruct (beforeCommandExecution x) eqn:Hb; [|reflexivity].
  destruct (isDisposed x) eqn:Hx; [reflexivity|].
  destruct (Hno d x E Hb Hx).
Qed.

Lemma run_snoc (evs : list Event) (ev : Event) (a : Addon) :
  run (evs ++ [ev]) a = step (run evs a) ev.
Proof. unfold run. now rewrite fold_left_app. Qed.

(** C1 (I2): whatever has happened to the addon since its construction,
    "command started" events among it, at most one placeholder decoration is
    not disposed; and a call of [registerCommandDecoration] with the
    placeholder flag that creates a placeholder leaves the new one as the
    single live placeholder: every earlier placeholder is disposed, and the
    placeholder reference is the new decoration. *)
Theorem C1_at_most_one_placeholder cap cfg th conts answers (evs : list Event)
    (c : TerminalCommand) :
  let a := run evs (construct cap cfg th conts answers) in
  let a' := snd (registerCommandDecoration c true a) in
  (length (live_placeholders a) <= 1)%nat /\
  (length (live_placeholders (step a (CommandStarted c))) <= 1)%nat /\
  (forall d, fst (registerCommandDecoration c true a) = Returned (Some d) ->
     live_placeholders a' = [d] /\
     _placeholderDecoration a' = Some d /\
     (forall p dec, hostDecorations a !! p = Some dec ->
        beforeCommandExecution dec = true ->
        exists dec', hostDecorations a' !! p = Some dec' /\ isDisposed dec' = true)).
Proof.
  intros a a'.
  assert (HI : I2 a) by apply I2_always.
  split; [now apply I2_at_most_one|].
  split.
  { apply I2_at_most_one.
    subst a. rewrite <- run_snoc. apply I2_always. }
  intros d Hr. subst a'.
  destruct (guarded a c true) eqn:Hg.
  { rewrite registerCommandDecoration_guarded in Hr by assumption. discriminate. }
  destruct (marker c) as [m|] eqn:Hm.
  2:{ rewrite registerCommandDecoration_no_marker in Hr by assumption. discriminate. }
  rewrite (registerCommandDecoration_registered c true m a Hg Hm) in Hr |- *.
  pose proof (I2_cleared a HI) as Hno.
  unfold registered in *.
  destruct (registerDecorationAnswers _ _); [|discriminate].
  simpl in Hr. injection Hr as <-. simpl.
  split; [|split].
  - erewrite live_placeholders_snoc; [| reflexivity | exact Hno]. reflexivity.
  - reflexivity.
  - intros p dec Hl Hb.
    assert (Hlt : (p < length (hostDecorations (cleared a)))%nat)
      by (rewrite cleared_length; now apply lookup_lt_Some in Hl).
    destruct (hostDecorations (cleared a) !! p) as [dec'|] eqn:E.
    2:{ apply lookup_ge_None in E. lia. }
    exists dec'. split; [now apply lookup_app_l_Some|].
    destruct (isDisposed dec') eqn:Hd; [reflexivity|]. exfalso.
    apply (Hno p dec' E); [|exact Hd].
    rewrite cleared_hostDecorations in E.
    destruct (_placeholderDecoration a) as [q|].
    + destruct (decide (q = p)) as [-> | Hne].
      * rewrite list_lookup_alter_eq, Hl in E. simpl in E. injection E as <-. exact Hb.
      * rewrite list_lookup_alter_ne in E by assumption. congruence.
    + congruence.
Qed.

(** ** The capability listeners *)

Lemma bound_ext (a a' : Addon) :
  _commandDetectionListeners a' = _commandDetectionListeners a ->
  subscriptions a' = subscriptions a ->
  bound a -> bound a'.
Proof. unfold bound. intros -> ->. auto. Qed.

Lemma binding_ext (evs : list CommandEvent) (a a' : Addon) :
  _commandDetectionListeners a' = _commandDetectionListeners a ->
  subscriptions a' = subscriptions a ->
  binding evs a -> binding evs a'.
Proof. unfold binding. intros -> ->. auto. Qed.

Lemma deactivated_length (l : list nat) (subs : list Subscription) :
  length (deactivated l subs) = length subs.
Proof.
  revert subs. induction l as [|i l IH]; intros subs; simpl; [reflexivity|].
  unfold deactivated in *. simpl. now rewrite IH, length_alter.
Qed.

Lemma deactivated_lookup (l : list nat) (subs : list Subscription) (i : nat)
    (sub' : Subscription) :
  deactivated l subs !! i = Some sub' ->
  exists sub, subs !! i = Some sub /\ subEvent sub' = subEvent sub /\
              (subActive sub' = true -> subActive sub = true /\ ~ In i l).
Proof.
  revert subs. induction l as [|j l IH]; intros subs H.
  - exists sub'. simpl in H. repeat split; auto.
  - unfold deactivated in H. simpl in H. apply IH in H.
    destruct H as (sub1 & Hl & He & Ha).
    destruct (decide (j = i)) as [-> | Hne].
    + rewrite list_lookup_alter_eq in Hl.
      destruct (subs !! i) as [sub|]; [|discriminate]. simpl in Hl. injection Hl as <-.
      exists sub. split; [reflexivity|]. split; [exact He|].
      intros Hact. destruct (Ha Hact) as [Hf _]. discriminate.
    + rewrite list_lookup_alter_ne in Hl by assumption.
      exists sub1. split; [exact Hl|]. split; [exact He|].
      intros Hact. destruct (Ha Hact) as [H1 H2]. split; [exact H1|].
      intros [-> | Hin]; [now apply Hne | now apply H2].
Qed.

Lemma deactivated_lookup_event (l : list nat) (subs : list Subscription) (i : nat)
    (sub : Subscription) :
  subs !! i = Some sub ->
  exists sub', deactivated l subs !! i = Some sub' /\ subEvent sub' = subEvent sub /\
               (In i l -> subActive sub' = false).
Proof.
  intros H.
  destruct (deactivated l subs !! i) as [sub'|] eqn:E.
  - exists sub'. split; [reflexivity|].
    destruct (deactivated_lookup l subs i sub' E) as (sub0 & Hl & He & Ha).
    assert (sub0 = sub) as -> by congruence. split; [exact He|].
    intros Hin. destruct (subActive sub') eqn:Hact; [|reflexivity].
    destruct (Ha eq_refl) as [_ Hn]. contradiction.
  - apply lookup_ge_None in E. rewrite deactivated_length in E.
    apply lookup_lt_Some in H. lia.
Qed.

Lemma bound_deactivated (l : list nat) (a : Addon) :
  bound a -> bound (set_subscriptions (deactivated l (subscriptions a)) a).
Proof.
  intros [H1 H2]. split; simpl.
  - intros i sub' Hl Hact.
    destruct (deactivated_lookup l _ i sub' Hl) as (sub & Hs & _ & Ha).
    destruct (Ha Hact) as [Hact' _]. exact (H1 i sub Hs Hact').
  - intros l0 i j si sj Hl0 Hi Hj Hsi Hsj He.
    destruct (deactivated_lookup l _ i si Hsi) as (si0 & Hsi0 & Hei & _).
    destruct (deactivated_lookup l _ j sj Hsj) as (sj0 & Hsj0 & Hej & _).
    apply (H2 l0 i j si0 sj0); auto. congruence.
Qed.

(** After [dispose(this._commandDetectionListeners)] no listener is live. *)
Lemma bound_deactivated_all (l : list nat) (a : Addon) :
  bound a -> _commandDetectionListeners a = Some l ->
  forall i sub, deactivated l (subscriptions a) !! i = Some sub -> subActive sub = false.
Proof.
  intros [H1 _] Hl i sub' Hs. destruct (subActive sub') eqn:Hact; [|reflexivity].
  destruct (deactivated_lookup l _ i sub' Hs) as (sub & Hsub & _ & Ha).
  destruct (Ha Hact) as [Hact' Hnin].
  destruct (H1 i sub Hsub Hact') as (l0 & Hl0 & Hin). congruence.
Qed.

Lemma keeps_bound_disposeListeners (l : list nat) : keeps bound (dispose_listeners l).
Proof. intros s H. rewrite dispose_listeners_closed. now apply bound_deactivated. Qed.

Lemma keeps_bound_removeListener : keeps bound onDidRemoveCapability_listener.
Proof.
  intros s H. unfold onDidRemoveCapability_listener, bind, get.
  destruct (_commandDetectionListeners s) as [l|] eqn:Hl; [|exact H].
  rewrite dispose_listeners_closed. simpl. split; simpl.
  - intros i sub Hs Hact. rewrite (bound_deactivated_all l s H Hl i sub Hs) in Hact.
    discriminate.
  - intros l0 i j si sj Hl0. discriminate.
Qed.

Lemma NoDup_map_lookup {A B} (f : A -> B) (l : list A) (i j : nat) (x y : A) :
  List.NoDup (List.map f l) -> l !! i = Some x -> l !! j = Some y -> f x = f y -> i = j.
Proof.
  intros Hnd Hi Hj Hf. apply NoDup_ListNoDup in Hnd.
  apply (NoDup_lookup (List.map f l) i j (f x) Hnd).
  - change (List.map f l) with (f <$> l). now rewrite list_lookup_fmap, Hi.
  - change (List.map f l) with (f <$> l). rewrite list_lookup_fmap, Hj. simpl. congruence.
Qed.

Lemma binding_bound (evs : list CommandEvent) (a : Addon) :
  List.NoDup evs -> binding evs a -> bound a.
Proof.
  intros Hnd (old & new & Hs & Hold & Hl & Hev). split.
  - intros i sub Hi Hact. exists (seq (length old) (length new)). split; [exact Hl|].
    rewrite Hs in Hi. apply in_seq.
    destruct (decide (i < length old)%nat) as [Hlt | Hge].
    + rewrite lookup_app_l in Hi by assumption.
      rewrite Forall_forall in Hold.
      assert (sub ∈ old) as Hin by (apply list_elem_of_lookup; eauto).
      rewrite (Hold sub Hin) in Hact. discriminate.
    + apply lookup_lt_Some in Hi. rewrite length_app in Hi. lia.
  - intros l0 i j si sj Hl0 Hi Hj Hsi Hsj He.
    rewrite Hl in Hl0. injection Hl0 as <-.
    apply in_seq in Hi, Hj. rewrite Hs in Hsi, Hsj.
    rewrite lookup_app_r in Hsi, Hsj by lia.
    rewrite <- Hev in Hnd.
    pose proof (NoDup_map_lookup subEvent new _ _ si sj Hnd Hsi Hsj He). lia.
Qed.

Lemma keeps_binding_register (evs : list CommandEvent) (c : TerminalCommand)
    (before : bool) :
  keeps (binding evs) (registerCommandDecoration c before).
Proof.
  intros s H. destruct (guarded s c before) eqn:Hg.
  - now rewrite registerCommandDecoration_guarded.
  - destruct (marker c) as [m|] eqn:Hm.
    + rewrite (registerCommandDecoration_registered c before m s Hg Hm).
      unfold registered, cleared.
      destruct (registerDecorationAnswers _ _); destruct before;
        destruct (_placeholderDecoration s); simpl;
        revert H; apply binding_ext; reflexivity.
    + now rewrite registerCommandDecoration_no_marker.
Qed.

Lemma hoare_push (evs : list CommandEvent) (ev : CommandEvent) (cap : Capability)
    (E : Addon -> Prop) :
  hoare (binding evs) (push_listener ev cap) (fun _ => binding (evs ++ [ev])) E.
Proof.
  intros s (old & new & Hs & Hold & Hl & Hev).
  unfold push_listener, bind, get. rewrite Hl. simpl.
  exists old, (new ++ [{| subEvent := ev; subCapability := capabilityId cap;
                          subActive := true |}]).
  repeat split.
  - rewrite Hs. now rewrite app_assoc.
  - exact Hold.
  - rewrite Hs, !length_app. simpl. rewrite Nat.add_1_r, seq_S. reflexivity.
  - rewrite List.map_app, Hev. reflexivity.
Qed.

Lemma hoare_weaken {A} (P P' : Addon -> Prop) (m : M A) (Q Q' : A -> Addon -> Prop)
    (E E' : Addon -> Prop) :
  hoare P m Q E -> (forall s, P' s -> P s) -> (forall a s, Q a s -> Q' a s) ->
  (forall s, E s -> E' s) -> hoare P' m Q' E'.
Proof.
  intros H HP HQ HE s Hs. specialize (H s (HP s Hs)).
  destruct (m s) as [[a|e] s']; auto.
Qed.

Lemma hoare_to_keeps {A} (I : Addon -> Prop) (m : M A) :
  hoare I m (fun _ => I) I -> keeps I m.
Proof. intros H s Hs. specialize (H s Hs). now destruct (m s) as [[a|e] s']. Qed.

Lemma hoare_run {A} (P I : Addon -> Prop) (m : M A) (s : Addon) :
  hoare P m (fun _ => I) I -> P s -> I (snd (m s)).
Proof. intros H Hs. specialize (H s Hs). now destruct (m s) as [[a|e] s']. Qed.

Ltac distinct_events := repeat constructor; simpl; intuition discriminate.

Lemma hoare_binding_keeps {A} (evs : list CommandEvent) (m : M A) :
  List.NoDup evs -> keeps (binding evs) m ->
  hoare (binding evs) m (fun _ => binding evs) bound.
Proof.
  intros Hnd Hk. eapply hoare_weaken; [apply hoare_keeps, Hk | auto | auto |].
  intros s. now apply binding_bound.
Qed.

Lemma all_disposed_binding (a : Addon) :
  all_disposed a -> binding [] (set_commandDetectionListeners (Some []) a).
Proof.
  intros H. exists (subscriptions a), []. simpl. repeat split.
  - now rewrite app_nil_r.
  - apply Forall_forall. intros sub Hin. apply list_elem_of_lookup in Hin.
    destruct Hin as [i Hi]. exact (H i sub Hi).
Qed.

(** The tail of [_addCommandDetectionListeners], from a state where every
    older listener is disposed: whether it returns or a replayed command
    throws, the listeners are bound. *)
Lemma hoare_subscribe (capability : Capability) :
  hoare all_disposed
    (modify (set_commandDetectionListeners (Some [])) ;;
     (match executingCommandObject capability with
      | Some c =>
          if isSome (marker c) then ignore (registerCommandDecoration c true) else ret tt
      | None => ret tt
      end) ;;
     push_listener OnCommandStarted capability ;;
     forEach (commands capability)
       (fun c => ignore (registerCommandDecoration c false)) ;;
     push_listener OnCommandFinished capability ;;
     push_listener OnCommandInvalidated capability ;;
     push_listener OnCurrentCommandInvalidated capability)%addon
    (fun _ => binding [OnCommandStarted; OnCommandFinished; OnCommandInvalidated;
                       OnCurrentCommandInvalidated])
    bound.
Proof.
  eapply hoare_bind with (Q := fun _ => binding []).
  { intros s H. simpl. now apply all_disposed_binding. }
  intros _. eapply hoare_bind with (Q := fun _ => binding []).
  { apply hoare_binding_keeps; [distinct_events|].
    destruct (executingCommandObject capability) as [c|]; [|apply keeps_ret].
    destruct (isSome (marker c)); [|apply keeps_ret].
    apply keeps_ignore, keeps_binding_register. }
  intros _. eapply hoare_bind with (Q := fun _ => binding [OnCommandStarted]).
  { apply (hoare_push []). }
  intros _. eapply hoare_bind with (Q := fun _ => binding [OnCommandStarted]).
  { apply hoare_binding_keeps; [distinct_events|].
    apply keeps_forEach. intros c. apply keeps_ignore, keeps_binding_register. }
  intros _. eapply hoare_bind
    with (Q := fun _ => binding [OnCommandStarted; OnCommandFinished]).
  { apply (hoare_push [OnCommandStarted]). }
  intros _. eapply hoare_bind
    with (Q := fun _ => binding [OnCommandStarted; OnCommandFinished; OnCommandInvalidated]).
  { apply (hoare_push [OnCommandStarted; OnCommandFinished]). }
  intros _.
  apply (hoare_push [OnCommandStarted; OnCommandFinished; OnCommandInvalidated]).
Qed.

(** [_addCommandDetectionListeners] first disposes the listeners it holds:
    after that step none is live. *)
Lemma bound_disposed_first (s : Addon) :
  bound s ->
  let s1 := snd ((match _commandDetectionListeners s with
                  | Some l => dispose_listeners l
                  | None => ret tt
                  end) s) in
  all_disposed s1 /\ bound s1 /\
  fst ((match _commandDetectionListeners s with
        | Some l => dispose_listeners l
        | None => ret tt
        end) s) = Returned tt.
Proof.
  intros Hb. destruct (_commandDetectionListeners s) as [l|] eqn:Hl.
  - rewrite dispose_listeners_closed. simpl. split; [|split; [|reflexivity]].
    + intros i sub Hs. exact (bound_deactivated_all l s Hb Hl i sub Hs).
    + now apply bound_deactivated.
  - simpl. split; [|split; [exact Hb | reflexivity]].
    intros i sub Hs. destruct (subActive sub) eqn:Hact; [|reflexivity].
    destruct Hb as [H1 _]. destruct (H1 i sub Hs Hact) as (l & Hl' & _). congruence.
Qed.

Lemma hoare_bound_addListeners :
  hoare bound _addCommandDetectionListeners
    (fun _ a => bound a /\
       (capabilities a <> None ->
        binding [OnCommandStarted; OnCommandFinished; OnCommandInvalidated;
                 OnCurrentCommandInvalidated] a))
    bound.
Proof.
  intros s Hb. unfold _addCommandDetectionListeners.
  unfold bind at 1. unfold get at 1.
  destruct (bound_disposed_first s Hb) as (Hall & Hb1 & Hr).
  unfold bind at 1. rewrite (run_eta _ s), Hr.
  destruct (capabilities s) as [capability|] eqn:Hcap.
  - pose proof (hoare_subscribe capability _ Hall) as H.
    match type of H with
    | match ?m with _ => _ end =>
        match goal with |- match ?m' with _ => _ end => change m' with m end;
        destruct m as [[u|e] s']
    end.
    + split; [|intros _; exact H].
      revert H. apply binding_bound. distinct_events.
    + exact H.
  - simpl. split; [exact Hb1|].
    assert (Hc : capabilities (snd ((match _commandDetectionListeners s with
                  | Some l => dispose_listeners l
                  | None => ret tt
                  end) s)) = None).
    { destruct (_commandDetectionListeners s); [rewrite dispose_listeners_closed|];
        simpl; exact Hcap. }
    intros Hne. contradiction.
Qed.

Lemma keeps_bound_addListeners : keeps bound _addCommandDetectionListeners.
Proof.
  apply hoare_to_keeps. eapply hoare_weaken; [apply hoare_bound_addListeners | auto | | auto].
  intros _ s [H _]. exact H.
Qed.

Lemma keeps_bound_dispose (d : nat) : keeps bound (decoration_dispose d).
Proof. intros s H. rewrite decoration_dispose_closed. revert H. now apply bound_ext. Qed.

Lemma keeps_bound_clearPlaceholder : keeps bound _clearPlaceholder.
Proof.
  intros s H. rewrite _clearPlaceholder_closed. unfold cleared.
  destruct (_placeholderDecoration s); revert H; now apply bound_ext.
Qed.

Lemma keeps_bound_register (c : TerminalCommand) (before : bool) :
  keeps bound (registerCommandDecoration c before).
Proof.
  intros s H. destruct (guarded s c before) eqn:Hg.
  - now rewrite registerCommandDecoration_guarded.
  - destruct (marker c) as [m|] eqn:Hm.
    + rewrite (registerCommandDecoration_registered c before m s Hg Hm).
      unfold registered, cleared.
      destruct (registerDecorationAnswers _ _); destruct before;
        destruct (_placeholderDecoration s); simpl;
        revert H; apply bound_ext; reflexivity.
    + now rewrite registerCommandDecoration_no_marker.
Qed.

Lemma keeps_bound_alter (d : nat) (f : IDecoration -> IDecoration) :
  keeps bound (alter_decoration d f).
Proof. frame_by bound_ext. Qed.

Lemma keeps_bound_render (d : nat) (fresh : HTMLElement) : keeps bound (host_render d fresh).
Proof.
  unfold host_render, onRender_listener.
  repeat first [ keeps_step | apply keeps_bound_alter | frame_by bound_ext ].
Qed.

Lemma keeps_bound_ambient (f : Addon -> Addon) : ambient f -> keeps bound (modify f).
Proof.
  intros Hf s H. simpl. destruct (Hf s) as (_ & _ & _ & H1 & H2).
  now apply (bound_ext s).
Qed.

Lemma keeps_bound_clearEntries : keeps bound clearEntries.
Proof.
  unfold clearEntries, dispose_entries.
  repeat first [ keeps_step | apply keeps_bound_dispose | frame_by bound_ext ].
Qed.

Lemma bound_blank cap cfg th conts answers : bound (blank cap cfg th conts answers).
Proof.
  split; simpl.
  - intros i sub Hl. now rewrite lookup_nil in Hl.
  - discriminate.
Qed.

Ltac bound_units :=
  auto using keeps_bound_dispose, keeps_bound_register, keeps_bound_clearPlaceholder,
    keeps_bound_render, keeps_bound_addListeners, keeps_bound_removeListener,
    keeps_bound_disposeListeners, keeps_bound_alter, keeps_bound_ambient,
    keeps_bound_clearEntries.

(** The listeners are bound whatever has happened to the addon since its
    construction. *)
Lemma bound_always cap cfg th conts answers (evs : list Event) :
  bound (run evs (construct cap cfg th conts answers)).
Proof.
  apply keeps_run; [bound_units .. |].
  apply keeps_construct; [bound_units .. |].
  apply bound_blank.
Qed.

Lemma filter_at_most_one {A} (f : A -> bool) (l : list A) :
  (forall i j x y, l !! i = Some x -> l !! j = Some y ->
     f x = true -> f y = true -> i = j) ->
  (length (List.filter f l) <= 1)%nat.
Proof.
  induction l as [|x l IH]; intros H; simpl; [lia|].
  assert (IHl : (length (List.filter f l) <= 1)%nat).
  { apply IH. intros i j a b Hi Hj Ha Hb.
    assert (S i = S j) by (apply (H (S i) (S j) a b); assumption). lia. }
  destruct (f x) eqn:Hx; [|exact IHl].
  simpl. rewrite filter_none; [simpl; lia|].
  intros y Hy. destruct (f y) eqn:Hfy; [|reflexivity]. exfalso.
  apply list_elem_of_In, list_elem_of_lookup in Hy. destruct Hy as [j Hj].
  assert (O = S j) by (apply (H O (S j) x y); auto). discriminate.
Qed.

Lemma event_eqb_eq (x y : CommandEvent) : event_eqb x y = true -> x = y.
Proof. destruct x, y; simpl; congruence. Qed.

Lemma bound_at_most_one (ev : CommandEvent) (a : Addon) :
  bound a -> (length (active_for ev a) <= 1)%nat.
Proof.
  intros [H1 H2]. unfold active_for. apply filter_at_most_one.
  intros i j x y Hi Hj Hx Hy.
  apply andb_true_iff in Hx, Hy. destruct Hx as [Hax Hex], Hy as [Hay Hey].
  destruct (H1 i x Hi Hax) as (l & Hl & Hin).
  destruct (H1 j y Hj Hay) as (l' & Hl' & Hin').
  assert (l' = l) as -> by congruence.
  apply (H2 l i j x y); auto.
  apply event_eqb_eq in Hex, Hey. congruence.
Qed.

Lemma fired_active (ev : CommandEvent) (a : Addon) :
  (length (fired ev a) <= length (active_for ev a))%nat.
Proof.
  unfold fired, active_for. destruct (capabilities a) as [cap|]; [|simpl; lia].
  induction (subscriptions a) as [|sub subs IH]; simpl; [lia|].
  unfold listens at 1.
  destruct (subActive sub); simpl; [|exact IH].
  destruct (Nat.eqb (subCapability sub) (capabilityId cap)); simpl.
  - destruct (subEvent sub), ev; simpl; lia.
  - destruct (event_eqb (subEvent sub) ev); simpl; lia.
Qed.

Lemma old_disposed_ext (n : nat) (a a' : Addon) :
  subscriptions a' = subscriptions a -> old_disposed n a -> old_disposed n a'.
Proof. unfold old_disposed. intros ->. auto. Qed.

Lemma keeps_old_register (n : nat) (c : TerminalCommand) (before : bool) :
  keeps (old_disposed n) (registerCommandDecoration c before).
Proof.
  intros s H. destruct (guarded s c before) eqn:Hg.
  - now rewrite registerCommandDecoration_guarded.
  - destruct (marker c) as [m|] eqn:Hm.
    + rewrite (registerCommandDecoration_registered c before m s Hg Hm).
      unfold registered, cleared.
      destruct (registerDecorationAnswers _ _); destruct before;
        destruct (_placeholderDecoration s); simpl;
        revert H; apply old_disposed_ext; reflexivity.
    + now rewrite registerCommandDecoration_no_marker.
Qed.

Lemma keeps_old_push (n : nat) (ev : CommandEvent) (cap : Capability) :
  keeps (old_disposed n) (push_listener ev cap).
Proof.
  intros s [Hn H]. unfold push_listener, bind, get.
  destruct (_commandDetectionListeners s); [|split; assumption].
  unfold old_disposed. cbn [snd modify subscriptions set_commandDetectionListeners
                              set_subscriptions].
  split.
  - rewrite length_app. lia.
  - intros i sub Hi Hl. rewrite lookup_app_l in Hl by lia. exact (H i sub Hi Hl).
Qed.

(** [_addCommandDetectionListeners] disposes before it registers: the
    listeners that existed when it was called are disposed when it is done,
    whether it returns or throws. *)
Lemma addListeners_disposes_first (s : Addon) :
  bound s ->
  old_disposed (length (subscriptions s)) (snd (_addCommandDetectionListeners s)).
Proof.
  intros Hb. unfold _addCommandDetectionListeners.
  unfold bind at 1. unfold get at 1.
  destruct (bound_disposed_first s Hb) as (Hall & _ & Hr).
  unfold bind at 1. rewrite (run_eta _ s), Hr.
  assert (Hold : old_disposed (length (subscriptions s))
                   (snd ((match _commandDetectionListeners s with
                          | Some l => dispose_listeners l
                          | None => ret tt
                          end) s))).
  { split.
    - destruct (_commandDetectionListeners s); [rewrite dispose_listeners_closed|];
        simpl; [rewrite deactivated_length|]; lia.
    - intros i sub _ Hl. exact (Hall i sub Hl). }
  destruct (capabilities s) as [capability|]; [|exact Hold].
  revert Hold.
  match goal with |- _ -> ?I (snd (?m ?s1)) => change (I s1 -> I (snd (m s1))) end.
  match goal with |- ?I ?s1 -> ?I (snd (?m ?s1)) => generalize s1 end.
  match goal with |- forall s1, ?I s1 -> ?I (snd (?m s1)) => change (keeps I m) end.
  repeat first [ keeps_step | apply keeps_old_register | apply keeps_old_push
               | frame_by old_disposed_ext ].
Qed.

(** C2: whatever has happened to the addon since its construction
    (capabilities removed and added, the visibility mode changed, in any
    order), at most one live listener exists for each of the four events of
    the capability, so an event of the capability reaches at most one;
    [_addCommandDetectionListeners] disposes the listeners registered before
    it registers new ones, and the listener of [onDidRemoveCapability]
    leaves none live and clears the list. *)
Theorem C2_one_listener_per_event cap cfg th conts answers (evs : list Event)
    (ev : CommandEvent) :
  let a := run evs (construct cap cfg th conts answers) in
  (length (active_for ev a) <= 1)%nat /\
  (length (fired ev a) <= 1)%nat /\
  old_disposed (length (subscriptions a)) (snd (_addCommandDetectionListeners a)) /\
  all_disposed (snd (onDidRemoveCapability_listener a)) /\
  _commandDetectionListeners (snd (onDidRemoveCapability_listener a)) = None.
Proof.
  intros a. assert (Hb : bound a) by apply bound_always.
  pose proof (bound_at_most_one ev a Hb) as H1.
  pose proof (fired_active ev a) as H2.
  split; [exact H1|]. split; [lia|]. split; [now apply addListeners_disposes_first|].
  unfold onDidRemoveCapability_listener, bind, get.
  destruct (_commandDetectionListeners a) as [l|] eqn:Hl.
  - rewrite dispose_listeners_closed. simpl. split; [|reflexivity].
    intros i sub Hs. exact (bound_deactivated_all l a Hb Hl i sub Hs).
  - simpl. split; [|exact Hl].
    intros i sub Hs. destruct (subActive sub) eqn:Hact; [|reflexivity].
    destruct Hb as [Hb1 _]. destruct (Hb1 i sub Hs Hact) as (l & Hl' & _). congruence.
Qed.

(** ** The registry *)

Lemma map_get_None {V} (k : nat) (m : JsMap V) :
  map_get k m = None -> ~ In k (List.map fst m).
Proof.
  unfold map_get. induction m as [|[k' v] m IH]; simpl; [tauto|].
  destruct (Nat.eqb_spec k' k) as [-> | Hne]; [discriminate|].
  intros H [Heq | Hin]; [contradiction | now apply IH].
Qed.

Lemma map_get_In {V} (k : nat) (v : V) (m : JsMap V) :
  map_get k m = Some v -> In (k, v) m.
Proof.
  unfold map_get. induction m as [|[k' v'] m IH]; simpl; [discriminate|].
  destruct (Nat.eqb_spec k' k) as [-> | Hne].
  - intros H. injection H as ->. now left.
  - intros H. right. now apply IH.
Qed.

Lemma map_set_absent {V} (k : nat) (v : V) (m : JsMap V) :
  ~ In k (List.map fst m) -> map_set k v m = m ++ [(k, v)].
Proof.
  induction m as [|[k' v'] m IH]; simpl; [reflexivity|].
  intros H. destruct (Nat.eqb_spec k' k) as [-> | Hne]; [tauto|].
  f_equal. apply IH. tauto.
Qed.

Lemma In_map_delete {V} (k : nat) (m : JsMap V) (kv : nat * V) :
  In kv (map_delete k m) <-> In kv m /\ fst kv <> k.
Proof.
  unfold map_delete. rewrite filter_In. split; intros [H1 H2]; split; auto.
  - apply negb_true_iff in H2. now apply Nat.eqb_neq.
  - apply negb_true_iff. now apply Nat.eqb_neq.
Qed.

Lemma In_delete_keys (keys : list nat) (m : JsMap IDisposableDecoration)
    (kv : nat * IDisposableDecoration) :
  In kv (delete_keys keys m) <-> In kv m /\ ~ In (fst kv) keys.
Proof.
  revert m. induction keys as [|k keys IH]; intros m; simpl; [tauto|].
  unfold delete_keys in *. simpl. rewrite IH, In_map_delete. intuition congruence.
Qed.

Lemma NoDup_map_filter {A B} (f : A -> B) (p : A -> bool) (l : list A) :
  List.NoDup (List.map f l) -> List.NoDup (List.map f (List.filter p l)).
Proof.
  induction l as [|x l IH]; simpl; intros H; [constructor|].
  inversion H as [|? ? Hnotin Hnd]; subst.
  destruct (p x); simpl; [|now apply IH].
  constructor; [|now apply IH].
  intros Hin. apply Hnotin. apply in_map_iff in Hin. destruct Hin as (y & Hy & Hin).
  apply filter_In in Hin. apply in_map_iff. exists y. tauto.
Qed.

Lemma NoDup_delete_keys (keys : list nat) (m : JsMap IDisposableDecoration) :
  List.NoDup (List.map fst m) -> List.NoDup (List.map fst (delete_keys keys m)).
Proof.
  revert m. induction keys as [|k keys IH]; intros m H; simpl; [exact H|].
  unfold delete_keys in *. simpl. apply IH. now apply NoDup_map_filter.
Qed.

Lemma tracked_ext (a a' : Addon) :
  hostDecorations a' = hostDecorations a -> _decorations a' = _decorations a ->
  tracked a -> tracked a'.
Proof. unfold tracked. intros -> ->. auto. Qed.

Lemma NoDup_keys_unique {V} (m : JsMap V) (k : nat) (v1 v2 : V) :
  List.NoDup (List.map fst m) -> In (k, v1) m -> In (k, v2) m -> v1 = v2.
Proof.
  induction m as [|[k' v'] m IH]; simpl; intros Hnd H1 H2; [contradiction|].
  inversion Hnd as [|? ? Hnotin Hnd']; subst.
  destruct H1 as [H1 | H1], H2 as [H2 | H2].
  - congruence.
  - injection H1 as -> ->. exfalso. apply Hnotin.
    apply in_map_iff. now exists (k, v2).
  - injection H2 as -> ->. exfalso. apply Hnotin.
    apply in_map_iff. now exists (k, v1).
  - now apply IH.
Qed.

(** A cosmetic change of one decoration keeps the registry well formed. *)
Lemma tracked_cosmetic (a : Addon) (d : nat) (f : IDecoration -> IDecoration) :
  cosmetic f -> tracked a -> tracked (set_hostDecorations (alter f d (hostDecorations a)) a).
Proof.
  intros Hf (H1 & H2 & H3 & H4). split; [exact H1|]. split; [|split]; simpl.
  - intros k e Hin. destruct (H2 k e Hin) as (dec & Hl & Hlive & Hmk & Hk).
    destruct (decide (d = decoration e)) as [-> | Hne].
    + exists (f dec). rewrite list_lookup_alter_eq, Hl. simpl.
      destruct (Hf dec) as (-> & -> & -> & _). auto.
    + exists dec. rewrite list_lookup_alter_ne by assumption. auto.
  - intros d' dec' k Hl Hk.
    destruct (decide (d = d')) as [<- | Hne].
    + rewrite list_lookup_alter_eq in Hl.
      destruct (hostDecorations a !! d) as [dec|] eqn:E; [|discriminate].
      simpl in Hl. injection Hl as <-.
      destruct (Hf dec) as (Hm & _ & Hon & _). rewrite Hm. rewrite Hon in Hk.
      exact (H3 d dec k E Hk).
    + rewrite list_lookup_alter_ne in Hl by assumption. exact (H3 d' dec' k Hl Hk).
  - intros d' dec' k Hl Hlive Hk.
    destruct (decide (d = d')) as [<- | Hne].
    + rewrite list_lookup_alter_eq in Hl.
      destruct (hostDecorations a !! d) as [dec|] eqn:E; [|discriminate].
      simpl in Hl. injection Hl as <-.
      destruct (Hf dec) as (_ & Hd & Hon & _). rewrite Hd in Hlive. rewrite Hon in Hk.
      exact (H4 d dec k E Hlive Hk).
    + rewrite list_lookup_alter_ne in Hl by assumption. exact (H4 d' dec' k Hl Hlive Hk).
Qed.

Lemma tracked_disposed (d : nat) (a : Addon) : tracked a -> tracked (disposed d a).
Proof.
  intros (H1 & H2 & H3 & H4). unfold disposed. split; [|split; [|split]]; simpl.
  - now apply NoDup_delete_keys.
  - intros k e Hin. apply In_delete_keys in Hin. destruct Hin as [Hin Hnk]. simpl in Hnk.
    destruct (H2 k e Hin) as (dec & Hl & Hlive & Hmk & Hk).
    exists dec. split; [|auto].
    rewrite list_lookup_alter_ne; [exact Hl|].
    intros ->. apply Hnk. unfold dispose_keys. now rewrite Hl, Hlive.
  - intros d' dec' k Hl Hk.
    destruct (decide (d = d')) as [<- | Hne].
    + rewrite list_lookup_alter_eq in Hl.
      destruct (hostDecorations a !! d) as [dec|] eqn:E; [|discriminate].
      simpl in Hl. injection Hl as <-. exact (H3 d dec k E Hk).
    + rewrite list_lookup_alter_ne in Hl by assumption. exact (H3 d' dec' k Hl Hk).
  - intros d' dec' k Hl Hlive Hk.
    destruct (decide (d = d')) as [<- | Hne].
    + rewrite list_lookup_alter_eq in Hl.
      destruct (hostDecorations a !! d) as [dec|] eqn:E; [|discriminate].
      simpl in Hl. injection Hl as <-. discriminate.
    + rewrite list_lookup_alter_ne in Hl by assumption.
      destruct (H4 d' dec' k Hl Hlive Hk) as (e & Hin & He).
      exists e. split; [|exact He]. apply In_delete_keys. split; [exact Hin|].
      simpl. unfold dispose_keys.
      destruct (hostDecorations a !! d) as [dec|] eqn:E; [|tauto].
      destruct (isDisposed dec) eqn:Ed; [tauto|].
      intros Hkd. destruct (H4 d dec k E Ed Hkd) as (e2 & Hin2 & He2).
      rewrite (NoDup_keys_unique _ k e e2 H1 Hin Hin2) in He. congruence.
Qed.

Lemma tracked_cleared (a : Addon) : tracked a -> tracked (cleared a).
Proof.
  intros H. unfold cleared. destruct (_placeholderDecoration a) as [p|].
  - apply (tracked_ext (disposed p a)); [reflexivity | reflexivity |].
    now apply tracked_disposed.
  - revert H. now apply tracked_ext.
Qed.

Lemma tracked_snoc (a a' : Addon) (dec : IDecoration) :
  hostDecorations a' = hostDecorations a ++ [dec] -> _decorations a' = _decorations a ->
  onDispose dec = [] -> tracked a -> tracked a'.
Proof.
  intros Hh Hm Hon (H1 & H2 & H3 & H4). unfold tracked. rewrite Hh, Hm.
  split; [exact H1|]. split; [|split].
  - intros k e Hin. destruct (H2 k e Hin) as (x & Hl & Hrest).
    exists x. split; [now apply lookup_app_l_Some | exact Hrest].
  - intros d x k Hl Hk. apply lookup_snoc_Some in Hl.
    destruct Hl as [[_ Hl] | [_ <-]]; [exact (H3 d x k Hl Hk)|].
    rewrite Hon in Hk. destruct Hk.
  - intros d x k Hl Hlive Hk. apply lookup_snoc_Some in Hl.
    destruct Hl as [[_ Hl] | [_ <-]]; [exact (H4 d x k Hl Hlive Hk)|].
    rewrite Hon in Hk. destruct Hk.
Qed.

Lemma keeps_tracked_dispose (d : nat) : keeps tracked (decoration_dispose d).
Proof. intros s H. rewrite decoration_dispose_closed. now apply tracked_disposed. Qed.

Lemma keeps_tracked_clearPlaceholder : keeps tracked _clearPlaceholder.
Proof. intros s H. rewrite _clearPlaceholder_closed. now apply tracked_cleared. Qed.

Lemma keeps_tracked_register (c : TerminalCommand) (before : bool) :
  keeps tracked (registerCommandDecoration c before).
Proof.
  intros s H. destruct (guarded s c before) eqn:Hg.
  - now rewrite registerCommandDecoration_guarded.
  - destruct (marker c) as [m|] eqn:Hm.
    + rewrite (registerCommandDecoration_registered c before m s Hg Hm).
      pose proof (tracked_cleared s H) as Hc. unfold registered.
      destruct (registerDecorationAnswers _ _).
      * eapply (tracked_snoc (cleared s)); [| | | exact Hc].
        -- destruct before; reflexivity.
        -- destruct before; reflexivity.
        -- reflexivity.
      * revert Hc. now apply tracked_ext.
    + now rewrite registerCommandDecoration_no_marker.
Qed.

Lemma keeps_tracked_cosmetic (d : nat) (f : IDecoration -> IDecoration) :
  cosmetic f -> keeps tracked (alter_decoration d f).
Proof. intros Hf s H. simpl. now apply tracked_cosmetic. Qed.

(** The first rendering of a decoration that is not disposed enters it in
    the registry under the key of its marker. *)
Lemma tracked_entered (a : Addon) (d : nat) (dec : IDecoration)
    (e : IDisposableDecoration) :
  hostDecorations a !! d = Some dec -> isDisposed dec = false ->
  map_get (marker_id (decorationMarker dec)) (_decorations a) = None ->
  decoration e = d ->
  tracked a ->
  tracked
    (set_decorations
       (map_set (marker_id (decorationMarker dec)) e (_decorations a))
       (set_hostDecorations
          (alter (fun x => dec_set_onDispose
                             (onDispose x ++ [marker_id (decorationMarker dec)]) x)
                 d (hostDecorations a)) a)).
Proof.
  intros Hl Hlive Hget He (H1 & H2 & H3 & H4).
  apply map_get_None in Hget. rewrite (map_set_absent _ _ _ Hget).
  split; [|split; [|split]]; simpl.
  - rewrite List.map_app. simpl. apply NoDup_ListNoDup.
    apply NoDup_app. split; [now apply NoDup_ListNoDup|]. split.
    + intros k Hk Hk'. apply list_elem_of_In in Hk.
      apply list_elem_of_In in Hk'. destruct Hk' as [<- | []]. contradiction.
    + apply NoDup_ListNoDup. constructor; [intros [] | constructor].
  - intros k e' Hin. apply in_app_or in Hin. destruct Hin as [Hin | [Heq | []]].
    + destruct (H2 k e' Hin) as (x & Hx & Hxl & Hxm & Hxk).
      destruct (decide (d = decoration e')) as [Heq | Hne].
      * rewrite <- Heq in Hx. rewrite <- Heq. rewrite list_lookup_alter_eq, Hx. simpl.
        eexists. split; [reflexivity|]. simpl. repeat split; auto.
        apply in_or_app. now left.
      * exists x. rewrite list_lookup_alter_ne by assumption. auto.
    + injection Heq as <- <-. rewrite He, list_lookup_alter_eq, Hl. simpl.
      eexists. split; [reflexivity|]. simpl. repeat split; auto.
      apply in_or_app. right. now left.
  - intros d' x k Hx Hk.
    destruct (decide (d = d')) as [<- | Hne].
    + rewrite list_lookup_alter_eq, Hl in Hx. simpl in Hx. injection Hx as <-.
      simpl in *. apply in_app_or in Hk. destruct Hk as [Hk | [<- | []]]; [|reflexivity].
      exact (H3 d dec k Hl Hk).
    + rewrite list_lookup_alter_ne in Hx by assumption. exact (H3 d' x k Hx Hk).
  - intros d' x k Hx Hxl Hk.
    destruct (decide (d = d')) as [<- | Hne].
    + rewrite list_lookup_alter_eq, Hl in Hx. simpl in Hx. injection Hx as <-.
      simpl in *. apply in_app_or in Hk. destruct Hk as [Hk | [<- | []]].
      * destruct (H4 d dec k Hl Hlive Hk) as (e0 & Hin0 & He0).
        exists e0. split; [apply in_or_app; now left | exact He0].
      * exists e. split; [apply in_or_app; right; now left | exact He].
    + rewrite list_lookup_alter_ne in Hx by assumption.
      destruct (H4 d' x k Hx Hxl Hk) as (e0 & Hin0 & He0).
      exists e0. split; [apply in_or_app; now left | exact He0].
Qed.

Lemma keeps_tracked_render (d : nat) (fresh : HTMLElement) :
  keeps tracked (host_render d fresh).
Proof.
  intros s H. unfold host_render, bind, get.
  destruct (hostDecorations s !! d) as [dec|] eqn:Hl; [|exact H].
  destruct (isDisposed dec) eqn:Hlive; [exact H|].
  unfold onRender_listener, bind, get. rewrite Hl.
  destruct (map_get (marker_id (decorationMarker dec)) (_decorations s)) eqn:Hget.
  - simpl. rewrite snd_rethrow. apply tracked_cosmetic; [|exact H]. intros x. repeat split.
  - simpl. rewrite snd_rethrow.
    match goal with
    | |- tracked (set_hostDecorations (alter ?f d _) ?a) =>
        apply (tracked_cosmetic a d f); [intros x; repeat split|]
    end.
    now apply tracked_entered.
Qed.

Lemma keeps_tracked_ambient (f : Addon -> Addon) : ambient f -> keeps tracked (modify f).
Proof.
  intros Hf s H. simpl. destruct (Hf s) as (H1 & H2 & _).
  now apply (tracked_ext s).
Qed.

Lemma keeps_tracked_disposeListeners (l : list nat) : keeps tracked (dispose_listeners l).
Proof. intros s H. rewrite dispose_listeners_closed. revert H. now apply tracked_ext. Qed.

Lemma keeps_tracked_push (ev : CommandEvent) (cap : Capability) :
  keeps tracked (push_listener ev cap).
Proof. unfold push_listener. repeat keeps_step. frame_by tracked_ext. Qed.

Lemma keeps_tracked_addListeners : keeps tracked _addCommandDetectionListeners.
Proof.
  unfold _addCommandDetectionListeners.
  repeat first [ keeps_step
               | apply keeps_tracked_disposeListeners | apply keeps_tracked_register
               | apply keeps_tracked_push | frame_by tracked_ext ].
Qed.

Lemma keeps_tracked_removeListener : keeps tracked onDidRemoveCapability_listener.
Proof.
  unfold onDidRemoveCapability_listener.
  repeat first [ keeps_step | apply keeps_tracked_disposeListeners | frame_by tracked_ext ].
Qed.

(** ** The loop that disposes the entries *)

Lemma dispose_entries_closed (keys : list nat) (s : Addon) :
  dispose_entries keys s = (Returned tt, entries_disposed keys s).
Proof.
  unfold dispose_entries, entries_disposed.
  revert s. induction keys as [|k keys IH]; intros s; simpl; [reflexivity|].
  unfold bind at 1. unfold bind at 1. unfold get at 1.
  destruct (map_get k (_decorations s)) as [e|].
  - rewrite decoration_dispose_closed. apply IH.
  - simpl. apply IH.
Qed.

Lemma tracked_entries_disposed (keys : list nat) (s : Addon) :
  tracked s -> tracked (entries_disposed keys s).
Proof.
  revert s. induction keys as [|k keys IH]; intros s H; simpl; [exact H|].
  apply IH. destruct (map_get k (_decorations s)); [now apply tracked_disposed | exact H].
Qed.

Lemma map_delete_absent {V} (k : nat) (m : JsMap V) :
  ~ In k (List.map fst m) -> map_delete k m = m.
Proof.
  induction m as [|[k' v] m IH]; simpl; intros H; [reflexivity|].
  destruct (Nat.eqb_spec k' k) as [-> | Hne]; [tauto|].
  simpl. f_equal. apply IH. tauto.
Qed.

Lemma map_delete_twice {V} (k : nat) (m : JsMap V) :
  map_delete k (map_delete k m) = map_delete k m.
Proof.
  apply map_delete_absent. intros Hin. apply in_map_iff in Hin.
  destruct Hin as (kv & Hk & Hin). apply In_map_delete in Hin. tauto.
Qed.

Lemma delete_keys_after (keys : list nat) (k : nat) (m : JsMap IDisposableDecoration) :
  (forall x, In x keys -> x = k) ->
  delete_keys keys (map_delete k m) = map_delete k m.
Proof.
  induction keys as [|x keys IH]; intros Hall; [reflexivity|].
  unfold delete_keys in *. simpl. rewrite (Hall x) by now left.
  rewrite map_delete_twice. apply IH. intros y Hy. apply Hall. now right.
Qed.

Lemma delete_keys_same (keys : list nat) (k : nat) (m : JsMap IDisposableDecoration) :
  (forall x, In x keys -> x = k) -> In k keys -> delete_keys keys m = map_delete k m.
Proof.
  intros Hall Hin. destruct keys as [|x keys]; [contradiction|].
  change (delete_keys (x :: keys) m) with (delete_keys keys (map_delete x m)).
  rewrite (Hall x) by now left.
  apply delete_keys_after. intros y Hy. apply Hall. now right.
Qed.

(** Disposing the decoration of the entry under [k] deletes that entry and
    no other. *)
Lemma disposed_entry (s : Addon) (k : nat) (e : IDisposableDecoration) :
  tracked s -> map_get k (_decorations s) = Some e ->
  _decorations (disposed (decoration e) s) = map_delete k (_decorations s).
Proof.
  intros (H1 & H2 & H3 & H4) Hget. apply map_get_In in Hget.
  destruct (H2 k e Hget) as (dec & Hl & Hlive & Hmk & Hk).
  unfold disposed. simpl. unfold dispose_keys. rewrite Hl, Hlive.
  apply delete_keys_same; [|exact Hk].
  intros x Hx. rewrite (H3 _ dec x Hl Hx). exact Hmk.
Qed.

Lemma entries_disposed_registry (keys : list nat) (s : Addon) :
  tracked s ->
  _decorations (entries_disposed keys s) = delete_keys keys (_decorations s).
Proof.
  revert s. induction keys as [|k keys IH]; intros s H; simpl; [reflexivity|].
  destruct (map_get k (_decorations s)) as [e|] eqn:Hget.
  - rewrite IH by now apply tracked_disposed.
    now rewrite (disposed_entry s k e H Hget).
  - rewrite IH by exact H. unfold delete_keys. simpl.
    now rewrite (map_delete_absent k _ (map_get_None _ _ Hget)).
Qed.

Lemma delete_keys_all (m : JsMap IDisposableDecoration) :
  delete_keys (List.map fst m) m = [].
Proof.
  destruct (delete_keys (List.map fst m) m) as [|kv l] eqn:E; [reflexivity|].
  assert (Hin : In kv (delete_keys (List.map fst m) m)) by (rewrite E; now left).
  apply In_delete_keys in Hin. destruct Hin as [Hin Hn]. exfalso. apply Hn.
  apply in_map_iff. now exists kv.
Qed.

Lemma keeps_tracked_clearEntries : keeps tracked clearEntries.
Proof.
  intros s H. unfold clearEntries, bind, get.
  rewrite dispose_entries_closed. simpl.
  pose proof (tracked_entries_disposed (List.map fst (_decorations s)) s H) as Ht.
  revert Ht. apply tracked_ext; [reflexivity|]. simpl.
  now rewrite entries_disposed_registry, delete_keys_all.
Qed.

Lemma tracked_blank cap cfg th conts answers : tracked (blank cap cfg th conts answers).
Proof.
  split; [constructor|]. split; [|split]; simpl.
  - intros k e [].
  - intros d dec k Hl. now rewrite lookup_nil in Hl.
  - intros d dec k Hl. now rewrite lookup_nil in Hl.
Qed.

Ltac tracked_units :=
  auto using keeps_tracked_dispose, keeps_tracked_register, keeps_tracked_clearPlaceholder,
    keeps_tracked_render, keeps_tracked_addListeners, keeps_tracked_removeListener,
    keeps_tracked_disposeListeners, keeps_tracked_cosmetic, keeps_tracked_ambient,
    keeps_tracked_clearEntries.

(** The registry is well formed whatever has happened to the addon since its
    construction. *)
Lemma tracked_always cap cfg th conts answers (evs : list Event) :
  tracked (run evs (construct cap cfg th conts answers)).
Proof.
  apply keeps_run; [tracked_units .. |].
  apply keeps_construct; [tracked_units .. |].
  apply tracked_blank.
Qed.

(** ** Retraction of the current command *)

(** C9, as stated, fails.  With the rendered placeholder as the one entry of
    the registry, the listener disposes it and empties the registry, but the
    placeholder reference still names the disposed decoration.  And a
    placeholder that has not been rendered is not in the registry: the
    listener finds no last entry and leaves the addon as it was, the
    placeholder not disposed. *)
Lemma C9_not_as_specified :
  (_placeholderDecoration (renderedAddon Both) = Some 0 /\
   List.map (fun kv => decoration (snd kv)) (_decorations (renderedAddon Both)) = [0] /\
   _placeholderDecoration
     (snd (onCurrentCommandInvalidated_listener NoProblemsReported (renderedAddon Both)))
   = Some 0 /\
   ~ retracted_as_specified (renderedAddon Both) 0) /\
  (_placeholderDecoration (startedAddon Both) = Some 0 /\
   List.map (fun x => (beforeCommandExecution x, isDisposed x))
     (hostDecorations (startedAddon Both)) = [(true, false)] /\
   _decorations (startedAddon Both) = [] /\
   onCurrentCommandInvalidated_listener NoProblemsReported (startedAddon Both) =
     (Returned tt, startedAddon Both) /\
   ~ retracted_as_specified (startedAddon Both) 0).
Proof.
  split.
  - split; [reflexivity|]. split; [reflexivity|]. split; [reflexivity|].
    intros (_ & _ & H). vm_compute in H. discriminate.
  - split; [vm_compute; reflexivity|]. split; [vm_compute; reflexivity|].
    split; [vm_compute; reflexivity|]. split; [vm_compute; reflexivity|].
    intros ((dec & Hl & Hd) & _). vm_compute in Hl. injection Hl as <-. discriminate.
Qed.

(** C9 (amended): when "current command invalidated" arrives with reason
    "no problems reported" while the rendered placeholder is the one entry
    of the registry (and no finished entry exists), the listener returns,
    the placeholder decoration is disposed and the registry is empty
    afterwards. *)
Theorem C9_retraction cap cfg th conts answers (evs : list Event)
    (p k : nat) (e : IDisposableDecoration) :
  let a := run evs (construct cap cfg th conts answers) in
  let r := onCurrentCommandInvalidated_listener NoProblemsReported a in
  _placeholderDecoration a = Some p ->
  _decorations a = [(k, e)] ->
  decoration e = p ->
  fst r = Returned tt /\
  (exists dec, hostDecorations (snd r) !! p = Some dec /\ isDisposed dec = true) /\
  _decorations (snd r) = [].
Proof.
  intros a r Hp Hm He. subst r.
  assert (Ht : tracked a) by apply tracked_always.
  unfold onCurrentCommandInvalidated_listener, bind, get.
  rewrite Hm. simpl. rewrite He, decoration_dispose_closed. simpl.
  split; [reflexivity|].
  assert (Hget : map_get k (_decorations a) = Some e).
  { rewrite Hm. unfold map_get. simpl. now rewrite Nat.eqb_refl. }
  destruct Ht as (H1 & H2 & H3 & H4).
  destruct (H2 k e (map_get_In _ _ _ Hget)) as (dec & Hl & Hlive & Hmk & Hk).
  rewrite He in Hl. split.
  - exists (dec_set_isDisposed true dec). rewrite list_lookup_alter_eq, Hl. now split.
  - rewrite <- He.
    change (_decorations (disposed (decoration e) a) = []).
    rewrite (disposed_entry a k e); [|repeat split; assumption | exact Hget].
    rewrite Hm. unfold map_delete. simpl. now rewrite Nat.eqb_refl.
Qed.

Lemma C9_retraction_witness :
  _decorations
    (snd (onCurrentCommandInvalidated_listener NoProblemsReported
            (run [Activate; CommandStarted (sampleCommand "ls" 1 None false);
                  Rendered 0 freshElement]
               (construct (Some (sampleCapability false false)) (sampleConfiguration Both)
                  sampleTheme [[]] (fun _ => true)))))
  = [].
Proof.
  pose proof (C9_retraction (Some (sampleCapability false false))
                (sampleConfiguration Both) sampleTheme [[]] (fun _ => true)
                [Activate; CommandStarted (sampleCommand "ls" 1 None false);
                 Rendered 0 freshElement]
                0 1 {| decoration := 0; disposables := []; entryExitCode := None;
                       entryGenericMarkProperties := None |}) as H.
  cbv zeta in H.
  apply H; [vm_compute; reflexivity | vm_compute; reflexivity | reflexivity].
Defined.

Lemma C10_register_clears_placeholder_witness :
  exists dec,
    hostDecorations
      (snd (registerCommandDecoration (sampleCommand "ls" 1 (Some 0%Z) false) false
              (startedAddon Both))) !! 0 = Some dec /\
    isDisposed dec = true.
Proof.
  assert (Hg : guarded (startedAddon Both) (sampleCommand "ls" 1 (Some 0%Z) false) false
               = false) by (vm_compute; reflexivity).
  pose proof (C10_register_clears_placeholder
                (sampleCommand "ls" 1 (Some 0%Z) false) false
                {| marker_id := 1; marker_line := 5 |} (startedAddon Both)
                Hg eq_refl) as H.
  cbv zeta in H. destruct H as (H & _).
  eapply H; vm_compute; reflexivity.
Defined.

Lemma C1_at_most_one_placeholder_witness :
  live_placeholders
    (snd (registerCommandDecoration (sampleCommand "top" 3 None false) true
            (run [Activate; CommandStarted (sampleCommand "ls" 1 None false)]
               (construct (Some (sampleCapability false false)) (sampleConfiguration Both)
                  sampleTheme [[]] (fun _ => true))))) = [1].
Proof.
  pose proof (C1_at_most_one_placeholder
                (Some (sampleCapability false false)) (sampleConfiguration Both)
                sampleTheme [[]] (fun _ => true)
                [Activate; CommandStarted (sampleCommand "ls" 1 None false)]
                (sampleCommand "top" 3 None false)) as H.
  cbv zeta in H. destruct H as (_ & _ & H).
  apply (H 1). vm_compute. reflexivity.
Defined.

(** ** What a rebind leaves of the decorations *)

Lemma since_refl (s : Addon) : since s s.
Proof. intros d dec Hl. exists dec. auto. Qed.

Lemma since_trans (s0 s1 s2 : Addon) : since s0 s1 -> since s1 s2 -> since s0 s2.
Proof.
  intros H01 H12 d dec Hl. destruct (H01 d dec Hl) as (dec1 & Hl1 & Ho1 & Hd1).
  destruct (H12 d dec1 Hl1) as (dec2 & Hl2 & Ho2 & Hd2).
  exists dec2. split; [exact Hl2|]. split; [congruence | auto].
Qed.

Lemma since_ext (s0 s s' : Addon) :
  hostDecorations s' = hostDecorations s -> since s0 s -> since s0 s'.
Proof. unfold since. intros ->. auto. Qed.

Lemma since_step_alter (s : Addon) (d : nat) (f : IDecoration -> IDecoration) :
  (forall x, overviewRulerOptions (f x) = overviewRulerOptions x) ->
  (forall x, isDisposed x = true -> isDisposed (f x) = true) ->
  since s (set_hostDecorations (alter f d (hostDecorations s)) s).
Proof.
  intros Ho Hd d' dec Hl. simpl.
  destruct (decide (d = d')) as [<- | Hne].
  - exists (f dec). rewrite list_lookup_alter_eq, Hl. simpl. auto.
  - exists dec. rewrite list_lookup_alter_ne by assumption. auto.
Qed.

Lemma since_disposed (s : Addon) (d : nat) : since s (disposed d s).
Proof.
  apply (since_ext s (set_hostDecorations
                        (alter (dec_set_isDisposed true) d (hostDecorations s)) s));
    [reflexivity|].
  apply since_step_alter; intros x; simpl; auto.
Qed.

Lemma since_cleared (s : Addon) : since s (cleared s).
Proof.
  unfold cleared. destruct (_placeholderDecoration s) as [p|].
  - apply (since_ext s (disposed p s)); [reflexivity | apply since_disposed].
  - apply (since_ext s s); [reflexivity | apply since_refl].
Qed.

Lemma since_snoc (s s' : Addon) (x : IDecoration) :
  hostDecorations s' = hostDecorations s ++ [x] -> since s s'.
Proof.
  intros Hh d dec Hl. exists dec. rewrite Hh. split; [now apply lookup_app_l_Some | auto].
Qed.

Lemma keeps_since_dispose (s0 : Addon) (d : nat) : keeps (since s0) (decoration_dispose d).
Proof.
  intros s H. rewrite decoration_dispose_closed. simpl.
  exact (since_trans _ _ _ H (since_disposed s d)).
Qed.

Lemma since_registered (c : TerminalCommand) (before : bool) (m : Marker) (s : Addon) :
  since s (snd (registered c before m s)).
Proof.
  unfold registered. destruct (registerDecorationAnswers _ _); simpl.
  - apply (since_trans _ (cleared s)); [apply since_cleared|].
    eapply since_snoc. destruct before; reflexivity.
  - apply (since_ext s (cleared s)); [reflexivity | apply since_cleared].
Qed.

Lemma keeps_since_register (s0 : Addon) (c : TerminalCommand) (before : bool) :
  keeps (since s0) (registerCommandDecoration c before).
Proof.
  intros s H. destruct (guarded s c before) eqn:Hg.
  - now rewrite registerCommandDecoration_guarded.
  - destruct (marker c) as [m|] eqn:Hm.
    + rewrite (registerCommandDecoration_registered c before m s Hg Hm).
      exact (since_trans _ _ _ H (since_registered c before m s)).
    + now rewrite registerCommandDecoration_no_marker.
Qed.

Lemma keeps_since_disposeListeners (s0 : Addon) (l : list nat) :
  keeps (since s0) (dispose_listeners l).
Proof. intros s H. rewrite dispose_listeners_closed. revert H. now apply since_ext. Qed.

Lemma keeps_since_push (s0 : Addon) (ev : CommandEvent) (cap : Capability) :
  keeps (since s0) (push_listener ev cap).
Proof. unfold push_listener. repeat keeps_step. frame_by since_ext. Qed.

Lemma keeps_since_attach (s0 : Addon) : keeps (since s0) _attachToCommandCapability.
Proof.
  unfold _attachToCommandCapability, _addCommandDetectionListeners.
  repeat first [ keeps_step
               | apply keeps_since_disposeListeners | apply keeps_since_register
               | apply keeps_since_push | frame_by since_ext ].
Qed.

Lemma keeps_since_dispose_entries (s0 : Addon) (keys : list nat) :
  keeps (since s0) (dispose_entries keys).
Proof. unfold dispose_entries. repeat first [keeps_step | apply keeps_since_dispose]. Qed.

Lemma since_entries_disposed (keys : list nat) (s : Addon) :
  since s (entries_disposed keys s).
Proof.
  pose proof (keeps_since_dispose_entries s keys s (since_refl s)) as H.
  now rewrite dispose_entries_closed in H.
Qed.

(** The flags of the addon are set by [_updateDecorationVisibility] alone. *)
Lemma flags_ext (v : option bool * option bool) (s s' : Addon) :
  _overviewRulerDecorations s' = _overviewRulerDecorations s ->
  _decorationsDisabled s' = _decorationsDisabled s ->
  flags s = v -> flags s' = v.
Proof. unfold flags. now intros -> ->. Qed.

Lemma keeps_flags_register v (c : TerminalCommand) (before : bool) :
  keeps (fun s => flags s = v) (registerCommandDecoration c before).
Proof.
  intros s H. destruct (guarded s c before) eqn:Hg.
  - now rewrite registerCommandDecoration_guarded.
  - destruct (marker c) as [m|] eqn:Hm.
    + rewrite (registerCommandDecoration_registered c before m s Hg Hm).
      unfold registered, cleared.
      destruct (registerDecorationAnswers _ _); destruct before;
        destruct (_placeholderDecoration s); simpl;
        revert H; apply flags_ext; reflexivity.
    + now rewrite registerCommandDecoration_no_marker.
Qed.

Lemma keeps_flags_attach v : keeps (fun s => flags s = v) _attachToCommandCapability.
Proof.
  unfold _attachToCommandCapability, _addCommandDetectionListeners, push_listener.
  repeat first [ keeps_step | apply keeps_flags_register
               | (intros s H; rewrite dispose_listeners_closed; revert H;
                  apply flags_ext; reflexivity)
               | frame_by flags_ext ].
Qed.

(** ** The sweep at the head of the configuration listener *)

Lemma shaped_refl (s : Addon) : shaped s s.
Proof. unfold shaped. destruct s; reflexivity. Qed.

Lemma shaped_disposed (s s' : Addon) (d : nat) : shaped s s' -> shaped s (disposed d s').
Proof.
  unfold shaped. intros H. destruct s, s'.
  unfold disposed, dispose_keys, set_decorations, set_hostDecorations in *.
  simpl in *. injection H as -> -> -> -> -> -> -> -> -> -> -> -> -> ->. reflexivity.
Qed.

Lemma shaped_entries_disposed (keys : list nat) (s s' : Addon) :
  shaped s s' -> shaped s (entries_disposed keys s').
Proof.
  revert s'. induction keys as [|k keys IH]; intros s' H; simpl; [exact H|].
  apply IH. destruct (map_get k (_decorations s')); [now apply shaped_disposed | exact H].
Qed.

Lemma shaped_swept (a : Addon) : shaped a (swept a).
Proof.
  unfold swept. apply shaped_entries_disposed.
  destruct (_placeholderDecoration a); [apply shaped_disposed|]; apply shaped_refl.
Qed.

Lemma In_map_get {V} (k : nat) (v : V) (m : JsMap V) :
  List.NoDup (List.map fst m) -> In (k, v) m -> map_get k m = Some v.
Proof.
  intros Hnd Hin. destruct (map_get k m) as [v'|] eqn:E.
  - apply map_get_In in E. f_equal. exact (NoDup_keys_unique m k v' v Hnd E Hin).
  - apply map_get_None in E. exfalso. apply E. apply in_map_iff. now exists (k, v).
Qed.

(** The loop disposes the decoration of every entry whose key it visits. *)
Lemma entries_disposed_each (keys : list nat) (s : Addon) (k : nat)
    (e : IDisposableDecoration) :
  tracked s -> In (k, e) (_decorations s) -> In k keys ->
  exists dec, hostDecorations (entries_disposed keys s) !! decoration e = Some dec /\
              isDisposed dec = true.
Proof.
  revert s. induction keys as [|k0 keys IH]; intros s Ht Hin Hk; [destruct Hk|].
  simpl. destruct (decide (k0 = k)) as [-> | Hne].
  - pose proof Ht as (H1 & H2 & _).
    rewrite (In_map_get k e _ H1 Hin).
    destruct (H2 k e Hin) as (dec & Hl & _).
    assert (Hd : hostDecorations (disposed (decoration e) s) !! decoration e
                 = Some (dec_set_isDisposed true dec)).
    { unfold disposed. simpl. now rewrite list_lookup_alter_eq, Hl. }
    destruct (since_entries_disposed keys (disposed (decoration e) s) _ _ Hd)
      as (dec' & Hl' & _ & Hdis).
    exists dec'. split; [exact Hl' | now apply Hdis].
  - destruct Hk as [Hk | Hk]; [contradiction|].
    destruct (map_get k0 (_decorations s)) as [e0|] eqn:Hget.
    + apply IH; [now apply tracked_disposed | | exact Hk].
      rewrite (disposed_entry s k0 e0 Ht Hget). apply In_map_delete. simpl. auto.
    + now apply IH.
Qed.

Lemma swept_registry (a : Addon) : tracked a -> _decorations (swept a) = [].
Proof.
  intros Ht. unfold swept. rewrite entries_disposed_registry.
  - apply delete_keys_all.
  - destruct (_placeholderDecoration a); [now apply tracked_disposed | exact Ht].
Qed.

Lemma since_swept (a : Addon) : since a (swept a).
Proof.
  unfold swept. eapply since_trans; [|apply since_entries_disposed].
  destruct (_placeholderDecoration a); [apply since_disposed | apply since_refl].
Qed.

Lemma swept_placeholder (a : Addon) (p : nat) (dec0 : IDecoration) :
  _placeholderDecoration a = Some p -> hostDecorations a !! p = Some dec0 ->
  exists dec, hostDecorations (swept a) !! p = Some dec /\ isDisposed dec = true.
Proof.
  intros Hp Hl. unfold swept. rewrite Hp.
  assert (Hd : hostDecorations (disposed p a) !! p = Some (dec_set_isDisposed true dec0)).
  { unfold disposed. simpl. now rewrite list_lookup_alter_eq, Hl. }
  destruct (since_entries_disposed (List.map fst (_decorations (disposed p a)))
              (disposed p a) _ _ Hd) as (dec & Hl' & _ & Hdis).
  exists dec. split; [exact Hl' | now apply Hdis].
Qed.

Lemma swept_entries (a : Addon) (k : nat) (e : IDisposableDecoration) :
  tracked a -> In (k, e) (_decorations a) ->
  exists dec, hostDecorations (swept a) !! decoration e = Some dec /\ isDisposed dec = true.
Proof.
  intros Ht Hin. unfold swept.
  destruct (_placeholderDecoration a) as [p|]; cbv zeta.
  2:{ apply (entries_disposed_each _ a k e Ht Hin). apply in_map_iff. now exists (k, e). }
  destruct (in_dec Nat.eq_dec k (dispose_keys p a)) as [Hk | Hk].
  - unfold dispose_keys in Hk.
    destruct (hostDecorations a !! p) as [dec|] eqn:Hl; [|destruct Hk].
    destruct (isDisposed dec) eqn:Hlive; [destruct Hk|].
    pose proof Ht as (H1 & _ & _ & H4).
    destruct (H4 p dec k Hl Hlive Hk) as (e2 & Hin2 & He2).
    rewrite (NoDup_keys_unique _ k e2 e H1 Hin2 Hin) in He2.
    assert (Hd : hostDecorations (disposed p a) !! decoration e
                 = Some (dec_set_isDisposed true dec)).
    { rewrite He2. unfold disposed. simpl. now rewrite list_lookup_alter_eq, Hl. }
    destruct (since_entries_disposed (List.map fst (_decorations (disposed p a)))
                (disposed p a) _ _ Hd) as (dec' & Hl' & _ & Hdis).
    exists dec'. split; [exact Hl' | now apply Hdis].
  - assert (Hin0 : In (k, e) (_decorations (disposed p a))).
    { unfold disposed. simpl. apply In_delete_keys. now split. }
    apply (entries_disposed_each _ (disposed p a) k e (tracked_disposed p a Ht) Hin0).
    apply in_map_iff. now exists (k, e).
Qed.

(** The listener of the configuration change, for a change of the
    decorations setting: the sweep, then [_updateDecorationVisibility]. *)
Lemma setVisibility_run_swept (mode : DecorationsEnabled) (a : Addon) :
  setVisibility_run mode a =
  _updateDecorationVisibility
    (swept (set_configuration (with_mode mode (configuration a)) a)).
Proof.
  unfold setVisibility_run, onDidChangeConfiguration_listener. simpl.
  unfold bind at 1. unfold get at 1. unfold bind at 1.
  unfold swept.
  destruct (_placeholderDecoration (set_configuration _ a)) as [p|] eqn:Hp;
    unfold dispose_optional.
  - rewrite decoration_dispose_closed. unfold bind at 1. unfold get at 1.
    unfold bind at 1. rewrite dispose_entries_closed. reflexivity.
  - unfold ret at 1. unfold bind at 1. unfold get at 1.
    unfold bind at 1. rewrite dispose_entries_closed. reflexivity.
Qed.


Lemma shaped_fields (s s' : Addon) :
  shaped s s' ->
  setup s' = setup s /\ _placeholderDecoration s' = _placeholderDecoration s /\
  configuration s' = configuration s /\ flags s' = flags s /\
  registerDecorationCalls s' = registerDecorationCalls s /\
  _commandDetectionListeners s' = _commandDetectionListeners s /\
  subscriptions s' = subscriptions s.
Proof. unfold shaped. intros H. rewrite H. repeat split. Qed.

Lemma disposed_length (d : nat) (s : Addon) :
  length (hostDecorations (disposed d s)) = length (hostDecorations s).
Proof. unfold disposed. simpl. apply length_alter. Qed.

Lemma entries_disposed_length (keys : list nat) (s : Addon) :
  length (hostDecorations (entries_disposed keys s)) = length (hostDecorations s).
Proof.
  revert s. induction keys as [|k keys IH]; intros s; simpl; [reflexivity|].
  rewrite IH. destruct (map_get k (_decorations s)); [apply disposed_length | reflexivity].
Qed.

Lemma swept_length (a : Addon) :
  length (hostDecorations (swept a)) = length (hostDecorations a).
Proof.
  unfold swept. rewrite entries_disposed_length.
  destruct (_placeholderDecoration a); [apply disposed_length | reflexivity].
Qed.

(** After the sweep the placeholder reference, if any, is stale. *)
Lemma swept_stale (a : Addon) :
  stale (_placeholderDecoration (swept a)) (hostDecorations (swept a)).
Proof.
  intros p dec Hp Hl.
  destruct (shaped_fields a (swept a) (shaped_swept a)) as (_ & Hph & _).
  rewrite Hph in Hp.
  assert (Hlt : (p < length (hostDecorations a))%nat).
  { rewrite <- swept_length. now apply lookup_lt_Some in Hl. }
  apply lookup_lt_is_Some in Hlt. destruct Hlt as [dec0 Hl0].
  destruct (swept_placeholder a p dec0 Hp Hl0) as (dec' & Hl' & Hd). congruence.
Qed.



Lemma no_live_placeholders (a : Addon) : no_live_placeholder a -> live_placeholders a = [].
Proof.
  intros H. unfold live_placeholders. apply filter_none. intros d _.
  destruct (hostDecorations a !! d) as [dec|] eqn:E; [|reflexivity].
  destruct (beforeCommandExecution dec) eqn:Hb; [|reflexivity].
  destruct (isDisposed dec) eqn:Hd; [reflexivity|].
  destruct (H d dec E Hb Hd).
Qed.

Lemma tracked_set_configuration (cfg : Configuration) (a : Addon) :
  tracked a -> tracked (set_configuration cfg a).
Proof. now apply tracked_ext. Qed.


(** ** The replay of the capability *)

Lemma rulerOptions_setup (s s0 : Addon) (c : TerminalCommand) (before : bool) :
  setup s = setup s0 -> rulerOptions s c before = rulerOptions s0 c before.
Proof.
  unfold setup, rulerOptions. intros H. injection H as _ _ H1 H2 _ _. now rewrite H1, H2.
Qed.

Lemma guarded_setup (s s0 : Addon) (c : TerminalCommand) (before : bool) :
  setup s = setup s0 -> guarded s c before = guarded s0 c before.
Proof.
  unfold setup, guarded. intros H. injection H as H1 H2 _ _ _ _. now rewrite H1, H2.
Qed.

Lemma registering_guarded (s0 : Addon) (c : TerminalCommand) :
  registering s0 -> guarded s0 c false = false.
Proof. intros (H1 & H2 & _). unfold guarded. now rewrite H1, H2. Qed.

Lemma replayed_setup (s s0 : Addon) (cap : Capability) :
  setup s = setup s0 -> replayed s cap = replayed s0 cap.
Proof.
  intros H. unfold replayed, executingDecoration.
  assert (Hf : forall c, finalDecoration s c = finalDecoration s0 c).
  { intros c. unfold finalDecoration. now rewrite (rulerOptions_setup s s0 c false H). }
  assert (He : omap (finalDecoration s) (commands cap)
               = omap (finalDecoration s0) (commands cap)).
  { induction (commands cap) as [|c cs IH]; [reflexivity|].
    change (omap (finalDecoration s) (c :: cs))
      with (match finalDecoration s c with
            | Some d => d :: omap (finalDecoration s) cs
            | None => omap (finalDecoration s) cs
            end).
    change (omap (finalDecoration s0) (c :: cs))
      with (match finalDecoration s0 c with
            | Some d => d :: omap (finalDecoration s0) cs
            | None => omap (finalDecoration s0) cs
            end).
    now rewrite Hf, IH. }
  rewrite He.
  destruct (executingCommandObject cap) as [c|]; [|reflexivity].
  now rewrite (rulerOptions_setup s s0 c true H).
Qed.

Lemma delete_keys_nil (keys : list nat) : delete_keys keys [] = [].
Proof. induction keys as [|k keys IH]; [reflexivity | exact IH]. Qed.

Lemma replaying_ext (s0 : Addon) (H : list IDecoration) (ph : option nat) (s s' : Addon) :
  hostDecorations s' = hostDecorations s -> _decorations s' = _decorations s ->
  _placeholderDecoration s' = _placeholderDecoration s -> setup s' = setup s ->
  replaying s0 H ph s -> replaying s0 H ph s'.
Proof. unfold replaying. intros -> -> -> ->. auto. Qed.

Lemma clearedHost_stale (ph : option nat) (H : list IDecoration) :
  stale ph H -> clearedHost ph H = H.
Proof.
  intros Hs. destruct ph as [p|]; [|reflexivity]. simpl.
  destruct (H !! p) as [dec|] eqn:E.
  - apply (alter_lookup_id _ _ _ _ E). apply dec_set_isDisposed_id. exact (Hs p dec eq_refl E).
  - now apply alter_lookup_none.
Qed.

Lemma alter_snoc {A} (f : A -> A) (l : list A) (x : A) :
  alter f (length l) (l ++ [x]) = l ++ [f x].
Proof.
  induction l as [|y l IH]; [reflexivity|].
  change (alter f (length (y :: l)) ((y :: l) ++ [x]))
    with (y :: alter f (length l) (l ++ [x])).
  now rewrite IH.
Qed.

(** A registration during the replay: the placeholder is cleared, the new
    decoration is appended. *)
Lemma replaying_registered (s0 : Addon) (H : list IDecoration) (ph : option nat)
    (s : Addon) (c : TerminalCommand) (before : bool) (m : Marker) :
  registering s0 -> replaying s0 H ph s ->
  fst (registered c before m s) = Returned (Some (length H)) /\
  replaying s0
    (clearedHost ph H ++ [newDecoration m (rulerOptions s0 c before) c before])
    (if before then Some (length H) else None)
    (snd (registered c before m s)).
Proof.
  intros (Ht & Hd & Hans) (HH & Hm & Hp & Hs). unfold registered.
  assert (Hans' : registerDecorationAnswers (cleared s) = registerDecorationAnswers s0).
  { rewrite cleared_answers. unfold setup in Hs. now injection Hs. }
  rewrite Hans', Hans, cleared_length, HH.
  assert (Hsc : setup (cleared s) = setup s0).
  { rewrite <- Hs. unfold cleared. now destruct (_placeholderDecoration s). }
  rewrite (rulerOptions_setup _ _ c before Hsc).
  assert (Hhc : hostDecorations (cleared s) = clearedHost ph H).
  { rewrite cleared_hostDecorations, Hp, HH. reflexivity. }
  assert (Hmc : _decorations (cleared s) = []).
  { unfold cleared. destruct (_placeholderDecoration s); simpl; [|exact Hm].
    rewrite Hm. apply delete_keys_nil. }
  split; [reflexivity|].
  destruct before; cbn [snd]; unfold replaying;
    (split; [cbn -[cleared rulerOptions clearedHost]; now rewrite Hhc|]);
    (split; [exact Hmc|]); (split; [reflexivity|]); exact Hsc.
Qed.

Lemma hoare_replay_register (s0 : Addon) (H : list IDecoration) (ph : option nat)
    (c : TerminalCommand) (before : bool) (m : Marker) :
  registering s0 -> guarded s0 c before = false -> marker c = Some m ->
  hoare (replaying s0 H ph) (ignore (registerCommandDecoration c before))
    (fun _ => replaying s0
                (clearedHost ph H ++ [newDecoration m (rulerOptions s0 c before) c before])
                (if before then Some (length H) else None))
    (fun _ => False).
Proof.
  intros Hreg Hg Hm s Hs. unfold ignore, bind.
  assert (Hgs : guarded s c before = false).
  { destruct Hs as (_ & _ & _ & Hsetup). now rewrite (guarded_setup s s0 c before Hsetup). }
  rewrite (registerCommandDecoration_registered c before m s Hgs Hm).
  destruct (replaying_registered s0 H ph s c before m Hreg Hs) as [Hr Hrep].
  destruct (registered c before m s) as [r s'] eqn:E.
  cbn [fst snd] in Hr, Hrep. rewrite Hr. exact Hrep.
Qed.

(** The replay of the finished commands, each with a marker. *)
Lemma hoare_replay_finished (s0 : Addon) (cs : list TerminalCommand) :
  registering s0 ->
  Forall (fun c => isSome (marker c) = true) cs ->
  forall (H : list IDecoration) (ph : option nat),
  hoare (replaying s0 H ph)
    (forEach cs (fun c => ignore (registerCommandDecoration c false)))
    (fun _ => replaying s0
                (match cs with
                 | [] => H
                 | _ :: _ => clearedHost ph H ++ omap (finalDecoration s0) cs
                 end)
                (match cs with [] => ph | _ :: _ => None end))
    (fun _ => False).
Proof.
  intros Hreg Hall. induction cs as [|c cs IH]; intros H ph.
  - intros s Hs. exact Hs.
  - apply Forall_cons in Hall. destruct Hall as [Hc Hall].
    destruct (marker c) as [m|] eqn:Hm; [|discriminate].
    simpl forEach.
    eapply hoare_bind.
    { apply (hoare_replay_register s0 H ph c false m Hreg
               (registering_guarded s0 c Hreg) Hm). }
    intros u. cbv beta.
    eapply hoare_weaken;
      [apply (IH Hall (clearedHost ph H ++
                       [newDecoration m (rulerOptions s0 c false) c false]) None)
      | auto | | auto].
    intros u' s Hs. cbv beta in Hs.
    assert (Hf : finalDecoration s0 c
                 = Some (newDecoration m (rulerOptions s0 c false) c false)).
    { unfold finalDecoration. now rewrite Hm. }
    change (omap (finalDecoration s0) (c :: cs))
      with (match finalDecoration s0 c with
            | Some d => d :: omap (finalDecoration s0) cs
            | None => omap (finalDecoration s0) cs
            end).
    rewrite Hf.
    destruct cs as [|c' cs'].
    + exact Hs.
    + cbn [clearedHost] in Hs. rewrite <- app_assoc in Hs. exact Hs.
Qed.

Lemma keeps_replaying_push (s0 : Addon) (H : list IDecoration) (ph : option nat)
    (ev : CommandEvent) (cap : Capability) :
  keeps (replaying s0 H ph) (push_listener ev cap).
Proof. unfold push_listener. repeat keeps_step. frame_by replaying_ext. Qed.

Lemma keeps_replaying_disposeListeners (s0 : Addon) (H : list IDecoration)
    (ph : option nat) (l : list nat) :
  keeps (replaying s0 H ph) (dispose_listeners l).
Proof.
  intros s Hs. rewrite dispose_listeners_closed. revert Hs.
  apply replaying_ext; reflexivity.
Qed.

Lemma hoare_never_thrown {A} (I : Addon -> Prop) (m : M A) :
  keeps I m -> (forall s, thrown (fst (m s)) = false) ->
  hoare I m (fun _ => I) (fun _ => False).
Proof.
  intros Hk Hn s Hs. specialize (Hk s Hs). specialize (Hn s).
  destruct (m s) as [[a|e] s']; [exact Hk | discriminate].
Qed.

Lemma push_listener_thrown (ev : CommandEvent) (cap : Capability) (s : Addon) :
  _commandDetectionListeners s <> None -> thrown (fst (push_listener ev cap s)) = false.
Proof.
  intros H. unfold push_listener, bind, get.
  destruct (_commandDetectionListeners s); [reflexivity | contradiction].
Qed.

Lemma hoare_and_keeps {A} (P I : Addon -> Prop) (m : M A) (Q : A -> Addon -> Prop)
    (E : Addon -> Prop) :
  hoare P m Q E -> keeps I m ->
  hoare (fun s => P s /\ I s) m (fun a s => Q a s /\ I s) E.
Proof.
  intros Hh Hk s [HP HI]. specialize (Hh s HP). specialize (Hk s HI).
  destruct (m s) as [[a|e] s']; [split|]; assumption.
Qed.

Lemma listening_ext (s s' : Addon) :
  _commandDetectionListeners s' = _commandDetectionListeners s ->
  listening s -> listening s'.
Proof. unfold listening. now intros ->. Qed.

Lemma keeps_listening_register (c : TerminalCommand) (before : bool) :
  keeps listening (registerCommandDecoration c before).
Proof.
  intros s H. destruct (guarded s c before) eqn:Hg.
  - now rewrite registerCommandDecoration_guarded.
  - destruct (marker c) as [m|] eqn:Hm.
    + rewrite (registerCommandDecoration_registered c before m s Hg Hm).
      unfold registered, cleared.
      destruct (registerDecorationAnswers _ _); destruct before;
        destruct (_placeholderDecoration s); simpl;
        revert H; apply listening_ext; reflexivity.
    + now rewrite registerCommandDecoration_no_marker.
Qed.

Lemma hoare_replay_push (s0 : Addon) (H : list IDecoration) (ph : option nat)
    (ev : CommandEvent) (cap : Capability) :
  hoare (fun s => replaying s0 H ph s /\ listening s) (push_listener ev cap)
    (fun _ s => replaying s0 H ph s /\ listening s) (fun _ => False).
Proof.
  intros s [Hr Hl]. unfold push_listener, bind, get.
  destruct (_commandDetectionListeners s) as [l|] eqn:E; [|now destruct Hl].
  simpl. split; [|discriminate].
  revert Hr. apply replaying_ext; reflexivity.
Qed.

Lemma keeps_replaying_register_guarded (s0 : Addon) (H : list IDecoration)
    (ph : option nat) (c : TerminalCommand) (before : bool) :
  guarded s0 c before = true ->
  keeps (replaying s0 H ph) (registerCommandDecoration c before).
Proof.
  intros Hg s Hs.
  assert (Hgs : guarded s c before = true).
  { destruct Hs as (_ & _ & _ & Hsetup). now rewrite (guarded_setup s s0 c before Hsetup). }
  now rewrite registerCommandDecoration_guarded.
Qed.

Lemma clearedHost_snoc (H : list IDecoration) (x : IDecoration) :
  clearedHost (Some (length H)) (H ++ [x]) = H ++ [dec_set_isDisposed true x].
Proof. simpl. apply alter_snoc. Qed.

(** The replay on an empty registry with a stale placeholder reference
    returns, and appends the replayed decorations. *)
Lemma hoare_replayAndSubscribe (s0 : Addon) (cap : Capability) (H : list IDecoration)
    (ph : option nat) :
  registering s0 ->
  Forall (fun c => isSome (marker c) = true) (commands cap) ->
  stale ph H ->
  hoare (replaying s0 H ph) (replayAndSubscribe cap)
    (fun _ s => replaying s0 (H ++ replayed s0 cap)
                  (replayedPlaceholder s0 cap (length H) ph) s /\ listening s)
    (fun _ => False).
Proof.
  intros Hreg Hall Hst. unfold replayAndSubscribe.
  eapply hoare_bind with (Q := fun _ s => replaying s0 H ph s /\ listening s).
  { intros s Hs. simpl. split; [|discriminate].
    revert Hs. apply replaying_ext; reflexivity. }
  intros u.
  eapply hoare_bind
    with (Q := fun _ s => replaying s0 (H ++ executingDecoration s0 cap)
                            (match executingDecoration s0 cap with
                             | [] => ph
                             | _ :: _ => Some (length H)
                             end) s /\ listening s).
  { unfold executingDecoration.
    destruct (executingCommandObject cap) as [c|].
    2:{ intros s [Hs Hl]. simpl. rewrite app_nil_r. now split. }
    destruct (marker c) as [m|] eqn:Hm.
    2:{ intros s [Hs Hl]. simpl. rewrite app_nil_r. now split. }
    simpl isSome. cbv iota.
    destruct (isSome (genericMarkProperties c)) eqn:Hgm.
    - rewrite app_nil_r.
      assert (Hg : guarded s0 c true = true).
      { unfold guarded. rewrite Hgm. simpl. now rewrite orb_true_r. }
      apply hoare_never_thrown.
      + apply keeps_and; apply keeps_ignore;
          [now apply keeps_replaying_register_guarded | apply keeps_listening_register].
      + intros s. unfold ignore, bind.
        destruct (guarded s c true) eqn:Hgs.
        * now rewrite registerCommandDecoration_guarded.
        * rewrite (registerCommandDecoration_registered c true m s Hgs Hm).
          unfold registered. now destruct (registerDecorationAnswers _ _).
    - assert (Hg : guarded s0 c true = false).
      { destruct Hreg as (Ht & Hd & _). unfold guarded. now rewrite Ht, Hd, Hgm. }
      eapply hoare_weaken;
        [apply (hoare_and_keeps _ listening _ _ _
                  (hoare_replay_register s0 H ph c true m Hreg Hg Hm));
         apply keeps_ignore, keeps_listening_register
        | auto | | auto].
      intros u' s [Hs Hl]. cbv beta in Hs. rewrite (clearedHost_stale ph H Hst) in Hs.
      now split. }
  intros u1.
  eapply hoare_bind; [apply hoare_replay_push|]. intros u2.
  eapply hoare_bind
    with (Q := fun _ s => replaying s0 (H ++ replayed s0 cap)
                            (replayedPlaceholder s0 cap (length H) ph) s /\ listening s).
  { eapply hoare_weaken;
      [apply (hoare_and_keeps _ listening _ _ _
                (hoare_replay_finished s0 (commands cap) Hreg Hall
                   (H ++ executingDecoration s0 cap)
                   (match executingDecoration s0 cap with
                    | [] => ph
                    | _ :: _ => Some (length H)
                    end)));
       apply keeps_forEach; intros c; apply keeps_ignore, keeps_listening_register
      | auto | | auto].
    intros u' s [Hs Hl]. cbv beta in Hs. split; [|exact Hl].
    unfold replayed, replayedPlaceholder.
    destruct (commands cap) as [|c cs]; [exact Hs|].
    assert (Hx : clearedHost
                   (match executingDecoration s0 cap with
                    | [] => ph
                    | _ :: _ => Some (length H)
                    end) (H ++ executingDecoration s0 cap)
                 = H ++ List.map (dec_set_isDisposed true) (executingDecoration s0 cap)).
    { unfold executingDecoration.
      destruct (executingCommandObject cap) as [c0|];
        [|simpl List.map; rewrite !app_nil_r; now apply clearedHost_stale].
      destruct (marker c0);
        [|simpl List.map; rewrite !app_nil_r; now apply clearedHost_stale].
      destruct (isSome (genericMarkProperties c0));
        [simpl List.map; rewrite !app_nil_r; now apply clearedHost_stale|].
      apply clearedHost_snoc. }
    rewrite Hx in Hs. rewrite app_assoc. exact Hs. }
  intros u3.
  eapply hoare_bind; [apply hoare_replay_push|]. intros u4.
  eapply hoare_bind; [apply hoare_replay_push|]. intros u5.
  apply hoare_replay_push.
Qed.

Lemma replaying_capabilities (s0 : Addon) (H : list IDecoration) (ph : option nat)
    (s : Addon) :
  replaying s0 H ph s -> capabilities s = capabilities s0.
Proof. intros (_ & _ & _ & Hs). unfold setup in Hs. now injection Hs. Qed.

Lemma hoare_get_bind {A} (P : Addon -> Prop) (k : Addon -> M A)
    (Q : A -> Addon -> Prop) (E : Addon -> Prop) :
  (forall s1, P s1 -> hoare (fun s => s = s1) (k s1) Q E) -> hoare P (bind get k) Q E.
Proof. intros H s Hs. unfold bind, get. exact (H s Hs s eq_refl). Qed.

Lemma hoare_pre {A} (P P' : Addon -> Prop) (m : M A) (Q : A -> Addon -> Prop)
    (E : Addon -> Prop) :
  hoare P m Q E -> (forall s, P' s -> P s) -> hoare P' m Q E.
Proof. intros H HP. eapply hoare_weaken; [exact H | exact HP | auto | auto]. Qed.

Lemma hoare_post {A} (P : Addon -> Prop) (m : M A) (Q Q' : A -> Addon -> Prop)
    (E : Addon -> Prop) :
  hoare P m Q E -> (forall a s, Q a s -> Q' a s) -> hoare P m Q' E.
Proof. intros H HQ. eapply hoare_weaken; [exact H | auto | exact HQ | auto]. Qed.

Lemma hoare_forEach_inv {A} (I E : Addon -> Prop) (l : list A) (body : A -> M unit) :
  (forall x, hoare I (body x) (fun _ => I) E) ->
  hoare I (forEach l body) (fun _ => I) E.
Proof.
  intros Hb. induction l as [|x l IH]; simpl.
  - intros s Hs. exact Hs.
  - eapply hoare_bind; [apply Hb | intros u; exact IH].
Qed.

Lemma hoare_replay_disposeListeners (s0 : Addon) (H : list IDecoration) (ph : option nat)
    (lo : option (list nat)) :
  hoare (replaying s0 H ph)
    (match lo with Some l => dispose_listeners l | None => ret tt end)
    (fun _ => replaying s0 H ph) (fun _ => False).
Proof.
  intros s Hs. destruct lo as [l|]; [|exact Hs].
  rewrite dispose_listeners_closed. revert Hs. apply replaying_ext; reflexivity.
Qed.

Lemma hoare_replay_add (s0 : Addon) (cap : Capability) (H : list IDecoration)
    (ph : option nat) :
  registering s0 -> capabilities s0 = Some cap ->
  Forall (fun c => isSome (marker c) = true) (commands cap) ->
  stale ph H ->
  hoare (replaying s0 H ph) _addCommandDetectionListeners
    (fun _ => replaying s0 (H ++ replayed s0 cap)
                (replayedPlaceholder s0 cap (length H) ph))
    (fun _ => False).
Proof.
  intros Hreg Hcap Hall Hst. unfold _addCommandDetectionListeners.
  apply hoare_get_bind. intros s1 Hs1.
  pose proof (replaying_capabilities s0 H ph s1 Hs1) as Hc. rewrite Hcap in Hc.
  rewrite Hc.
  eapply hoare_bind with (Q := fun _ => replaying s0 H ph).
  { eapply hoare_pre; [apply hoare_replay_disposeListeners|].
    intros s ->. exact Hs1. }
  intros u.
  eapply hoare_post; [apply (hoare_replayAndSubscribe s0 cap H ph Hreg Hall Hst)|].
  intros u' s [Hs _]. exact Hs.
Qed.

Lemma hoare_replay_attach (s0 : Addon) (cap : Capability) (H : list IDecoration)
    (ph : option nat) :
  registering s0 -> capabilities s0 = Some cap ->
  Forall (fun c => isSome (marker c) = true) (commands cap) ->
  stale ph H ->
  hoare (replaying s0 H ph) _attachToCommandCapability
    (fun _ => replaying s0 (H ++ replayed s0 cap)
                (replayedPlaceholder s0 cap (length H) ph))
    (fun _ => False).
Proof.
  intros Hreg Hcap Hall Hst. unfold _attachToCommandCapability.
  apply hoare_get_bind. intros s1 Hs1.
  pose proof (replaying_capabilities s0 H ph s1 Hs1) as Hc. rewrite Hcap in Hc.
  rewrite Hc. cbn [isSome].
  eapply hoare_bind.
  { eapply hoare_pre; [apply (hoare_replay_add s0 cap H ph Hreg Hcap Hall Hst)|].
    intros s ->. exact Hs1. }
  intros u s Hs. simpl. revert Hs. apply replaying_ext; reflexivity.
Qed.



Lemma hoare_modify (P : Addon -> Prop) (f : Addon -> Addon) (Q : unit -> Addon -> Prop)
    (E : Addon -> Prop) :
  (forall s, P s -> Q tt (f s)) -> hoare P (modify f) Q E.
Proof. intros H s Hs. simpl. now apply H. Qed.





(** The first rendering of a decoration that is not disposed, while no
    entry exists under the key of its marker, appends its entry. *)
Lemma rendered_entry (s : Addon) (d : nat) (dec : IDecoration) (fresh : HTMLElement) :
  hostDecorations s !! d = Some dec -> isDisposed dec = false ->
  map_get (marker_id (decorationMarker dec)) (_decorations s) = None ->
  _decorations (step s (Rendered d fresh)) =
  _decorations s ++
  [(marker_id (decorationMarker dec),
    {| decoration := d;
       disposables := _createDisposables (renderCommand dec);
       entryExitCode := exitCode (renderCommand dec);
       entryGenericMarkProperties := genericMarkProperties (renderCommand dec) |})].
Proof.
  intros Hl Hlive Hget. unfold step, handle, host_render, bind, get.
  rewrite Hl, Hlive. unfold onRender_listener, bind, get. rewrite Hl, Hget. simpl.
  rewrite snd_rethrow. simpl.
  apply map_set_absent. now apply map_get_None.
Qed.

(** A rendering of a live decoration in closed form: the entry is entered
    if its key is free, then the element is styled if it is new or the
    command sits at line 0, and an exception of the styling propagates. *)
Lemma host_render_closed (s : Addon) (d : nat) (dec : IDecoration) (fresh : HTMLElement) :
  hostDecorations s !! d = Some dec -> isDisposed dec = false ->
  let c := renderCommand dec in
  let key := marker_id (decorationMarker dec) in
  let el := match element dec with Some el => el | None => fresh end in
  let line0 := match marker c with
               | Some m => Nat.eqb (marker_line m) 0
               | None => false
               end in
  let r := if negb (token_in DecorationSelector.Codicon (classList el)) || line0
           then updateClasses_element (configuration s)
                  (updateLayout_element (configuration s) el)
                  (exitCode c) (genericMarkProperties c)
           else (Returned tt, el) in
  let s1 := match map_get key (_decorations s) with
            | Some _ => s
            | None =>
                set_decorations
                  (map_set key {| decoration := d;
                                  disposables := _createDisposables c;
                                  entryExitCode := exitCode c;
                                  entryGenericMarkProperties := genericMarkProperties c |}
                     (_decorations s))
                  (set_hostDecorations
                     (alter (fun x => dec_set_onDispose (onDispose x ++ [key]) x) d
                        (hostDecorations s)) s)
            end in
  let s2 := set_hostDecorations
              (alter (dec_set_element (Some (snd r))) d (hostDecorations s1)) s1 in
  thrown (fst (host_render d fresh s)) = thrown (fst r) /\
  snd (host_render d fresh s) = s2.
Proof.
  intros Hl Hlive c key el line0 r s1 s2.
  assert (H : host_render d fresh s = rethrow (fst r) s2).
  { unfold host_render. rewrite bind_get, Hl, Hlive.
    unfold onRender_listener. rewrite bind_get, Hl.
    subst s2 s1 r line0 el key c.
    destruct (map_get (marker_id (decorationMarker dec)) (_decorations s)); reflexivity. }
  rewrite H, fst_rethrow, snd_rethrow. split; [now destruct (fst r) | reflexivity].
Qed.

(** ** Switching between enabled modes *)

Lemma visibility_since (s : Addon) :
  shellIntegrationDecorationsEnabled (configuration s) <> Gutter ->
  since s (snd (_updateDecorationVisibility s)).
Proof.
  intros Hmode. unfold _updateDecorationVisibility. rewrite bind_get.
  destruct (shellIntegrationDecorationsEnabled (configuration s)); try congruence;
    refine ((_ : keeps (since s) _) s (since_refl s));
    unfold _updateGutterDecorationVisibility;
    repeat first [ keeps_step | apply keeps_since_attach | frame_by since_ext ].
Qed.

(** In the mode "gutter" the option is taken from the placeholder in place;
    the loop over the registry finds it empty after the listener's sweep. *)
Lemma visibility_gutter (s : Addon) :
  shellIntegrationDecorationsEnabled (configuration s) = Gutter ->
  _decorations s = [] ->
  exists s1,
    _updateDecorationVisibility s = _attachToCommandCapability s1 /\
    hostDecorations s1 =
      match _placeholderDecoration s with
      | Some p => alter (dec_set_overviewRulerOptions None) p (hostDecorations s)
      | None => hostDecorations s
      end /\
    flags s1 = (Some false, Some false).
Proof.
  intros Hmode Hm. unfold _updateDecorationVisibility. rewrite bind_get, Hmode, Hm.
  destruct (_placeholderDecoration s); eexists; (split; [reflexivity|]); split; reflexivity.
Qed.

Lemma visibility_flags (mode : DecorationsEnabled) (s : Addon) :
  shellIntegrationDecorationsEnabled (configuration s) = mode ->
  enabled_mode mode = true ->
  _decorations s = [] ->
  (mode = Both -> fst (_updateDecorationVisibility s) = Returned tt) ->
  flags (snd (_updateDecorationVisibility s)) = (Some (mode_has_ruler mode), Some false).
Proof.
  intros Hmode Hen Hm Hret. destruct mode; try discriminate.
  - specialize (Hret eq_refl). revert Hret.
    unfold _updateDecorationVisibility. rewrite bind_get, Hmode.
    set (sg := snd (_updateGutterDecorationVisibility true s)).
    rewrite (bind_returned _ _ s sg tt) by reflexivity.
    destruct (_attachToCommandCapability sg) as [[u|e] x] eqn:E.
    + rewrite (bind_returned _ _ _ _ _ E). intros _.
      apply (keeps_flags_attach (Some true, Some false)
               (set_decorationsDisabled (Some false)
                  (set_overviewRulerDecorations (Some true) x))).
      reflexivity.
    + rewrite (bind_thrown _ _ _ _ _ E). discriminate.
  - destruct (visibility_gutter s Hmode Hm) as (s1 & -> & _ & Hf).
    now apply keeps_flags_attach.
  - unfold _updateDecorationVisibility. rewrite bind_get, Hmode.
    apply (keeps_flags_attach (Some true, Some false)
             (set_decorationsDisabled (Some false)
                (set_overviewRulerDecorations (Some true)
                   (snd (_updateGutterDecorationVisibility false s))))).
    reflexivity.
Qed.

(** C8, as stated, fails: the listener of the setting disposes the
    decoration of every entry, which leaves the registry, and the rebind
    registers new decorations; and [_updateDecorationVisibility] itself, run
    for "both" on an addon whose entry has no overview ruler option, leaves
    that entry without the option. *)
Lemma C8_entries_disposed_not_patched :
  ~ patched_as_specified Both (finishedAddon Gutter) /\
  List.map (fun kv => (fst kv, decoration (snd kv))) (_decorations (finishedAddon Gutter))
    = [(2, 0)] /\
  _decorations (setVisibility Both (finishedAddon Gutter)) = [] /\
  List.map (fun d => (isDisposed d, isSome (overviewRulerOptions d)))
    (hostDecorations (setVisibility Both (finishedAddon Gutter)))
    = [(true, false); (false, false); (false, true)] /\
  List.map (fun d => (isDisposed d, isSome (overviewRulerOptions d)))
    (hostDecorations
       (snd (_updateDecorationVisibility
               (set_configuration (with_mode Both (configuration (finishedAddon Gutter)))
                  (finishedAddon Gutter)))))
    = [(false, false); (false, false); (false, true)].
Proof.
  split; [|repeat split; vm_compute; reflexivity].
  intros H.
  assert (Hin : In (2, {| decoration := 0;
                          disposables := [Click; MouseEnter; MouseLeave; MouseOut];
                          entryExitCode := Some 2%Z;
                          entryGenericMarkProperties := None |})
                  (_decorations (finishedAddon Gutter)))
    by (vm_compute; left; reflexivity).
  destruct (H _ _ Hin) as [Hin' _]. vm_compute in Hin'. exact Hin'.
Qed.

(** C8 (amended).  Whatever has happened to the addon since its
    construction, when the policy is set to one of the three enabled modes:
    the decoration of every entry is disposed, and so is the placeholder;
    the overview ruler option of no decoration the host holds is attached or
    changed, except that "gutter" takes it from the placeholder; and the two
    flags new decorations are registered under are set for the new mode (for
    "both", when the listener returns). *)
Theorem C8_mode_switch cap0 cfg th conts answers (evs : list Event)
    (mode : DecorationsEnabled) :
  let a := run evs (construct cap0 cfg th conts answers) in
  let a' := setVisibility mode a in
  enabled_mode mode = true ->
  (forall k e, In (k, e) (_decorations a) ->
     exists dec, hostDecorations a' !! decoration e = Some dec /\ isDisposed dec = true) /\
  (forall p dec0, _placeholderDecoration a = Some p -> hostDecorations a !! p = Some dec0 ->
     exists dec, hostDecorations a' !! p = Some dec /\ isDisposed dec = true /\
                 (mode = Gutter -> overviewRulerOptions dec = None)) /\
  (forall d dec0, hostDecorations a !! d = Some dec0 ->
     (mode = Gutter -> _placeholderDecoration a <> Some d) ->
     exists dec, hostDecorations a' !! d = Some dec /\
                 overviewRulerOptions dec = overviewRulerOptions dec0) /\
  ((mode = Both -> fst (setVisibility_run mode a) = Returned tt) ->
   flags a' = (Some (mode_has_ruler mode), Some false)).
Proof.
  intros a a' Hen.
  assert (Ht : tracked a) by apply tracked_always.
  set (ac := set_configuration (with_mode mode (configuration a)) a).
  assert (Htc : tracked ac) by now apply tracked_set_configuration.
  assert (Ha' : a' = snd (_updateDecorationVisibility (swept ac))).
  { subst a'. unfold setVisibility. now rewrite setVisibility_run_swept. }
  destruct (shaped_fields ac (swept ac) (shaped_swept ac))
    as (_ & Hph & Hcfg & _ & _).
  assert (Hmode : shellIntegrationDecorationsEnabled (configuration (swept ac)) = mode).
  { rewrite Hcfg. reflexivity. }
  assert (Hm : _decorations (swept ac) = []) by now apply swept_registry.
  assert (Hsw : since a (swept ac)) by exact (since_swept ac).
  (* what the method does to the decorations the sweep has left *)
  assert (Hafter : forall d dec1, hostDecorations (swept ac) !! d = Some dec1 ->
            exists dec, hostDecorations a' !! d = Some dec /\
                        (isDisposed dec1 = true -> isDisposed dec = true) /\
                        (mode = Gutter -> _placeholderDecoration a = Some d ->
                         overviewRulerOptions dec = None) /\
                        ((mode = Gutter -> _placeholderDecoration a <> Some d) ->
                         overviewRulerOptions dec = overviewRulerOptions dec1)).
  { intros d dec1 Hd. rewrite Ha'.
    assert (Hdec : mode = Gutter \/ mode <> Gutter)
      by (destruct mode; (left; reflexivity) || (right; discriminate)).
    destruct Hdec as [->|Hng].
    - destruct (visibility_gutter (swept ac) Hmode Hm) as (s1 & -> & Hs1 & _).
      rewrite Hph in Hs1. change (_placeholderDecoration ac) with (_placeholderDecoration a) in Hs1.
      assert (Hk : since s1 (snd (_attachToCommandCapability s1)))
        by (apply keeps_since_attach, since_refl).
      destruct (_placeholderDecoration a) as [p|] eqn:Hp.
      + destruct (decide (p = d)) as [->|Hne].
        * destruct (Hk d (dec_set_overviewRulerOptions None dec1))
            as (dec & Hl & Hr & Hdis).
          { rewrite Hs1, list_lookup_alter_eq, Hd. reflexivity. }
          exists dec. split; [exact Hl|]. split; [exact Hdis|].
          split; [intros _ _; rewrite Hr; reflexivity|].
          intros Hc. exfalso. now apply Hc.
        * destruct (Hk d dec1) as (dec & Hl & Hr & Hdis).
          { rewrite Hs1, list_lookup_alter_ne by exact Hne. exact Hd. }
          exists dec. split; [exact Hl|]. split; [exact Hdis|].
          split; [|intros _; exact Hr].
          intros _ Hc. congruence.
      + destruct (Hk d dec1) as (dec & Hl & Hr & Hdis).
        { rewrite Hs1. exact Hd. }
        exists dec. split; [exact Hl|]. split; [exact Hdis|].
        split; [|intros _; exact Hr].
        intros _ Hc. discriminate.
    - assert (Hvs : since (swept ac) (snd (_updateDecorationVisibility (swept ac))))
        by (apply visibility_since; now rewrite Hmode).
      destruct (Hvs d dec1 Hd) as (dec & Hl & Hr & Hdis).
      exists dec. split; [exact Hl|]. split; [exact Hdis|].
      split; [intros Hc; contradiction | intros _; exact Hr]. }
  split; [|split; [|split]].
  - intros k e Hin.
    destruct (swept_entries ac k e Htc Hin) as (dec1 & Hd1 & Hdis1).
    destruct (Hafter _ _ Hd1) as (dec & Hl & Hdis & _).
    exists dec. auto.
  - intros p dec0 Hp Hd0.
    destruct (swept_placeholder ac p dec0 Hp Hd0) as (dec1 & Hd1 & Hdis1).
    destruct (Hafter _ _ Hd1) as (dec & Hl & Hdis & Hg & _).
    exists dec. auto.
  - intros d dec0 Hd0 Hnp.
    destruct (Hsw d dec0 Hd0) as (dec1 & Hd1 & Hr1 & _).
    destruct (Hafter _ _ Hd1) as (dec & Hl & _ & _ & Hr).
    exists dec. split; [exact Hl|]. rewrite Hr by exact Hnp. exact Hr1.
  - intros Hret. rewrite Ha'. apply visibility_flags; try assumption.
    intros Hb. specialize (Hret Hb). rewrite setVisibility_run_swept in Hret. exact Hret.
Qed.

Lemma C8_mode_switch_witness :
  flags
    (setVisibility Both
       (run [Activate; Rendered 0 freshElement]
          (construct (Some (sampleCapability false true)) (sampleConfiguration Gutter)
             sampleTheme [[]] (fun _ => true)))) = (Some true, Some false).
Proof.
  pose proof (C8_mode_switch (Some (sampleCapability false true))
                (sampleConfiguration Gutter) sampleTheme [[]] (fun _ => true)
                [Activate; Rendered 0 freshElement] Both) as H.
  cbv zeta in H. destruct (H eq_refl) as (_ & _ & _ & Hf).
  apply Hf. intros _. vm_compute. reflexivity.
Defined.

(** ** I4 *)

















(** * Further properties of the addon *)

(** ** The context menu *)

(** The action list of [_getCommandActions] is a well-formed menu: it ends
    with the "learn" action, it does not begin with a separator, and a
    separator is followed by an action, never by another separator or by
    the end of the list. *)
Theorem command_actions_well_formed (c : TerminalCommand) :
  let actions := _getCommandActions c in
  last actions = Some learnShellIntegrationAction /\
  head actions <> Some Separator /\
  (forall i, actions !! i = Some Separator ->
     exists id label tooltip enabled run,
       actions !! S i = Some (Action id label tooltip enabled run)).
Proof.
  unfold _getCommandActions.
  destruct (negb (String.eqb (command c) "")), (hasOutput c); simpl;
    (split; [reflexivity|]); (split; [discriminate|]);
    intros i H;
    do 7 (try (destruct i as [|i]; simpl in H;
               [first [discriminate | simpl; repeat eexists] |]));
    discriminate.
Qed.

Lemma command_actions_well_formed_witness :
  exists id label tooltip enabled run,
    _getCommandActions (sampleCommand "make" 2 (Some 2%Z) true) !! 3 =
    Some (Action id label tooltip enabled run).
Proof.
  pose proof (command_actions_well_formed (sampleCommand "make" 2 (Some 2%Z) true)) as H.
  cbv zeta in H. destruct H as (_ & _ & H).
  apply (H 2). reflexivity.
Defined.

(** ** Layout and classes *)

Lemma setLength_kept_or_valid (nonNegative : bool) (x : float) (old : option float)
    (y : float) :
  setLength nonNegative x old = Some y -> old = Some y \/ validLength nonNegative y = true.
Proof.
  unfold setLength. destruct (validLength nonNegative x) eqn:E.
  - intros [= <-]. now right.
  - intros ->. now left.
Qed.

Lemma updateLayout_element_twice (cfg : Configuration) (el : HTMLElement) :
  updateLayout_element cfg (updateLayout_element cfg el) = updateLayout_element cfg el.
Proof.
  unfold updateLayout_element.
  destruct (fontSize cfg), (defaultFontSize cfg), (lineHeight cfg); try reflexivity.
  unfold layout_style. cbn [classList style width height styleFontSize marginLeft].
  now rewrite !setLength_twice.
Qed.

(** [_updateLayout] leaves the classes of the element alone and sets a scale
    factor that never exceeds 1.  Each of the four properties ends with the
    value it had or with a length the style accepts: a finite number, not
    negative for the width, the height and the font size.  A second call
    changes nothing, and the element is left as it is when one of the three
    settings is not a number. *)
Theorem updateLayout_stable (cfg : Configuration) (el : HTMLElement) :
  classList (updateLayout_element cfg el) = classList el /\
  updateLayout_element cfg (updateLayout_element cfg el) = updateLayout_element cfg el /\
  (forall fs dfs, (scalar fs dfs <=? 1)%float = true) /\
  (forall x,
     (width (style (updateLayout_element cfg el)) = Some x ->
      width (style el) = Some x \/ validLength true x = true) /\
     (height (style (updateLayout_element cfg el)) = Some x ->
      height (style el) = Some x \/ validLength true x = true) /\
     (styleFontSize (style (updateLayout_element cfg el)) = Some x ->
      styleFontSize (style el) = Some x \/ validLength true x = true) /\
     (marginLeft (style (updateLayout_element cfg el)) = Some x ->
      marginLeft (style el) = Some x \/ validLength false x = true)) /\
  (fontSize cfg = CNotANumber \/ defaultFontSize cfg = CNotANumber \/
   lineHeight cfg = CNotANumber -> updateLayout_element cfg el = el).
Proof.
  unfold updateLayout_element.
  split; [|split; [|split; [|split]]].
  - destruct (fontSize cfg), (defaultFontSize cfg), (lineHeight cfg); reflexivity.
  - fold (updateLayout_element cfg el). fold (updateLayout_element cfg).
    apply updateLayout_element_twice.
  - intros fs dfs. unfold scalar.
    destruct (fs / dfs <=? 1)%float eqn:E; [exact E | reflexivity].
  - intros x.
    destruct (fontSize cfg), (defaultFontSize cfg), (lineHeight cfg);
      try (repeat split; intros H; now left).
    unfold layout_style. cbn [classList style width height styleFontSize marginLeft].
    repeat split; apply setLength_kept_or_valid.
  - intros [H | [H | H]]; rewrite H;
      destruct (fontSize cfg), (defaultFontSize cfg), (lineHeight cfg); reflexivity.
Qed.

Lemma updateLayout_stable_witness :
  (width (style sizedElement) = Some 1%float \/ validLength true 1 = true) /\
  (marginLeft (style sizedElement) = Some 8.5%float \/ validLength false 8.5 = true).
Proof.
  pose proof (updateLayout_stable (layoutConfiguration (-7) 1.2) sizedElement) as H.
  destruct H as (_ & _ & _ & H & _).
  split.
  - apply (proj1 (H 1%float)). reflexivity.
  - apply (proj2 (proj2 (proj2 (H 8.5%float)))). reflexivity.
Defined.

Lemma remove_each_iterating_past (fuel i : nat) (l : list string) :
  (length l <= i)%nat -> remove_each_iterating fuel i l = l.
Proof.
  intros H. destruct fuel; simpl; [reflexivity|].
  assert (E : nth_error l i = None) by now apply nth_error_None.
  now rewrite E.
Qed.

Lemma classList_remove_middle (pre l : list string) (x : string) :
  ~ In x pre -> ~ In x l -> classList_remove x (pre ++ x :: l) = pre ++ l.
Proof.
  intros Hpre Hl. unfold classList_remove.
  assert (Hid : forall m, ~ In x m ->
                  List.filter (fun c => negb (String.eqb c x)) m = m).
  { induction m as [|y m IH]; simpl; intros Hm; [reflexivity|].
    destruct (String.eqb_spec y x) as [->|Hne]; simpl.
    - exfalso. apply Hm. now left.
    - f_equal. apply IH. intros Hin. apply Hm. now right. }
  rewrite List.filter_app. simpl. rewrite String.eqb_refl. simpl.
  now rewrite (Hid pre Hpre), (Hid l Hl).
Qed.

Lemma remove_each_iterating_odd (fuel : nat) (pre l : list string) :
  List.NoDup (pre ++ l) -> (length l <= fuel)%nat ->
  remove_each_iterating fuel (length pre) (pre ++ l) = pre ++ odd_positions l.
Proof.
  revert pre l. induction fuel as [|fuel IH]; intros pre l Hnd Hlen.
  - destruct l; simpl in Hlen; [|lia]. reflexivity.
  - destruct l as [|x [|y l]].
    + simpl odd_positions. apply remove_each_iterating_past.
      rewrite length_app. simpl. lia.
    + cbn [odd_positions remove_each_iterating].
      rewrite nth_error_app2 by lia. rewrite Nat.sub_diag. cbn [nth_error].
      apply List.NoDup_remove_2 in Hnd.
      rewrite classList_remove_middle.
      * apply remove_each_iterating_past. rewrite length_app. simpl. lia.
      * intros Hin. apply Hnd. apply in_or_app. now left.
      * intros [].
    + cbn [odd_positions remove_each_iterating].
      rewrite nth_error_app2 by lia. rewrite Nat.sub_diag. cbn [nth_error].
      pose proof (List.NoDup_remove_1 _ _ _ Hnd) as Hnd1.
      pose proof (List.NoDup_remove_2 _ _ _ Hnd) as Hnd2.
      rewrite classList_remove_middle.
      * replace (pre ++ y :: l) with ((pre ++ [y]) ++ l)
          by (rewrite <- app_assoc; reflexivity).
        replace (S (length pre)) with (length (pre ++ [y]))
          by (rewrite length_app; simpl; lia).
        rewrite IH.
        -- rewrite <- app_assoc. reflexivity.
        -- rewrite <- app_assoc. exact Hnd1.
        -- simpl in Hlen. lia.
      * intros Hin. apply Hnd2. apply in_or_app. now left.
      * intros Hin. apply Hnd2. apply in_or_app. now right.
Qed.

Lemma classList_addEach_when_returned (calls : list (list string)) (l : list string) :
  fst (classList_addEach calls l) = Returned tt ->
  snd (classList_addEach calls l) = append_tokens (List.concat calls) l.
Proof.
  intros H. destruct (forallb (forallb valid_token) calls) eqn:Hv.
  - now rewrite classList_addEach_returned.
  - destruct (classList_addEach_thrown calls l Hv) as [message Hm]. congruence.
Qed.

(** The loop of [_updateClasses] that is to empty the class list removes
    the classes at the even positions only, the list shrinking under the
    iterator: the element keeps the classes it had at the odd positions, and
    when the call returns they are followed by the classes of the command
    that the element did not have among them. *)
Theorem updateClasses_keeps_every_other (cfg : Configuration) (el : HTMLElement)
    (code : option Z) (gmp : option GenericMarkProperties) :
  List.NoDup (classList el) ->
  let r := updateClasses_element cfg el code gmp in
  classList_removeEach (classList el) = odd_positions (classList el) /\
  (forall t, In t (odd_positions (classList el)) -> In t (classList (snd r))) /\
  (fst r = Returned tt ->
   classList (snd r) =
   append_tokens (_updateClasses_tokens cfg code gmp) (odd_positions (classList el))).
Proof.
  intros Hnd r. subst r.
  assert (H : classList_removeEach (classList el) = odd_positions (classList el)).
  { unfold classList_removeEach.
    exact (remove_each_iterating_odd (length (classList el)) [] (classList el) Hnd
             (le_n _)). }
  split; [exact H|]. unfold updateClasses_element. cbn [fst snd classList].
  rewrite H. split.
  - intros t Hin. now apply classList_addEach_keeps.
  - intros Hr. now apply classList_addEach_when_returned.
Qed.

Lemma updateClasses_keeps_every_other_witness :
  In "error"
    (classList
       (snd (updateClasses_element (sampleConfiguration Both)
               {| classList := ["xterm-decoration"; "error"; "codicon"];
                  style := noStyle |}
               (Some 0%Z) None))) /\
  classList
    (snd (updateClasses_element (sampleConfiguration Both)
            {| classList := ["xterm-decoration"; "error"; "codicon"]; style := noStyle |}
            (Some 0%Z) None)) =
  ["error"; "terminal-command-decoration"; "codicon"; "xterm-decoration";
   "codicon-primitive-dot"].
Proof.
  pose proof (updateClasses_keeps_every_other (sampleConfiguration Both)
                {| classList := ["xterm-decoration"; "error"; "codicon"];
                   style := noStyle |} (Some 0%Z) None) as H.
  cbv zeta in H. destruct H as (_ & H1 & H2).
  - repeat constructor; simpl; intuition discriminate.
  - split.
    + apply H1. simpl. tauto.
    + rewrite H2; reflexivity.
Defined.

(** ** The gutter *)

Lemma token_in_remove (tok c : string) (l : list string) :
  token_in tok (classList_remove c l) = token_in tok l && negb (String.eqb tok c).
Proof.
  apply Bool.eq_iff_eq_true. rewrite andb_true_iff, negb_true_iff, !token_in_In.
  unfold classList_remove. rewrite filter_In, negb_true_iff.
  split.
  - intros [H1 H2]. split; [exact H1 | exact H2].
  - intros [H1 H2]. split; [exact H1 | exact H2].
Qed.

Lemma token_in_add1 (tok c : string) (l : list string) :
  token_in tok (append_tokens [c] l) = token_in tok l || String.eqb tok c.
Proof.
  apply Bool.eq_iff_eq_true. rewrite orb_true_iff, !token_in_In, String.eqb_eq.
  simpl. destruct (token_in c l) eqn:E.
  - apply token_in_In in E. split; [now left|]. intros [H | ->]; assumption.
  - rewrite in_app_iff. simpl. intuition congruence.
Qed.

(** [_updateGutterDecorationVisibility] puts the class [hide] on every
    container when the gutter is not to be seen and takes it from every
    container when it is, touches no other class, and changes nothing when
    it is called again. *)
Theorem gutter_visibility_toggle (visible : bool) (a : Addon) :
  let a' := snd (_updateGutterDecorationVisibility visible a) in
  fst (_updateGutterDecorationVisibility visible a) = Returned tt /\
  Forall (fun cl => token_in DecorationSelector.Hide cl = negb visible) (containers a') /\
  Forall2 (fun cl cl' => forall tok, tok <> DecorationSelector.Hide ->
                                     token_in tok cl' = token_in tok cl)
    (containers a) (containers a') /\
  snd (_updateGutterDecorationVisibility visible a') = a'.
Proof.
  unfold _updateGutterDecorationVisibility, modify. cbn [fst snd].
  split; [reflexivity|].
  set (f := fun cl => if visible then classList_remove DecorationSelector.Hide cl
                      else append_tokens [DecorationSelector.Hide] cl).
  assert (Hhide : forall cl, token_in DecorationSelector.Hide (f cl) = negb visible).
  { intros cl. subst f. cbv beta. destruct visible.
    - rewrite token_in_remove, String.eqb_refl. apply andb_false_r.
    - rewrite token_in_add1, String.eqb_refl. apply orb_true_r. }
  assert (Hidem : forall cl, f (f cl) = f cl).
  { intros cl. pose proof (Hhide cl) as H. subst f. cbv beta in *. destruct visible.
    - unfold classList_remove. induction cl as [|x cl IH]; simpl; [reflexivity|].
      destruct (negb (String.eqb x DecorationSelector.Hide)) eqn:E; simpl.
      + rewrite E. f_equal. apply IH.
        unfold classList_remove in H. simpl in H. rewrite E in H.
        rewrite token_in_remove, String.eqb_refl. apply andb_false_r.
      + apply IH. rewrite token_in_remove, String.eqb_refl. apply andb_false_r.
    - simpl in *. now rewrite H. }
  split; [|split].
  - simpl. apply Forall_forall. intros cl Hin. apply list_elem_of_In in Hin.
    apply in_map_iff in Hin. destruct Hin as (cl0 & <- & _). apply Hhide.
  - simpl. induction (containers a) as [|cl l IH]; simpl; constructor; [|exact IH].
    intros tok Hne. apply String.eqb_neq in Hne. subst f. cbv beta. destruct visible.
    + rewrite token_in_remove, Hne. apply andb_true_r.
    + rewrite token_in_add1, Hne. apply orb_false_r.
  - unfold set_containers. simpl. f_equal.
    rewrite List.map_map. apply List.map_ext. exact Hidem.
Qed.

Lemma gutter_visibility_toggle_witness :
  Forall2 (fun cl cl' => forall tok, tok <> DecorationSelector.Hide ->
                                     token_in tok cl' = token_in tok cl)
    (containers (sampleAddon false false Both))
    (containers (snd (_updateGutterDecorationVisibility false
                        (sampleAddon false false Both)))).
Proof.
  pose proof (gutter_visibility_toggle false (sampleAddon false false Both)) as H.
  cbv zeta in H. destruct H as (_ & _ & H & _). exact H.
Defined.

(** ** Hover and context menu *)

(** The class [default], which takes the pointer from a decoration, is
    among the classes of a command exactly when hovering its decoration
    shows nothing: no listener of [mouseenter] is attached, or the task it
    hands to the hover delayer returns without a hover.  The context menu is
    attached exactly to the finished commands without a generic mark. *)
Theorem pointer_matches_hover (cfg : Configuration) (c : TerminalCommand) :
  (In DecorationSelector.Default
     (_updateClasses_tokens cfg (exitCode c) (genericMarkProperties c)) <->
   (forall ago, In MouseEnter (_createDisposables c) -> hoverContent c ago = None)) /\
  (In Click (_createDisposables c) <->
   genericMarkProperties c = None /\ exitCode c <> None).
Proof.
  split.
  - unfold _updateClasses_tokens, _updateClasses_calls, _createDisposables,
      hoverContent, _createHover.
    destruct (genericMarkProperties c) as [g|].
    + destruct (truthy_opt_string (hoverMessage g)) eqn:Hh.
      * split.
        -- simpl. unfold DecorationSelector.Default. intuition discriminate.
        -- intros H. exfalso.
           assert (Hin : In MouseEnter [MouseEnter; MouseLeave; MouseOut]) by now left.
           destruct (exitCode c); specialize (H "" Hin);
             destruct (hoverMessage g); discriminate.
      * split; [intros _ ago _; reflexivity|].
        intros _. simpl. tauto.
    + destruct (exitCode c) as [z|].
      * split.
        -- destruct (truthy_number z); simpl; unfold DecorationSelector.Default;
             intuition discriminate.
        -- intros H. exfalso.
           assert (Hin : In MouseEnter [Click; MouseEnter; MouseLeave; MouseOut])
             by (right; now left).
           specialize (H "" Hin).
           destruct (truthy_number z); [destruct (z =? -1)%Z|]; discriminate.
      * split; [intros _ ago []|]. intros _. simpl. tauto.
  - unfold _createDisposables, _createHover.
    destruct (genericMarkProperties c) as [g|], (exitCode c) as [z|]; simpl;
      intuition (try discriminate; try congruence).
Qed.

Lemma pointer_matches_hover_witness :
  In DecorationSelector.Default
    (_updateClasses_tokens (sampleConfiguration Both)
       (exitCode (sampleCommand "ls" 1 None false))
       (genericMarkProperties (sampleCommand "ls" 1 None false))).
Proof.
  pose proof (pointer_matches_hover (sampleConfiguration Both)
                (sampleCommand "ls" 1 None false)) as H.
  destruct H as (H & _). apply H. intros ago Hin. destruct Hin.
Defined.

(** ** The decoration a registration creates *)

Lemma cleared_setup (s : Addon) : setup (cleared s) = setup s.
Proof. unfold cleared. now destruct (_placeholderDecoration s). Qed.

(** The decoration [registerCommandDecoration] creates sits at the marker of
    the command, is not rendered yet and has an overview ruler option exactly
    when [_overviewRulerDecorations] is set; the option has the colour of the
    exit code under the theme, and its position is the right for a final
    decoration of a command with a non-zero exit code and the left
    otherwise, so for every placeholder. *)
Theorem registered_decoration_options (c : TerminalCommand) (before : bool)
    (m : Marker) (s : Addon) :
  guarded s c before = false -> marker c = Some m ->
  registerDecorationAnswers s (registerDecorationCalls s) = true ->
  exists dec,
    hostDecorations (snd (registerCommandDecoration c before s))
      !! length (hostDecorations s) = Some dec /\
    decorationMarker dec = m /\ renderCommand dec = c /\ element dec = None /\
    isSome (overviewRulerOptions dec) = truthy_flag (_overviewRulerDecorations s) /\
    (forall o, overviewRulerOptions dec = Some o ->
       color o = commandColor (theme s) (exitCode c) /\
       position o = Some (if negb before && truthy_exitCode (exitCode c)
                          then RulerRight else RulerLeft)).
Proof.
  intros Hg Hm Hans.
  rewrite (registerCommandDecoration_registered c before m s Hg Hm).
  unfold registered. rewrite cleared_answers, cleared_calls, Hans.
  exists (newDecoration m (rulerOptions s c before) c before).
  split.
  - rewrite (rulerOptions_setup (cleared s) s c before (cleared_setup s)).
    rewrite <- (cleared_length s).
    destruct before; simpl; apply list_lookup_middle; reflexivity.
  - simpl. repeat split.
    + unfold rulerOptions. now destruct (truthy_flag (_overviewRulerDecorations s)).
    + unfold rulerOptions in H.
      destruct (truthy_flag (_overviewRulerDecorations s)); [|discriminate].
      injection H as <-. now destruct before.
    + unfold rulerOptions in H.
      destruct (truthy_flag (_overviewRulerDecorations s)); [|discriminate].
      injection H as <-. now destruct before.
Qed.

Lemma registered_decoration_options_witness :
  exists dec,
    hostDecorations
      (snd (registerCommandDecoration (sampleCommand "make" 2 (Some 2%Z) true) false
              (startedAddon Both))) !! 1 = Some dec /\
    overviewRulerOptions dec = Some {| color := "#f14c4c"; position := Some RulerRight |}.
Proof.
  assert (Hg : guarded (startedAddon Both) (sampleCommand "make" 2 (Some 2%Z) true) false
               = false) by (vm_compute; reflexivity).
  assert (Ha : registerDecorationAnswers (startedAddon Both)
                 (registerDecorationCalls (startedAddon Both)) = true)
    by (vm_compute; reflexivity).
  destruct (registered_decoration_options (sampleCommand "make" 2 (Some 2%Z) true) false
              {| marker_id := 2; marker_line := 5 |} (startedAddon Both) Hg eq_refl Ha)
    as (dec & Hl & _ & _ & _ & Hs & Ho).
  exists dec. split.
  - replace 1 with (length (hostDecorations (startedAddon Both)))
      by (vm_compute; reflexivity).
    exact Hl.
  - destruct (overviewRulerOptions dec) as [o|] eqn:E.
    + destruct (Ho o eq_refl) as [Hc Hp]. destruct o as [col pos]. simpl in Hc, Hp.
      rewrite Hc, Hp. vm_compute. reflexivity.
    + exfalso. revert Hs. vm_compute. discriminate.
Defined.

(** ** Rendering *)

Lemma set_hostDecorations_same (s : Addon) : set_hostDecorations (hostDecorations s) s = s.
Proof. now destruct s. Qed.

Lemma map_get_set {V} (k : nat) (v : V) (m : JsMap V) : map_get k (map_set k v m) = Some v.
Proof.
  unfold map_get. induction m as [|kv m IH]; simpl.
  - now rewrite Nat.eqb_refl.
  - destruct (Nat.eqb (fst kv) k) eqn:E; simpl.
    + now rewrite Nat.eqb_refl.
    + rewrite E. exact IH.
Qed.

(** A decoration that is in the registry under its marker and whose element
    has the class [codicon] is rendered again without any effect, unless its
    command sits at line 0. *)
Lemma host_render_settled (s : Addon) (d : nat) (dec : IDecoration) (el fresh : HTMLElement) :
  hostDecorations s !! d = Some dec -> isDisposed dec = false ->
  element dec = Some el -> token_in DecorationSelector.Codicon (classList el) = true ->
  map_get (marker_id (decorationMarker dec)) (_decorations s) <> None ->
  (forall m, marker (renderCommand dec) = Some m -> marker_line m <> 0) ->
  host_render d fresh s = (Returned tt, s).
Proof.
  intros Hl Hlive Hel Hcod Hget Hline.
  unfold host_render, bind, get. rewrite Hl, Hlive, Hel.
  unfold onRender_listener, bind, get. rewrite Hl.
  destruct (map_get (marker_id (decorationMarker dec)) (_decorations s)); [|congruence].
  simpl. rewrite Hcod. simpl.
  assert (Hl0 : match marker (renderCommand dec) with
                | Some m => Nat.eqb (marker_line m) 0
                | None => false
                end = false).
  { destruct (marker (renderCommand dec)) as [m|] eqn:Hm; [|reflexivity].
    apply Nat.eqb_neq. now apply Hline. }
  rewrite Hl0. unfold alter_decoration, modify. f_equal.
  rewrite (alter_lookup_id _ _ _ _ Hl); [apply set_hostDecorations_same|].
  destruct dec; simpl in *. now rewrite Hel.
Qed.

(** Rendering is idempotent: when the host renders a decoration a second
    time the addon is left as the first rendering left it (for a command
    that does not sit at line 0 of the buffer): the entry is not entered
    again and the element is not styled again. *)
Theorem render_idempotent (a : Addon) (d : nat) (fresh fresh' : HTMLElement) :
  (forall dec m, hostDecorations a !! d = Some dec ->
     marker (renderCommand dec) = Some m -> marker_line m <> 0) ->
  step (step a (Rendered d fresh)) (Rendered d fresh') = step a (Rendered d fresh).
Proof.
  intros Hline. unfold step at 1. unfold handle.
  set (a1 := step a (Rendered d fresh)).
  destruct (hostDecorations a !! d) as [dec|] eqn:Hl.
  2: { subst a1. unfold step, handle, host_render, bind, get. rewrite Hl. simpl.
       now rewrite Hl. }
  destruct (isDisposed dec) eqn:Hlive.
  { subst a1. unfold step, handle, host_render, bind, get. rewrite Hl, Hlive. simpl.
    now rewrite Hl, Hlive. }
  specialize (Hline dec).
  assert (Hl0 : match marker (renderCommand dec) with
                | Some m => Nat.eqb (marker_line m) 0
                | None => false
                end = false).
  { destruct (marker (renderCommand dec)) as [m|] eqn:Hm; [|reflexivity].
    apply Nat.eqb_neq. now apply (Hline m). }
  set (el0 := match element dec with Some el => el | None => fresh end).
  set (r := if negb (token_in DecorationSelector.Codicon (classList el0))
            then updateClasses_element (configuration a)
                   (updateLayout_element (configuration a) el0)
                   (exitCode (renderCommand dec)) (genericMarkProperties (renderCommand dec))
            else (Returned tt, el0)).
  set (el' := snd r).
  assert (Hcod : token_in DecorationSelector.Codicon (classList el') = true).
  { subst el' r. destruct (token_in DecorationSelector.Codicon (classList el0)) eqn:E;
      cbn [negb]; [exact E|].
    apply updateClasses_codicon. }
  assert (H1 : exists dec1,
             hostDecorations a1 !! d = Some dec1 /\ isDisposed dec1 = false /\
             element dec1 = Some el' /\
             decorationMarker dec1 = decorationMarker dec /\
             renderCommand dec1 = renderCommand dec /\
             map_get (marker_id (decorationMarker dec)) (_decorations a1) <> None).
  { subst a1. unfold step, handle, host_render, bind, get. rewrite Hl, Hlive.
    unfold onRender_listener, bind, get. rewrite Hl.
    fold el0.
    destruct (map_get (marker_id (decorationMarker dec)) (_decorations a)) eqn:Hget.
    - simpl. rewrite Hl0, orb_false_r. fold r. rewrite snd_rethrow. fold el'.
      eexists. cbn [hostDecorations set_hostDecorations _decorations].
      rewrite list_lookup_alter_eq, Hl. simpl.
      repeat split; try reflexivity; try assumption. now rewrite Hget.
    - simpl. rewrite Hl0, orb_false_r. fold r. rewrite snd_rethrow. fold el'.
      eexists. cbn [hostDecorations set_hostDecorations set_decorations _decorations].
      rewrite !list_lookup_alter_eq, Hl. simpl.
      repeat split; try reflexivity; try assumption. now rewrite map_get_set. }
  destruct H1 as (dec1 & Hl1 & Hlive1 & Hel1 & Hm1 & Hc1 & Hget1).
  rewrite (host_render_settled a1 d dec1 el' fresh' Hl1 Hlive1 Hel1 Hcod).
  - reflexivity.
  - now rewrite Hm1.
  - intros m Hm. rewrite Hc1 in Hm. now apply (Hline m).
Qed.

Lemma render_idempotent_witness :
  step (step (run [Activate; CommandStarted (sampleCommand "ls" 1 None false)]
                (construct (Some (sampleCapability false false)) (sampleConfiguration Both)
                   sampleTheme [[]] (fun _ => true)))
          (Rendered 0 freshElement)) (Rendered 0 freshElement) =
  step (run [Activate; CommandStarted (sampleCommand "ls" 1 None false)]
          (construct (Some (sampleCapability false false)) (sampleConfiguration Both)
             sampleTheme [[]] (fun _ => true)))
    (Rendered 0 freshElement).
Proof.
  apply render_idempotent.
  intros dec m Hl Hm.
  assert (Hd : hostDecorations
                 (run [Activate; CommandStarted (sampleCommand "ls" 1 None false)]
                    (construct (Some (sampleCapability false false))
                       (sampleConfiguration Both) sampleTheme [[]] (fun _ => true)))
               !! 0 = Some (newDecoration {| marker_id := 1; marker_line := 5 |}
                              (Some {| color := ""; position := Some RulerLeft |})
                              (sampleCommand "ls" 1 None false) true))
    by (vm_compute; reflexivity).
  rewrite Hd in Hl. injection Hl as <-. simpl in Hm. injection Hm as <-.
  simpl. discriminate.
Defined.

(** ** The registry *)

Lemma tracked_decorations_NoDup (a : Addon) :
  tracked a -> List.NoDup (List.map (fun kv => decoration (snd kv)) (_decorations a)).
Proof.
  intros (H1 & H2 & _).
  assert (Hinj : forall kv1 kv2, In kv1 (_decorations a) -> In kv2 (_decorations a) ->
                   decoration (snd kv1) = decoration (snd kv2) -> fst kv1 = fst kv2).
  { intros [k1 e1] [k2 e2] Hin1 Hin2 Heq. simpl in *.
    destruct (H2 k1 e1 Hin1) as (d1 & Hl1 & _ & Hm1 & _).
    destruct (H2 k2 e2 Hin2) as (d2 & Hl2 & _ & Hm2 & _).
    rewrite Heq in Hl1. rewrite Hl1 in Hl2. injection Hl2 as <-. congruence. }
  revert H1 Hinj. generalize (_decorations a) as m.
  induction m as [|kv m IH]; simpl; intros Hnd Hinj; constructor.
  - intros Hin. apply in_map_iff in Hin. destruct Hin as (kv' & Heq & Hin').
    apply (List.NoDup_cons_iff (fst kv) (List.map fst m)) in Hnd.
    destruct Hnd as [Hnot _]. apply Hnot.
    rewrite <- (Hinj kv' kv (or_intror Hin') (or_introl eq_refl) Heq).
    apply in_map_iff. now exists kv'.
  - apply IH.
    + now apply (List.NoDup_cons_iff (fst kv) (List.map fst m)) in Hnd.
    + intros kv1 kv2 Hin1 Hin2. apply Hinj; now right.
Qed.

(** Whatever has happened to the addon since its construction, the registry
    is sound: no two entries have the same key or the same decoration, and
    the decoration of an entry is a decoration of the host that is not
    disposed and sits at the marker whose id is the key of the entry. *)
Theorem registry_sound cap cfg th conts answers (evs : list Event) :
  let a := run evs (construct cap cfg th conts answers) in
  List.NoDup (List.map fst (_decorations a)) /\
  List.NoDup (List.map (fun kv => decoration (snd kv)) (_decorations a)) /\
  Forall (fun kv => exists dec,
            hostDecorations a !! decoration (snd kv) = Some dec /\
            isDisposed dec = false /\
            marker_id (decorationMarker dec) = fst kv)
    (_decorations a).
Proof.
  intros a. destruct (tracked_always cap cfg th conts answers evs) as (H1 & H2 & _).
  fold a in H1, H2.
  split; [exact H1|]. split.
  - apply tracked_decorations_NoDup. apply tracked_always.
  - apply Forall_forall. intros [k e] Hin. apply list_elem_of_In in Hin.
    destruct (H2 k e Hin) as (dec & Hl & Hlive & Hm & _).
    exists dec. auto.
Qed.

(** ** Entries stay until their decoration is disposed *)

Lemma held_ext (k : nat) (e : IDisposableDecoration) (s s' : Addon) :
  hostDecorations s' = hostDecorations s -> _decorations s' = _decorations s ->
  held k e s -> held k e s'.
Proof. unfold held. now intros -> ->. Qed.

Lemma held_since (k : nat) (e : IDisposableDecoration) (s s' : Addon) :
  since s s' ->
  (In (k, e) (_decorations s) -> held k e s') ->
  held k e s -> held k e s'.
Proof.
  intros Hs Hin [H | (dec & Hl & Hd)]; [now apply Hin|].
  right. destruct (Hs _ _ Hl) as (dec' & Hl' & _ & Hd'). exists dec'. auto.
Qed.

Lemma held_disposed (k : nat) (e : IDisposableDecoration) (d : nat) (s : Addon) :
  tracked s -> held k e s -> held k e (disposed d s).
Proof.
  intros Ht. apply held_since; [apply since_disposed|]. intros Hin.
  destruct (in_dec Nat.eq_dec k (dispose_keys d s)) as [Hk | Hk].
  - right. unfold dispose_keys in Hk.
    destruct (hostDecorations s !! d) as [dec|] eqn:Hl; [|destruct Hk].
    destruct (isDisposed dec) eqn:Hlive; [destruct Hk|].
    pose proof Ht as (H1 & _ & _ & H4).
    destruct (H4 d dec k Hl Hlive Hk) as (e2 & Hin2 & He2).
    rewrite (NoDup_keys_unique _ k e2 e H1 Hin2 Hin) in He2.
    exists (dec_set_isDisposed true dec). split; [|reflexivity].
    rewrite He2. unfold disposed. simpl. now rewrite list_lookup_alter_eq, Hl.
  - left. unfold disposed. simpl. apply In_delete_keys. now split.
Qed.

Lemma keeps_held_dispose (k : nat) (e : IDisposableDecoration) (d : nat) :
  keeps (fun s => tracked s /\ held k e s) (decoration_dispose d).
Proof.
  intros s [Ht Hh]. rewrite decoration_dispose_closed. simpl.
  split; [now apply tracked_disposed | now apply held_disposed].
Qed.

Lemma held_cleared (k : nat) (e : IDisposableDecoration) (s : Addon) :
  tracked s -> held k e s -> held k e (cleared s).
Proof.
  intros Ht Hh. unfold cleared. destruct (_placeholderDecoration s) as [p|].
  - apply (held_ext k e (disposed p s)); [reflexivity | reflexivity |].
    now apply held_disposed.
  - revert Hh. now apply held_ext.
Qed.

Lemma keeps_held_clearPlaceholder (k : nat) (e : IDisposableDecoration) :
  keeps (fun s => tracked s /\ held k e s) _clearPlaceholder.
Proof.
  intros s [Ht Hh]. rewrite _clearPlaceholder_closed. simpl.
  split; [now apply tracked_cleared | now apply held_cleared].
Qed.

Lemma keeps_held_register (k : nat) (e : IDisposableDecoration) (c : TerminalCommand)
    (before : bool) :
  keeps (fun s => tracked s /\ held k e s) (registerCommandDecoration c before).
Proof.
  intros s [Ht Hh]. split; [now apply keeps_tracked_register|].
  destruct (guarded s c before) eqn:Hg.
  - now rewrite registerCommandDecoration_guarded.
  - destruct (marker c) as [m|] eqn:Hm.
    + rewrite (registerCommandDecoration_registered c before m s Hg Hm).
      pose proof (held_cleared k e s Ht Hh) as Hc. unfold registered.
      destruct (registerDecorationAnswers _ _).
      * revert Hc. apply held_since.
        -- eapply since_snoc. destruct before; reflexivity.
        -- intros Hin. left. destruct before; exact Hin.
      * revert Hc. now apply held_ext.
    + now rewrite registerCommandDecoration_no_marker.
Qed.

Lemma held_alter (k : nat) (e : IDisposableDecoration) (d : nat)
    (f : IDecoration -> IDecoration) (s : Addon) :
  (forall x, isDisposed (f x) = isDisposed x) ->
  held k e s -> held k e (set_hostDecorations (alter f d (hostDecorations s)) s).
Proof.
  intros Hf [H | (dec & Hl & Hd)]; [now left|]. right. simpl.
  destruct (decide (d = decoration e)) as [-> | Hne].
  - exists (f dec). rewrite list_lookup_alter_eq, Hl. simpl. split; [reflexivity|].
    now rewrite Hf.
  - exists dec. rewrite list_lookup_alter_ne by assumption. auto.
Qed.

Lemma keeps_held_cosmetic (k : nat) (e : IDisposableDecoration) (d : nat)
    (f : IDecoration -> IDecoration) :
  cosmetic f -> keeps (fun s => tracked s /\ held k e s) (alter_decoration d f).
Proof.
  intros Hf s [Ht Hh]. split; [now apply keeps_tracked_cosmetic|].
  simpl. apply held_alter; [|exact Hh]. intros x. now destruct (Hf x) as (_ & H & _).
Qed.

Lemma keeps_held_ambient (k : nat) (e : IDisposableDecoration) (f : Addon -> Addon) :
  ambient f -> keeps (fun s => tracked s /\ held k e s) (modify f).
Proof.
  intros Hf s [Ht Hh]. split; [now apply keeps_tracked_ambient|].
  simpl. destruct (Hf s) as (H1 & H2 & _). revert Hh. now apply held_ext.
Qed.

Lemma keeps_held_render (k : nat) (e : IDisposableDecoration) (d : nat)
    (fresh : HTMLElement) :
  keeps (fun s => tracked s /\ held k e s) (host_render d fresh).
Proof.
  intros s [Ht Hh]. split; [now apply keeps_tracked_render|].
  unfold host_render, bind, get.
  destruct (hostDecorations s !! d) as [dec|] eqn:Hl; [|exact Hh].
  destruct (isDisposed dec) eqn:Hlive; [exact Hh|].
  unfold onRender_listener, bind, get. rewrite Hl.
  destruct (map_get (marker_id (decorationMarker dec)) (_decorations s)) eqn:Hget.
  - simpl. rewrite snd_rethrow. apply held_alter; [reflexivity | exact Hh].
  - simpl. rewrite snd_rethrow.
    match goal with
    | |- held k e (set_hostDecorations (alter ?f d _) ?a) =>
        apply (held_alter k e d f a); [reflexivity|]
    end.
    match goal with
    | |- held k e (set_decorations _ (set_hostDecorations (alter ?f d _) s)) =>
        pose proof (held_alter k e d f s (fun x => eq_refl) Hh) as Hh'
    end.
    destruct Hh' as [Hin | Hd]; [left | right; exact Hd].
    simpl in *. rewrite map_set_absent by now apply map_get_None.
    apply in_or_app. now left.
Qed.

Lemma keeps_held_disposeListeners (k : nat) (e : IDisposableDecoration) (l : list nat) :
  keeps (fun s => tracked s /\ held k e s) (dispose_listeners l).
Proof.
  intros s [Ht Hh]. split; [now apply keeps_tracked_disposeListeners|].
  rewrite dispose_listeners_closed. revert Hh. now apply held_ext.
Qed.

Lemma keeps_held_push (k : nat) (e : IDisposableDecoration) (ev : CommandEvent)
    (cap : Capability) :
  keeps (fun s => tracked s /\ held k e s) (push_listener ev cap).
Proof.
  intros s [Ht Hh]. split; [now apply keeps_tracked_push|].
  unfold push_listener, bind, get. destruct (_commandDetectionListeners s); [|exact Hh].
  simpl. revert Hh. now apply held_ext.
Qed.

Ltac frame_held :=
  let s := fresh "s" in
  let Ht := fresh "Ht" in
  let Hh := fresh "Hh" in
  intros s [Ht Hh]; simpl;
  split; [ revert Ht; apply tracked_ext; reflexivity
         | revert Hh; apply held_ext; reflexivity ].

Lemma keeps_held_addListeners (k : nat) (e : IDisposableDecoration) :
  keeps (fun s => tracked s /\ held k e s) _addCommandDetectionListeners.
Proof.
  unfold _addCommandDetectionListeners.
  repeat first [ keeps_step
               | apply keeps_held_disposeListeners | apply keeps_held_register
               | apply keeps_held_push | frame_held ].
Qed.

Lemma keeps_held_removeListener (k : nat) (e : IDisposableDecoration) :
  keeps (fun s => tracked s /\ held k e s) onDidRemoveCapability_listener.
Proof.
  unfold onDidRemoveCapability_listener.
  repeat first [ keeps_step | apply keeps_held_disposeListeners | frame_held ].
Qed.

Lemma held_entries_disposed (k : nat) (e : IDisposableDecoration) (keys : list nat)
    (s : Addon) :
  tracked s -> held k e s -> held k e (entries_disposed keys s).
Proof.
  revert s. induction keys as [|k0 keys IH]; intros s Ht Hh; [exact Hh|].
  simpl. destruct (map_get k0 (_decorations s)) as [e0|].
  - apply IH; [now apply tracked_disposed | now apply held_disposed].
  - now apply IH.
Qed.

(** After the loop over all entries, the decoration of [e] is disposed. *)
Lemma held_all_disposed (k : nat) (e : IDisposableDecoration) (s : Addon) :
  tracked s -> held k e s ->
  exists dec,
    hostDecorations (entries_disposed (List.map fst (_decorations s)) s) !! decoration e
      = Some dec /\ isDisposed dec = true.
Proof.
  intros Ht [Hin | (dec & Hl & Hd)].
  - apply (entries_disposed_each _ s k e Ht Hin). apply in_map_iff. now exists (k, e).
  - destruct (since_entries_disposed (List.map fst (_decorations s)) s _ _ Hl)
      as (dec' & Hl' & _ & Hd').
    exists dec'. auto.
Qed.

Lemma keeps_held_clearEntries (k : nat) (e : IDisposableDecoration) :
  keeps (fun s => tracked s /\ held k e s) clearEntries.
Proof.
  intros s [Ht Hh]. split; [now apply keeps_tracked_clearEntries|].
  unfold clearEntries, bind, get. rewrite dispose_entries_closed. simpl.
  right. exact (held_all_disposed k e s Ht Hh).
Qed.

Ltac held_units :=
  auto using keeps_held_dispose, keeps_held_register, keeps_held_clearPlaceholder,
    keeps_held_render, keeps_held_addListeners, keeps_held_removeListener,
    keeps_held_disposeListeners, keeps_held_cosmetic, keeps_held_ambient,
    keeps_held_clearEntries.

(** An entry of the registry stays, whatever happens to the addon, until
    its decoration is disposed: at any later time the entry is in the
    registry as it was entered, or its decoration is disposed. *)
Theorem entry_kept_until_disposed cap cfg th conts answers (evs later : list Event)
    (k : nat) (e : IDisposableDecoration) :
  let a := run evs (construct cap cfg th conts answers) in
  let a' := run later a in
  In (k, e) (_decorations a) ->
  In (k, e) (_decorations a') \/
  exists dec, hostDecorations a' !! decoration e = Some dec /\ isDisposed dec = true.
Proof.
  intros a a' Hin.
  assert (H : tracked a' /\ held k e a').
  { subst a'. apply (keeps_run (fun s => tracked s /\ held k e s)); [held_units .. |].
    split; [apply tracked_always | now left]. }
  exact (proj2 H).
Qed.

Lemma entry_kept_until_disposed_witness :
  In (2, {| decoration := 0;
            disposables := [Click; MouseEnter; MouseLeave; MouseOut];
            entryExitCode := Some 2%Z;
            entryGenericMarkProperties := None |})
    (_decorations
       (run [CommandStarted (sampleCommand "ls" 1 None false); RefreshLayouts]
          (run [Activate; Rendered 0 freshElement]
             (construct (Some (sampleCapability false true)) (sampleConfiguration Both)
                sampleTheme [[]] (fun _ => true))))) \/
  exists dec,
    hostDecorations
      (run [CommandStarted (sampleCommand "ls" 1 None false); RefreshLayouts]
         (run [Activate; Rendered 0 freshElement]
            (construct (Some (sampleCapability false true)) (sampleConfiguration Both)
               sampleTheme [[]] (fun _ => true))))
      !! decoration {| decoration := 0;
                       disposables := [Click; MouseEnter; MouseLeave; MouseOut];
                       entryExitCode := Some 2%Z;
                       entryGenericMarkProperties := None |} = Some dec /\
    isDisposed dec = true.
Proof.
  pose proof (entry_kept_until_disposed (Some (sampleCapability false true))
                (sampleConfiguration Both) sampleTheme [[]] (fun _ => true)
                [Activate; Rendered 0 freshElement]
                [CommandStarted (sampleCommand "ls" 1 None false); RefreshLayouts]
                2 {| decoration := 0;
                     disposables := [Click; MouseEnter; MouseLeave; MouseOut];
                     entryExitCode := Some 2%Z;
                     entryGenericMarkProperties := None |}) as H.
  cbv zeta in H. apply H. vm_compute. left. reflexivity.
Defined.

(** ** [clearDecorations] and [_dispose] *)

Lemma forEach_dispose_closed (ds : list nat) (s : Addon) :
  forEach ds decoration_dispose s = (Returned tt, disposed_all ds s).
Proof.
  revert s. induction ds as [|d ds IH]; intros s; [reflexivity|].
  simpl. rewrite (bind_returned _ _ s (disposed d s) tt (decoration_dispose_closed d s)).
  apply IH.
Qed.

Lemma since_disposed_all (ds : list nat) (s : Addon) : since s (disposed_all ds s).
Proof.
  revert s. induction ds as [|d ds IH]; intros s; [apply since_refl|].
  simpl. eapply since_trans; [apply since_disposed | apply IH].
Qed.

Lemma shaped_disposed_all (ds : list nat) (s s' : Addon) :
  shaped s s' -> shaped s (disposed_all ds s').
Proof.
  revert s'. induction ds as [|d ds IH]; intros s' H; [exact H|].
  simpl. apply IH. now apply shaped_disposed.
Qed.

Lemma tracked_disposed_all (ds : list nat) (s : Addon) :
  tracked s -> tracked (disposed_all ds s).
Proof.
  revert s. induction ds as [|d ds IH]; intros s H; [exact H|].
  simpl. apply IH. now apply tracked_disposed.
Qed.

Lemma held_disposed_all (k : nat) (e : IDisposableDecoration) (ds : list nat) (s : Addon) :
  tracked s -> held k e s -> held k e (disposed_all ds s).
Proof.
  revert s. induction ds as [|d ds IH]; intros s Ht Hh; [exact Hh|].
  simpl. apply IH; [now apply tracked_disposed | now apply held_disposed].
Qed.

Lemma disposed_all_each (ds : list nat) (s : Addon) (d : nat) (dec : IDecoration) :
  In d ds -> hostDecorations s !! d = Some dec ->
  exists dec', hostDecorations (disposed_all ds s) !! d = Some dec' /\
               isDisposed dec' = true.
Proof.
  revert s dec. induction ds as [|d0 ds IH]; intros s dec Hin Hl; [destruct Hin|].
  simpl. destruct (decide (d0 = d)) as [-> | Hne].
  - assert (Hd : hostDecorations (disposed d s) !! d = Some (dec_set_isDisposed true dec)).
    { unfold disposed. simpl. now rewrite list_lookup_alter_eq, Hl. }
    destruct (since_disposed_all ds (disposed d s) _ _ Hd) as (dec' & Hl' & _ & Hdis).
    exists dec'. split; [exact Hl' | now apply Hdis].
  - destruct Hin as [Hin | Hin]; [contradiction|].
    apply (IH (disposed d0 s) dec Hin).
    unfold disposed. simpl. now rewrite list_lookup_alter_ne.
Qed.

Lemma marker_dispose_closed (id : nat) (s : Addon) :
  marker_dispose id s =
  (Returned tt, disposed_all (decorations_at id (hostDecorations s)) s).
Proof. unfold marker_dispose. rewrite bind_get. apply forEach_dispose_closed. Qed.

Lemma clearDecorations_closed (s : Addon) :
  clearDecorations s =
  (Returned tt,
   set_decorations []
     (entries_disposed
        (List.map fst (_decorations (cleared (placeholderMarkerDisposed s))))
        (cleared (placeholderMarkerDisposed s)))).
Proof.
  unfold clearDecorations. rewrite bind_get.
  assert (H1 : (match _placeholderDecoration s with
                | Some p =>
                    match hostDecorations s !! p with
                    | Some dec => marker_dispose (marker_id (decorationMarker dec))
                    | None => ret tt
                    end
                | None => ret tt
                end) s = (Returned tt, placeholderMarkerDisposed s)).
  { unfold placeholderMarkerDisposed.
    destruct (_placeholderDecoration s) as [p|]; [|reflexivity].
    destruct (hostDecorations s !! p) as [dec|]; [|reflexivity].
    apply marker_dispose_closed. }
  rewrite (bind_returned _ _ _ _ _ H1).
  rewrite (bind_returned _ _ _ _ _ (_clearPlaceholder_closed _)).
  rewrite bind_get.
  rewrite (bind_returned _ _ _ _ _ (dispose_entries_closed _ _)).
  reflexivity.
Qed.

Lemma decorations_at_In (id d : nat) (decs : list IDecoration) (dec : IDecoration) :
  decs !! d = Some dec -> marker_id (decorationMarker dec) = id ->
  In d (decorations_at id decs).
Proof.
  intros Hl Hm. unfold decorations_at. apply filter_In. split.
  - apply in_seq. pose proof (lookup_lt_Some _ _ _ Hl). lia.
  - rewrite Hl, Hm. apply Nat.eqb_refl.
Qed.

(** [clearDecorations], whatever has happened to the addon since its
    construction: it returns, the registry is empty and the placeholder
    reference is none afterwards, no placeholder is left that is not
    disposed, the decoration of every entry is disposed, and so is every
    decoration that sits at the marker of the placeholder; the host holds
    the decorations it held. *)
Theorem clearDecorations_clears cap cfg th conts answers (evs : list Event) :
  let a := run evs (construct cap cfg th conts answers) in
  let a' := snd (clearDecorations a) in
  fst (clearDecorations a) = Returned tt /\
  _decorations a' = [] /\ _placeholderDecoration a' = None /\
  live_placeholders a' = [] /\
  length (hostDecorations a') = length (hostDecorations a) /\
  (forall k e, In (k, e) (_decorations a) ->
     exists dec, hostDecorations a' !! decoration e = Some dec /\ isDisposed dec = true) /\
  (forall p dec0 d dec1,
     _placeholderDecoration a = Some p -> hostDecorations a !! p = Some dec0 ->
     hostDecorations a !! d = Some dec1 ->
     marker_id (decorationMarker dec1) = marker_id (decorationMarker dec0) ->
     exists dec, hostDecorations a' !! d = Some dec /\ isDisposed dec = true).
Proof.
  intros a a'.
  assert (Ht : tracked a) by apply tracked_always.
  assert (HI2 : I2 a').
  { subst a' a. change (I2 (step (run evs (construct cap cfg th conts answers))
                              ClearDecorations)).
    rewrite <- run_snoc. apply I2_always. }
  subst a'. rewrite clearDecorations_closed in *. cbn [fst snd] in *.
  set (s1 := placeholderMarkerDisposed a) in *.
  set (s2 := cleared s1) in *.
  set (s3 := entries_disposed (List.map fst (_decorations s2)) s2) in *.
  assert (Hs1 : shaped a s1 /\ since a s1 /\ tracked s1).
  { subst s1. unfold placeholderMarkerDisposed.
    destruct (_placeholderDecoration a) as [p|];
      [|split; [apply shaped_refl | split; [apply since_refl | exact Ht]]].
    destruct (hostDecorations a !! p) as [dec|];
      [|split; [apply shaped_refl | split; [apply since_refl | exact Ht]]].
    split; [apply shaped_disposed_all, shaped_refl|].
    split; [apply since_disposed_all | now apply tracked_disposed_all]. }
  destruct Hs1 as (Hsh1 & Hsi1 & Ht1).
  assert (Ht2 : tracked s2) by now apply tracked_cleared.
  assert (Hsi2 : since s1 s2) by apply since_cleared.
  assert (Hsi3 : since s2 s3) by apply since_entries_disposed.
  assert (Hp3 : _placeholderDecoration s3 = None).
  { destruct (shaped_fields s2 s3 (shaped_entries_disposed _ s2 s2 (shaped_refl s2)))
      as (_ & Hp & _).
    rewrite Hp. subst s2. unfold cleared. now destruct (_placeholderDecoration s1). }
  split; [reflexivity|]. split; [reflexivity|]. split; [exact Hp3|].
  split; [|split; [|split]].
  - apply no_live_placeholders. intros d dec Hl Hb Hd.
    pose proof (HI2 d dec Hl Hb Hd) as Hc. simpl in Hc. rewrite Hp3 in Hc. discriminate.
  - simpl. subst s3. rewrite entries_disposed_length. subst s2. rewrite cleared_length.
    subst s1. unfold placeholderMarkerDisposed.
    destruct (_placeholderDecoration a) as [p|]; [|reflexivity].
    destruct (hostDecorations a !! p) as [dec|]; [|reflexivity].
    generalize (decorations_at (marker_id (decorationMarker dec)) (hostDecorations a)).
    intros ds. generalize a. induction ds as [|d ds IH]; intros x; [reflexivity|].
    simpl. rewrite IH. apply disposed_length.
  - intros k e Hin. simpl.
    assert (Hh1 : held k e s1).
    { subst s1. unfold placeholderMarkerDisposed.
      destruct (_placeholderDecoration a) as [p|]; [|now left].
      destruct (hostDecorations a !! p) as [dec|]; [|now left].
      apply held_disposed_all; [exact Ht | now left]. }
    assert (Hh2 : held k e s2) by now apply held_cleared.
    exact (held_all_disposed k e s2 Ht2 Hh2).
  - intros p dec0 d dec1 Hp Hl0 Hl1 Hm. simpl.
    assert (Hd1 : exists dec, hostDecorations s1 !! d = Some dec /\ isDisposed dec = true).
    { subst s1. unfold placeholderMarkerDisposed. rewrite Hp, Hl0.
      apply (disposed_all_each _ a d dec1); [|exact Hl1].
      now apply (decorations_at_In _ d _ dec1). }
    destruct Hd1 as (dec & Hl & Hd).
    destruct (Hsi2 _ _ Hl) as (dec2 & Hl2 & _ & Hd2).
    destruct (Hsi3 _ _ Hl2) as (dec3 & Hl3 & _ & Hd3).
    exists dec3. auto.
Qed.

Lemma clearDecorations_clears_witness :
  exists dec,
    hostDecorations
      (snd (clearDecorations
              (run [Activate; CommandStarted (sampleCommand "ls" 1 None false);
                    Rendered 0 freshElement]
                 (construct (Some (sampleCapability false false)) (sampleConfiguration Both)
                    sampleTheme [[]] (fun _ => true)))))
      !! decoration {| decoration := 0; disposables := []; entryExitCode := None;
                       entryGenericMarkProperties := None |} = Some dec /\
    isDisposed dec = true.
Proof.
  pose proof (clearDecorations_clears (Some (sampleCapability false false))
                (sampleConfiguration Both) sampleTheme [[]] (fun _ => true)
                [Activate; CommandStarted (sampleCommand "ls" 1 None false);
                 Rendered 0 freshElement]) as H.
  cbv zeta in H. destruct H as (_ & _ & _ & _ & _ & H & _).
  apply (H 1). vm_compute. left. reflexivity.
Defined.

(** ** The listeners of the capability *)

(** "Current command invalidated" for the reason "windows", whatever has
    happened to the addon since its construction: the listener returns, the
    placeholder is disposed and the placeholder reference is none, so that no
    placeholder is left that is not disposed; every other decoration is left
    as it was, and so is every entry of the registry but the placeholder's. *)
Theorem windows_invalidation_clears_placeholder cap cfg th conts answers
    (evs : list Event) :
  let a := run evs (construct cap cfg th conts answers) in
  let r := onCurrentCommandInvalidated_listener Windows a in
  fst r = Returned tt /\
  _placeholderDecoration (snd r) = None /\
  live_placeholders (snd r) = [] /\
  (forall p dec0, _placeholderDecoration a = Some p -> hostDecorations a !! p = Some dec0 ->
     hostDecorations (snd r) !! p = Some (dec_set_isDisposed true dec0)) /\
  (forall d, _placeholderDecoration a <> Some d ->
     hostDecorations (snd r) !! d = hostDecorations a !! d) /\
  (forall k e, In (k, e) (_decorations a) -> _placeholderDecoration a <> Some (decoration e) ->
     In (k, e) (_decorations (snd r))).
Proof.
  intros a r. subst r. cbn [onCurrentCommandInvalidated_listener].
  rewrite _clearPlaceholder_closed. cbn [fst snd].
  assert (Ht : tracked a) by apply tracked_always.
  assert (HI : I2 a) by apply I2_always.
  split; [reflexivity|]. split; [reflexivity|].
  split; [apply no_live_placeholders; now apply I2_cleared|].
  split; [|split].
  - intros p dec0 Hp Hl. now apply cleared_placeholder_disposed.
  - intros d Hne. rewrite cleared_hostDecorations.
    destruct (_placeholderDecoration a) as [p|]; [|reflexivity].
    apply list_lookup_alter_ne. congruence.
  - intros k e Hin Hne.
    destruct (held_cleared k e a Ht (or_introl Hin)) as [H | (dec & Hl & Hd)]; [exact H|].
    exfalso. destruct Ht as (_ & H2 & _).
    destruct (H2 k e Hin) as (dec1 & Hl1 & Hlive & _).
    rewrite cleared_hostDecorations in Hl.
    destruct (_placeholderDecoration a) as [p|]; [|congruence].
    rewrite list_lookup_alter_ne in Hl by congruence. congruence.
Qed.

Lemma windows_invalidation_clears_placeholder_witness :
  hostDecorations
    (snd (onCurrentCommandInvalidated_listener Windows
            (run [Activate; CommandStarted (sampleCommand "ls" 1 None false)]
               (construct (Some (sampleCapability false true)) (sampleConfiguration Both)
                  sampleTheme [[]] (fun _ => true))))) !! 0 =
  hostDecorations
    (run [Activate; CommandStarted (sampleCommand "ls" 1 None false)]
       (construct (Some (sampleCapability false true)) (sampleConfiguration Both)
          sampleTheme [[]] (fun _ => true))) !! 0.
Proof.
  pose proof (windows_invalidation_clears_placeholder (Some (sampleCapability false true))
                (sampleConfiguration Both) sampleTheme [[]] (fun _ => true)
                [Activate; CommandStarted (sampleCommand "ls" 1 None false)]) as H.
  cbv zeta in H. destruct H as (_ & _ & _ & _ & H & _).
  apply H. vm_compute. discriminate.
Defined.

Lemma bind_ext {A B} (m : M A) (k1 k2 : A -> M B) (s : Addon) :
  (forall a s', k1 a s' = k2 a s') -> bind m k1 s = bind m k2 s.
Proof. intros H. unfold bind. destruct (m s) as [[a|msg] s']; [apply H | reflexivity]. Qed.

Lemma invalidated_keys_cons (c : TerminalCommand) (cs : list TerminalCommand) :
  invalidated_keys (c :: cs) =
  match marker c with
  | Some m => if negb (Nat.eqb (marker_id m) 0)
              then marker_id m :: invalidated_keys cs else invalidated_keys cs
  | None => invalidated_keys cs
  end.
Proof.
  unfold invalidated_keys. simpl. destruct (marker c) as [m|]; [|reflexivity].
  now destruct (negb (Nat.eqb (marker_id m) 0)).
Qed.

Lemma onCommandInvalidated_closed (cs : list TerminalCommand) (s : Addon) :
  onCommandInvalidated_listener cs s =
  (Returned tt, entries_disposed (invalidated_keys cs) s).
Proof.
  rewrite <- dispose_entries_closed. unfold onCommandInvalidated_listener, dispose_entries.
  revert s. induction cs as [|c cs IH]; intros s; [reflexivity|].
  rewrite invalidated_keys_cons. cbn [forEach].
  destruct (marker c) as [m|];
    [|rewrite (bind_returned (ret tt) _ s s tt eq_refl); apply IH].
  destruct (negb (Nat.eqb (marker_id m) 0));
    [|rewrite (bind_returned (ret tt) _ s s tt eq_refl); apply IH].
  cbn [forEach]. apply bind_ext. intros u s'. apply IH.
Qed.

(** The listener of "command invalidated" does nothing for a command
    without a marker, for a command whose marker has the id 0, and for a
    command whose marker is not a key of the registry. *)
Theorem command_invalidated_skips (cs : list TerminalCommand) (s : Addon) :
  Forall (fun c => forall m, marker c = Some m ->
                     marker_id m = 0 \/ map_get (marker_id m) (_decorations s) = None) cs ->
  onCommandInvalidated_listener cs s = (Returned tt, s).
Proof.
  intros H. rewrite onCommandInvalidated_closed. f_equal.
  induction cs as [|c cs IH]; [reflexivity|].
  apply Forall_cons in H. destruct H as [Hc Hcs].
  rewrite invalidated_keys_cons.
  destruct (marker c) as [m|]; [|now apply IH].
  destruct (Nat.eqb_spec (marker_id m) 0) as [H0 | H0]; cbn [negb]; [now apply IH|].
  cbn [entries_disposed fold_left].
  destruct (Hc m eq_refl) as [Hz | Hn]; [contradiction|].
  rewrite Hn. now apply IH.
Qed.

Lemma command_invalidated_skips_witness :
  onCommandInvalidated_listener
    [{| command := "ls"; marker := Some {| marker_id := 0; marker_line := 3 |};
        exitCode := Some 0%Z; genericMarkProperties := None; hasOutput := false;
        getOutput := None |};
     sampleCommand "make" 7 (Some 2%Z) true]
    (finishedAddon Both) =
  (Returned tt, finishedAddon Both).
Proof.
  apply command_invalidated_skips.
  apply List.Forall_cons; [|apply List.Forall_cons; [|apply List.Forall_nil]];
    intros m Hm; injection Hm as <-.
  - left. reflexivity.
  - right. vm_compute. reflexivity.
Defined.

(** The listener of "command invalidated", whatever has happened to the
    addon since its construction: it returns; for every command with a
    marker whose id is not 0 and is a key of the registry, the decoration of
    the entry is disposed and the entry leaves the registry; the other
    entries stay. *)
Theorem command_invalidated_disposes cap cfg th conts answers (evs : list Event)
    (cs : list TerminalCommand) :
  let a := run evs (construct cap cfg th conts answers) in
  let r := onCommandInvalidated_listener cs a in
  fst r = Returned tt /\
  _decorations (snd r) = delete_keys (invalidated_keys cs) (_decorations a) /\
  (forall c m e, In c cs -> marker c = Some m -> marker_id m <> 0 ->
     In (marker_id m, e) (_decorations a) ->
     map_get (marker_id m) (_decorations (snd r)) = None /\
     exists dec, hostDecorations (snd r) !! decoration e = Some dec /\
                 isDisposed dec = true) /\
  (forall k e, In (k, e) (_decorations a) -> ~ In k (invalidated_keys cs) ->
     In (k, e) (_decorations (snd r))).
Proof.
  intros a r. subst r. rewrite onCommandInvalidated_closed. cbn [fst snd].
  assert (Ht : tracked a) by apply tracked_always.
  split; [reflexivity|].
  assert (Hreg : _decorations (entries_disposed (invalidated_keys cs) a) =
                 delete_keys (invalidated_keys cs) (_decorations a))
    by now apply entries_disposed_registry.
  split; [exact Hreg|]. split.
  - intros c m e Hc Hm Hid Hin.
    assert (Hk : In (marker_id m) (invalidated_keys cs)).
    { unfold invalidated_keys. apply list_elem_of_In, list_elem_of_omap.
      exists c. split; [now apply list_elem_of_In|].
      rewrite Hm. apply Nat.eqb_neq in Hid. now rewrite Hid. }
    split; [|now apply (entries_disposed_each _ a (marker_id m) e)].
    rewrite Hreg.
    destruct (map_get (marker_id m) (delete_keys (invalidated_keys cs) (_decorations a)))
      as [e'|] eqn:E; [|reflexivity].
    apply map_get_In, In_delete_keys in E. simpl in E. tauto.
  - intros k e Hin Hk. rewrite Hreg. apply In_delete_keys. now split.
Qed.

Lemma command_invalidated_disposes_witness :
  map_get 2
    (_decorations
       (snd (onCommandInvalidated_listener [sampleCommand "make" 2 (Some 2%Z) true]
               (run [Activate; Rendered 0 freshElement]
                  (construct (Some (sampleCapability false true))
                     (sampleConfiguration Both) sampleTheme [[]] (fun _ => true))))))
  = None.
Proof.
  pose proof (command_invalidated_disposes (Some (sampleCapability false true))
                (sampleConfiguration Both) sampleTheme [[]] (fun _ => true)
                [Activate; Rendered 0 freshElement]
                [sampleCommand "make" 2 (Some 2%Z) true]) as H.
  cbv zeta in H. destruct H as (_ & _ & H & _).
  apply (H (sampleCommand "make" 2 (Some 2%Z) true) {| marker_id := 2; marker_line := 5 |}
           {| decoration := 0;
              disposables := [Click; MouseEnter; MouseLeave; MouseOut];
              entryExitCode := Some 2%Z;
              entryGenericMarkProperties := None |}).
  - now left.
  - reflexivity.
  - discriminate.
  - vm_compute. left. reflexivity.
Defined.

Lemma cleared_subscriptions (s : Addon) : subscriptions (cleared s) = subscriptions s.
Proof. unfold cleared. now destruct (_placeholderDecoration s). Qed.

Lemma all_disposed_filter (f : Subscription -> bool) (subs : list Subscription) :
  (forall i sub, subs !! i = Some sub -> subActive sub = false) ->
  (forall sub, f sub = true -> subActive sub = true) ->
  List.filter f subs = [].
Proof.
  intros Hall Hf. apply filter_none. intros sub Hin.
  apply list_elem_of_In, list_elem_of_lookup in Hin. destruct Hin as [i Hi].
  destruct (f sub) eqn:E; [|reflexivity].
  pose proof (Hf sub E) as Ha. rewrite (Hall i sub Hi) in Ha. discriminate.
Qed.

(** [_dispose], whatever has happened to the addon since its construction:
    it returns, no listener of the capability is left that is not disposed,
    so that no event of the capability reaches the addon, the registry is
    empty and the placeholder reference is none. *)
Theorem dispose_unbinds cap cfg th conts answers (evs : list Event) (ev : CommandEvent) :
  let a := run evs (construct cap cfg th conts answers) in
  let a' := snd (_dispose a) in
  fst (_dispose a) = Returned tt /\
  all_disposed a' /\ active_for ev a' = [] /\ fired ev a' = [] /\
  _decorations a' = [] /\ _placeholderDecoration a' = None.
Proof.
  intros a a'.
  assert (Hb : bound a) by apply bound_always.
  destruct (bound_disposed_first a Hb) as (Hall & _ & Hret). cbv zeta in Hall, Hret.
  set (m := match _commandDetectionListeners a with
            | Some l => dispose_listeners l
            | None => ret tt
            end) in *.
  assert (Hd : _dispose a = clearDecorations (snd (m a))).
  { unfold _dispose. rewrite bind_get. fold m.
    apply (bind_returned m (fun _ => clearDecorations) a (snd (m a)) tt).
    rewrite (run_eta m a). now rewrite Hret. }
  subst a'. rewrite Hd, clearDecorations_closed. cbn [fst snd].
  set (s1 := snd (m a)) in *.
  set (s2 := cleared (placeholderMarkerDisposed s1)).
  assert (Hsh1 : shaped s1 (placeholderMarkerDisposed s1)).
  { unfold placeholderMarkerDisposed.
    destruct (_placeholderDecoration s1) as [p|]; [|apply shaped_refl].
    destruct (hostDecorations s1 !! p); [|apply shaped_refl].
    apply shaped_disposed_all, shaped_refl. }
  destruct (shaped_fields _ _ Hsh1) as (_ & _ & _ & _ & _ & _ & Hsub1).
  destruct (shaped_fields s2 _ (shaped_entries_disposed
                                  (List.map fst (_decorations s2)) s2 s2 (shaped_refl s2)))
    as (_ & Hp3 & _ & _ & _ & _ & Hsub3).
  assert (Hsub : subscriptions
                   (set_decorations []
                      (entries_disposed (List.map fst (_decorations s2)) s2))
                 = subscriptions s1).
  { change (subscriptions (entries_disposed (List.map fst (_decorations s2)) s2)
            = subscriptions s1).
    rewrite Hsub3. subst s2. now rewrite cleared_subscriptions. }
  assert (Hall' : all_disposed
                    (set_decorations []
                       (entries_disposed (List.map fst (_decorations s2)) s2))).
  { intros i sub. rewrite Hsub. apply Hall. }
  split; [reflexivity|]. split; [exact Hall'|].
  split; [|split; [|split]].
  - unfold active_for. apply all_disposed_filter; [exact Hall'|].
    intros sub H. now apply andb_true_iff in H.
  - unfold fired. destruct (capabilities _); [|reflexivity].
    apply all_disposed_filter; [exact Hall'|].
    intros sub H. unfold listens in H. apply andb_true_iff in H. destruct H as [H _].
    now apply andb_true_iff in H.
  - reflexivity.
  - change (_placeholderDecoration
              (entries_disposed (List.map fst (_decorations s2)) s2) = None).
    rewrite Hp3. subst s2. unfold cleared.
    now destruct (_placeholderDecoration (placeholderMarkerDisposed s1)).
Qed.

(** ** When nothing is registered *)

Ltac inactive_modify :=
  let s := fresh "s" in
  let H1 := fresh "H" in let H2 := fresh "H" in let H3 := fresh "H" in
  let H4 := fresh "H" in let H5 := fresh "H" in
  intros s (H1 & H2 & H3 & H4 & H5); unfold inactive; simpl;
  try (destruct (capabilities s)); simpl;
  rewrite ?H2; repeat split; solve [assumption | reflexivity].

Lemma keeps_inactive_register (c : TerminalCommand) (before : bool) :
  keeps inactive (registerCommandDecoration c before).
Proof.
  intros s H. rewrite registerCommandDecoration_guarded; [exact H|].
  unfold guarded. destruct H as (-> & _). reflexivity.
Qed.

Lemma keeps_inactive_dispose (d : nat) : keeps inactive (decoration_dispose d).
Proof.
  intros s H. unfold decoration_dispose. destruct H as (H1 & H2 & H3).
  rewrite H2. simpl. unfold inactive. rewrite H2. auto.
Qed.

Lemma keeps_inactive_alter (d : nat) (f : IDecoration -> IDecoration) :
  keeps inactive (alter_decoration d f).
Proof. unfold alter_decoration. inactive_modify. Qed.

Lemma keeps_inactive_render (d : nat) (fresh : HTMLElement) :
  keeps inactive (host_render d fresh).
Proof.
  intros s H. unfold host_render, bind, get. destruct H as (H1 & H2 & H3).
  rewrite H2. simpl. unfold inactive. rewrite H2. auto.
Qed.

Lemma keeps_inactive_disposeListeners (l : list nat) : keeps inactive (dispose_listeners l).
Proof. intros s H. rewrite dispose_listeners_closed. exact H. Qed.

Lemma keeps_inactive_push (ev : CommandEvent) (cap : Capability) :
  keeps inactive (push_listener ev cap).
Proof.
  intros s H. unfold push_listener, bind, get.
  destruct (_commandDetectionListeners s); exact H.
Qed.

Ltac inactive_auto :=
  repeat first [ keeps_step
               | apply keeps_inactive_register | apply keeps_inactive_dispose
               | apply keeps_inactive_alter | apply keeps_inactive_render
               | apply keeps_inactive_disposeListeners | apply keeps_inactive_push
               | inactive_modify ].

Lemma keeps_inactive_attach : keeps inactive _attachToCommandCapability.
Proof. unfold _attachToCommandCapability, _addCommandDetectionListeners. inactive_auto. Qed.

Lemma keeps_inactive_visibility : keeps inactive _updateDecorationVisibility.
Proof.
  unfold _updateDecorationVisibility, _updateGutterDecorationVisibility.
  repeat first [ apply keeps_inactive_attach | keeps_step | apply keeps_inactive_alter
               | inactive_modify ].
Qed.

Lemma keeps_inactive_handle (ev : Event) :
  isActivate ev = false -> keeps inactive (handle ev).
Proof.
  intros Hev. destruct ev; try discriminate; cbn [handle];
    repeat first [ apply keeps_inactive_visibility | keeps_step
                 | apply keeps_inactive_register | apply keeps_inactive_dispose
                 | apply keeps_inactive_alter | apply keeps_inactive_render
                 | apply keeps_inactive_disposeListeners | apply keeps_inactive_push
                 | inactive_modify
                 | progress unfold refreshLayouts, clearDecorations, _dispose,
                     onDidChangeConfiguration_listener, _refreshStyles,
                     refreshOverviewRulerColor, update_element, updateClasses_of, fire,
                     onCommandStarted_listener, onCommandFinished_listener,
                     onCommandInvalidated_listener, onCurrentCommandInvalidated_listener,
                     _clearPlaceholder, marker_dispose, dispose_entries,
                     onDidRemoveCapability_listener, _addCommandDetectionListeners ].
Qed.

Lemma keeps_run_when (I : Addon -> Prop) (ok : Event -> bool) (evs : list Event)
    (s : Addon) :
  (forall ev, ok ev = true -> keeps I (handle ev)) ->
  forallb ok evs = true -> I s -> I (run evs s).
Proof.
  intros Hk. revert s. induction evs as [|ev evs IH]; intros s Hall Hs; [exact Hs|].
  simpl in Hall. apply andb_true_iff in Hall. destruct Hall as [Hev Hall].
  simpl. apply IH; [exact Hall|]. now apply Hk.
Qed.

(** Until it is activated the addon registers no decoration, whatever
    events arrive and whatever the decorations setting is or becomes: the
    host is not asked for a decoration, the registry is empty and there is
    no placeholder. *)
Theorem no_decoration_before_activate cap cfg th conts answers (evs : list Event) :
  forallb (fun ev => negb (isActivate ev)) evs = true ->
  let a := run evs (construct cap cfg th conts answers) in
  _terminal a = false /\ hostDecorations a = [] /\ _decorations a = [] /\
  _placeholderDecoration a = None /\ registerDecorationCalls a = 0.
Proof.
  intros Hevs a. subst a.
  apply (keeps_run_when inactive (fun ev => negb (isActivate ev))); [|exact Hevs|].
  - intros ev Hev. apply keeps_inactive_handle. now apply negb_true_iff.
  - apply keeps_inactive_visibility. repeat split.
Qed.

Lemma no_decoration_before_activate_witness :
  hostDecorations
    (run [CommandStarted (sampleCommand "ls" 1 None false);
          RegisterCommandDecoration (sampleCommand "make" 2 (Some 2%Z) true) false;
          ConfigurationChanged visibilityChanged (sampleConfiguration Gutter)]
       (construct (Some (sampleCapability true true)) (sampleConfiguration Both)
          sampleTheme [[]] (fun _ => true))) = [].
Proof.
  pose proof (no_decoration_before_activate (Some (sampleCapability true true))
                (sampleConfiguration Both) sampleTheme [[]] (fun _ => true)
                [CommandStarted (sampleCommand "ls" 1 None false);
                 RegisterCommandDecoration (sampleCommand "make" 2 (Some 2%Z) true) false;
                 ConfigurationChanged visibilityChanged (sampleConfiguration Gutter)]
                eq_refl) as H.
  cbv zeta in H. destruct H as (_ & H & _). exact H.
Defined.

Ltac disabled_modify :=
  let s := fresh "s" in
  let H1 := fresh "H" in let H2 := fresh "H" in let H3 := fresh "H" in
  intros s (H1 & H2 & H3); unfold disabled; simpl;
  try (destruct (capabilities s)); simpl;
  rewrite ?length_alter; repeat split; solve [assumption | reflexivity].

Lemma keeps_disabled_register (n calls : nat) (c : TerminalCommand) (before : bool) :
  keeps (disabled n calls) (registerCommandDecoration c before).
Proof.
  intros s H. rewrite registerCommandDecoration_guarded; [exact H|].
  unfold guarded. destruct H as (-> & _). apply orb_true_r.
Qed.

Lemma keeps_disabled_dispose (n calls : nat) (d : nat) :
  keeps (disabled n calls) (decoration_dispose d).
Proof.
  intros s (H1 & H2 & H3). rewrite decoration_dispose_closed. unfold disabled. simpl.
  rewrite length_alter. auto.
Qed.

Lemma keeps_disabled_alter (n calls : nat) (d : nat) (f : IDecoration -> IDecoration) :
  keeps (disabled n calls) (alter_decoration d f).
Proof. unfold alter_decoration. disabled_modify. Qed.

Lemma keeps_disabled_render (n calls : nat) (d : nat) (fresh : HTMLElement) :
  keeps (disabled n calls) (host_render d fresh).
Proof.
  unfold host_render, onRender_listener.
  repeat first [ keeps_step | apply keeps_disabled_alter | disabled_modify ].
Qed.

Lemma keeps_disabled_disposeListeners (n calls : nat) (l : list nat) :
  keeps (disabled n calls) (dispose_listeners l).
Proof. intros s H. rewrite dispose_listeners_closed. exact H. Qed.

Lemma keeps_disabled_push (n calls : nat) (ev : CommandEvent) (cap : Capability) :
  keeps (disabled n calls) (push_listener ev cap).
Proof.
  intros s H. unfold push_listener, bind, get.
  destruct (_commandDetectionListeners s); exact H.
Qed.

Lemma keeps_disabled_handle (n calls : nat) (ev : Event) :
  keepsSetting ev = true -> keeps (disabled n calls) (handle ev).
Proof.
  intros Hev. destruct ev; cbn [handle keepsSetting] in *;
    repeat first [ keeps_step
                 | apply keeps_disabled_register | apply keeps_disabled_dispose
                 | apply keeps_disabled_alter | apply keeps_disabled_render
                 | apply keeps_disabled_disposeListeners | apply keeps_disabled_push
                 | disabled_modify
                 | discriminate Hev
                 | progress unfold activate, _attachToCommandCapability, refreshLayouts,
                     clearDecorations, _dispose,
                     onDidChangeConfiguration_listener, _refreshStyles,
                     refreshOverviewRulerColor, update_element, updateClasses_of, fire,
                     onCommandStarted_listener, onCommandFinished_listener,
                     onCommandInvalidated_listener, onCurrentCommandInvalidated_listener,
                     _clearPlaceholder, marker_dispose, dispose_entries,
                     onDidRemoveCapability_listener, _addCommandDetectionListeners ].
Qed.

(** While decorations are disabled the addon registers no decoration,
    whatever events arrive that leave the decorations setting alone (its
    activation among them): the host is not asked for a decoration and holds
    as many decorations as before, and the decorations stay disabled. *)
Theorem disabled_registers_nothing (s : Addon) (evs : list Event) :
  truthy_flag (_decorationsDisabled s) = true ->
  forallb keepsSetting evs = true ->
  let s' := run evs s in
  truthy_flag (_decorationsDisabled s') = true /\
  length (hostDecorations s') = length (hostDecorations s) /\
  registerDecorationCalls s' = registerDecorationCalls s.
Proof.
  intros Hd Hevs s'. subst s'.
  apply (keeps_run_when
           (disabled (length (hostDecorations s)) (registerDecorationCalls s))
           keepsSetting); [|exact Hevs|].
  - intros ev Hev. now apply keeps_disabled_handle.
  - repeat split. exact Hd.
Qed.

Lemma disabled_registers_nothing_witness :
  registerDecorationCalls
    (run [Activate; CommandStarted (sampleCommand "ls" 1 None false);
          CommandFinished (sampleCommand "ls" 1 (Some 0%Z) false)]
       (construct (Some (sampleCapability false true)) (sampleConfiguration Never)
          sampleTheme [[]] (fun _ => true))) =
  registerDecorationCalls
    (construct (Some (sampleCapability false true)) (sampleConfiguration Never)
       sampleTheme [[]] (fun _ => true)).
Proof.
  pose proof (disabled_registers_nothing
                (construct (Some (sampleCapability false true)) (sampleConfiguration Never)
                   sampleTheme [[]] (fun _ => true))
                [Activate; CommandStarted (sampleCommand "ls" 1 None false);
                 CommandFinished (sampleCommand "ls" 1 (Some 0%Z) false)]
                eq_refl eq_refl) as H.
  cbv zeta in H. destruct H as (_ & _ & H). exact H.
Defined.

(** ** Refreshing styles and layouts *)

Lemma forEach_alter_closed {A} (dOf : A -> nat) (fOf : A -> IDecoration -> IDecoration)
    (l : list A) (s : Addon) :
  forEach l (fun x => alter_decoration (dOf x) (fOf x)) s =
  (Returned tt, set_hostDecorations (altered dOf fOf l (hostDecorations s)) s).
Proof.
  revert s. induction l as [|x l IH]; intros s.
  - simpl. now rewrite set_hostDecorations_same.
  - cbn [forEach]. unfold bind, alter_decoration at 1, modify. rewrite IH. reflexivity.
Qed.

Lemma altered_length {A} (dOf : A -> nat) (fOf : A -> IDecoration -> IDecoration)
    (l : list A) (H : list IDecoration) :
  length (altered dOf fOf l H) = length H.
Proof.
  revert H. induction l as [|x l IH]; intros H; [reflexivity|].
  unfold altered in *. simpl. rewrite IH. apply length_alter.
Qed.

Lemma altered_untouched {A} (dOf : A -> nat) (fOf : A -> IDecoration -> IDecoration)
    (l : list A) (H : list IDecoration) (d : nat) :
  ~ In d (List.map dOf l) -> altered dOf fOf l H !! d = H !! d.
Proof.
  revert H. induction l as [|x l IH]; intros H Hd; [reflexivity|].
  unfold altered in *. simpl in *. rewrite IH by tauto.
  apply list_lookup_alter_ne. intros Heq. apply Hd. now left.
Qed.

Lemma altered_once {A} (dOf : A -> nat) (fOf : A -> IDecoration -> IDecoration)
    (l : list A) (H : list IDecoration) (x : A) :
  List.NoDup (List.map dOf l) -> In x l ->
  altered dOf fOf l H !! dOf x = fOf x <$> H !! dOf x.
Proof.
  revert H. induction l as [|y l IH]; intros H Hnd Hin; [destruct Hin|].
  simpl in Hnd. apply List.NoDup_cons_iff in Hnd. destruct Hnd as [Hy Hnd].
  unfold altered in *. simpl. destruct Hin as [-> | Hin].
  - pose proof (altered_untouched dOf fOf l (alter (fOf x) (dOf x) H) (dOf x) Hy) as Hu.
    unfold altered in Hu. rewrite Hu. apply list_lookup_alter_eq.
  - rewrite (IH _ Hnd Hin). rewrite list_lookup_alter_ne; [reflexivity|].
    intros Heq. apply Hy. rewrite Heq. now apply in_map.
Qed.

(** A loop of alterations that leave a field of the decorations alone
    leaves it alone. *)
Lemma altered_field {A B} (dOf : A -> nat) (fOf : A -> IDecoration -> IDecoration)
    (field : IDecoration -> B) (l : list A) (H : list IDecoration) (d : nat) :
  (forall x dec, field (fOf x dec) = field dec) ->
  field <$> altered dOf fOf l H !! d = field <$> H !! d.
Proof.
  intros Hf. revert H. induction l as [|x l IH]; intros H; [reflexivity|].
  unfold altered in *. simpl. rewrite IH.
  destruct (decide (dOf x = d)) as [<- | Hne].
  - rewrite list_lookup_alter_eq. destruct (H !! dOf x); simpl; [|reflexivity].
    now rewrite Hf.
  - now rewrite list_lookup_alter_ne.
Qed.

Lemma alter_ext_at {A} (f g : A -> A) (l : list A) (i : nat) :
  (forall x, l !! i = Some x -> f x = g x) -> alter f i l = alter g i l.
Proof.
  revert i. induction l as [|y l IH]; intros [|i] H; simpl in *; [reflexivity.. | |].
  - f_equal. now apply H.
  - f_equal. now apply IH.
Qed.

(** [_updateClasses] on the element of the decoration [d]: the state after
    the call, whether it throws or not. *)
Lemma updateClasses_of_state (d : nat) (code : option Z)
    (gmp : option GenericMarkProperties) (s : Addon) :
  snd (updateClasses_of d code gmp s) =
  set_hostDecorations (alter (reclassed (configuration s) code gmp) d (hostDecorations s)) s.
Proof.
  unfold updateClasses_of. rewrite bind_get.
  destruct (hostDecorations s !! d) as [dec|] eqn:Hl.
  - cbv zeta. unfold bind, alter_decoration, modify. rewrite snd_rethrow. f_equal.
    apply alter_ext_at. intros x Hx. rewrite Hl in Hx. now injection Hx as <-.
  - simpl. rewrite (alter_lookup_none _ _ _ Hl). now rewrite set_hostDecorations_same.
Qed.

Lemma updateClasses_returns (cfg : Configuration) (element : option HTMLElement)
    (code : option Z) (gmp : option GenericMarkProperties) :
  iconsValid cfg = true -> fst (_updateClasses cfg element code gmp) = Returned tt.
Proof.
  intros Hv. unfold iconsValid in Hv.
  apply andb_true_iff in Hv. destruct Hv as [Hv H3].
  apply andb_true_iff in Hv. destruct Hv as [H1 H2].
  apply negb_true_iff in H1, H2, H3.
  destruct element as [el|]; [|reflexivity]. cbn [_updateClasses fst].
  rewrite updateClasses_returned; [reflexivity|].
  unfold configuredIcon. destruct gmp; [exact I|].
  destruct code as [z|]; [destruct (truthy_number z)|]; assumption.
Qed.

Lemma updateClasses_of_returns (d : nat) (code : option Z)
    (gmp : option GenericMarkProperties) (s : Addon) :
  iconsValid (configuration s) = true ->
  fst (updateClasses_of d code gmp s) = Returned tt.
Proof.
  intros Hv. unfold updateClasses_of. rewrite bind_get.
  destruct (hostDecorations s !! d) as [dec|]; [|reflexivity].
  cbv zeta. unfold bind, alter_decoration, modify.
  rewrite fst_rethrow. now rewrite updateClasses_returns.
Qed.

Lemma refreshed_refl {B} (field : IDecoration -> B) (s : Addon) : refreshed field s s.
Proof. split; [now rewrite set_hostDecorations_same | split; reflexivity]. Qed.

Lemma keeps_refreshed_alter {B} (field : IDecoration -> B) (s0 : Addon) (p : nat)
    (f : IDecoration -> IDecoration) :
  (forall x, field (f x) = field x) -> keeps (refreshed field s0) (alter_decoration p f).
Proof.
  intros Hf s (H1 & H2 & H3). unfold alter_decoration, modify. cbn [snd].
  split; [|split].
  - rewrite H1 at 2. reflexivity.
  - cbn [hostDecorations set_hostDecorations]. now rewrite length_alter.
  - intros d. cbn [hostDecorations set_hostDecorations].
    rewrite (alter_field f field p (hostDecorations s) d Hf). apply H3.
Qed.

Lemma keeps_refreshed_updateClasses_of {B} (field : IDecoration -> B) (s0 : Addon)
    (d : nat) (code : option Z) (gmp : option GenericMarkProperties) :
  (forall cfg code gmp x, field (reclassed cfg code gmp x) = field x) ->
  keeps (refreshed field s0) (updateClasses_of d code gmp).
Proof.
  intros Hf s Hs. rewrite updateClasses_of_state.
  exact (keeps_refreshed_alter field s0 d (reclassed (configuration s) code gmp)
           (Hf _ _ _) s Hs).
Qed.

(** The calls of [_updateClasses] in [_refreshStyles], on the placeholder
    [ph] and on the entries [l]. *)
Lemma keeps_refreshed_classes {B} (field : IDecoration -> B) (s0 : Addon)
    (ph : option nat) (l : list (nat * IDisposableDecoration)) :
  (forall cfg code gmp x, field (reclassed cfg code gmp x) = field x) ->
  keeps (refreshed field s0)
    (bind (match ph with
           | Some p => updateClasses_of p None None
           | None => ret tt
           end)
       (fun _ => forEach l
                   (fun kv => updateClasses_of (decoration (snd kv))
                                (entryExitCode (snd kv))
                                (entryGenericMarkProperties (snd kv))))).
Proof.
  intros Hf. apply keeps_bind.
  - destruct ph; [now apply keeps_refreshed_updateClasses_of | apply keeps_ret].
  - intros _. apply keeps_forEach. intros kv. now apply keeps_refreshed_updateClasses_of.
Qed.

Lemma refreshStyles_refreshed {B} (field : IDecoration -> B) (b : bool) (s : Addon) :
  (forall cfg code gmp x, field (reclassed cfg code gmp x) = field x) ->
  (b = true -> forall th e x, field (recolored th e x) = field x) ->
  refreshed field s (snd (_refreshStyles b s)).
Proof.
  intros Hf Hb. unfold _refreshStyles. rewrite bind_get.
  assert (Hk : keeps (refreshed field s)
                 (if b
                  then forEach (_decorations s)
                         (fun kv => refreshOverviewRulerColor (theme s) (snd kv))
                  else ret tt)).
  { destruct b; [|apply keeps_ret].
    apply keeps_forEach. intros kv.
    exact (keeps_refreshed_alter field s (decoration (snd kv))
             (recolored (theme s) (snd kv)) (Hb eq_refl _ _)). }
  refine (keeps_bind _ _ _ Hk _ s (refreshed_refl field s)).
  intros _. now apply keeps_refreshed_classes.
Qed.

Lemma refreshStyles_returns (b : bool) (s : Addon) :
  iconsValid (configuration s) = true -> fst (_refreshStyles b s) = Returned tt.
Proof.
  intros Hv.
  assert (H : hoare (fun s' => configuration s' = configuration s) (_refreshStyles b)
                (fun _ _ => True) (fun _ => False)).
  { assert (Hu : forall d code gmp,
               hoare (fun s' => configuration s' = configuration s)
                 (updateClasses_of d code gmp)
                 (fun _ s' => configuration s' = configuration s) (fun _ => False)).
    { intros d code gmp s' Hs'.
      pose proof (updateClasses_of_returns d code gmp s') as Hr.
      pose proof (updateClasses_of_state d code gmp s') as Hst.
      rewrite Hs' in Hr. specialize (Hr Hv).
      destruct (updateClasses_of d code gmp s') as [[u|e] s'']; [|discriminate].
      cbn [snd] in Hst. rewrite Hst. exact Hs'. }
    unfold _refreshStyles. apply hoare_get_bind. intros s1 Hs1.
    eapply hoare_bind with (Q := fun _ s' => configuration s' = configuration s).
    - eapply hoare_pre with (P := fun s' => configuration s' = configuration s);
        [|intros ? ->; exact Hs1].
      destruct b; [|intros s' Hs'; exact Hs'].
      apply hoare_forEach_inv. intros kv.
      unfold refreshOverviewRulerColor, alter_decoration.
      apply hoare_modify. intros s' Hs'. exact Hs'.
    - intros _.
      eapply hoare_bind with (Q := fun _ s' => configuration s' = configuration s).
      + destruct (_placeholderDecoration s1); [apply Hu | intros s' Hs'; exact Hs'].
      + intros _. eapply hoare_post; [apply hoare_forEach_inv; intros kv; apply Hu|].
        intros; exact I. }
  specialize (H s eq_refl). destruct (_refreshStyles b s) as [[[]|e] s']; [reflexivity|].
  destruct H.
Qed.

Lemma refreshLayouts_closed (s : Addon) :
  refreshLayouts s = (Returned tt, set_hostDecorations (refreshedLayouts s) s).
Proof.
  unfold refreshLayouts, refreshedLayouts. rewrite bind_get.
  set (H1 := match _placeholderDecoration s with
             | Some p => alter _ p (hostDecorations s)
             | None => hostDecorations s
             end).
  assert (E1 : (match _placeholderDecoration s with
                | Some p => update_element p (updateLayout_element (configuration s))
                | None => ret tt
                end) s = (Returned tt, set_hostDecorations H1 s)).
  { subst H1. destruct (_placeholderDecoration s); [reflexivity|].
    unfold ret. now rewrite set_hostDecorations_same. }
  rewrite (bind_returned _ _ _ _ _ E1).
  exact (forEach_alter_closed (fun kv : nat * IDisposableDecoration => decoration (snd kv))
           (fun _ => restyled (updateLayout_element (configuration s)))
           (_decorations s) (set_hostDecorations H1 s)).
Qed.

Lemma updateLayout_classList (cfg : Configuration) (el : HTMLElement) :
  classList (updateLayout_element cfg el) = classList el.
Proof.
  unfold updateLayout_element.
  destruct (fontSize cfg), (defaultFontSize cfg), (lineHeight cfg); reflexivity.
Qed.

(** [refreshLayouts] and [_refreshStyles] change nothing of the addon but
    the looks of decorations the host holds: the registry, the placeholder
    reference, the listeners and the flags are as before, no decoration is
    created or disposed, and none gets an element that had none.
    [refreshLayouts] returns and leaves the classes and the overview ruler
    option of every decoration alone; [_refreshStyles] leaves the inline
    style alone, [_refreshStyles(false)] the overview ruler option, and it
    returns when none of the configured icons has whitespace in its name. *)
Theorem refresh_is_cosmetic (s : Addon) (b : bool) (d : nat) :
  let r1 := refreshLayouts s in
  let r2 := _refreshStyles b s in
  (fst r1 = Returned tt /\
   snd r1 = set_hostDecorations (hostDecorations (snd r1)) s /\
   length (hostDecorations (snd r1)) = length (hostDecorations s) /\
   identity <$> hostDecorations (snd r1) !! d = identity <$> hostDecorations s !! d /\
   overviewRulerOptions <$> hostDecorations (snd r1) !! d =
     overviewRulerOptions <$> hostDecorations s !! d /\
   (fun x => classList <$> element x) <$> hostDecorations (snd r1) !! d =
     (fun x => classList <$> element x) <$> hostDecorations s !! d) /\
  ((iconsValid (configuration s) = true -> fst r2 = Returned tt) /\
   snd r2 = set_hostDecorations (hostDecorations (snd r2)) s /\
   length (hostDecorations (snd r2)) = length (hostDecorations s) /\
   identity <$> hostDecorations (snd r2) !! d = identity <$> hostDecorations s !! d /\
   (fun x => style <$> element x) <$> hostDecorations (snd r2) !! d =
     (fun x => style <$> element x) <$> hostDecorations s !! d /\
   (b = false ->
    overviewRulerOptions <$> hostDecorations (snd r2) !! d =
      overviewRulerOptions <$> hostDecorations s !! d)).
Proof.
  intros r1 r2. subst r1 r2. rewrite refreshLayouts_closed.
  cbn [fst snd]. split.
  - split; [reflexivity|]. split; [reflexivity|].
    change (hostDecorations (set_hostDecorations (refreshedLayouts s) s))
      with (refreshedLayouts s).
    unfold refreshedLayouts.
    split; [|split; [|split]].
    + rewrite altered_length.
      destruct (_placeholderDecoration s); [apply length_alter | reflexivity].
    + rewrite altered_field by reflexivity.
      destruct (_placeholderDecoration s); [|reflexivity].
      now apply alter_field.
    + rewrite altered_field by reflexivity.
      destruct (_placeholderDecoration s); [|reflexivity].
      now apply alter_field.
    + assert (Hf : forall dec,
                (fun x => classList <$> element x)
                  (restyled (updateLayout_element (configuration s)) dec) =
                (fun x => classList <$> element x) dec).
      { intros dec. simpl. destruct (element dec); simpl; [|reflexivity].
        now rewrite updateLayout_classList. }
      rewrite altered_field by (intros _; exact Hf).
      destruct (_placeholderDecoration s); [|reflexivity].
      now apply alter_field.
  - split; [apply refreshStyles_returns|].
    assert (Hst : forall cfg code gmp x,
                (fun x => style <$> element x) (reclassed cfg code gmp x) =
                (fun x => style <$> element x) x).
    { intros cfg code gmp x. unfold reclassed. simpl.
      destruct (element x); reflexivity. }
    pose proof (refreshStyles_refreshed identity b s (fun _ _ _ _ => eq_refl)
                  (fun _ _ _ _ => eq_refl)) as (H1 & H2 & H3).
    pose proof (refreshStyles_refreshed (fun x => style <$> element x) b s Hst
                  (fun _ _ _ _ => eq_refl)) as (_ & _ & H4).
    split; [exact H1|]. split; [exact H2|]. split; [apply H3|]. split; [apply H4|].
    intros ->.
    pose proof (refreshStyles_refreshed overviewRulerOptions false s
                  (fun _ _ _ _ => eq_refl) (fun Hc => False_ind _ (diff_false_true Hc)))
      as (_ & _ & H5).
    apply H5.
Qed.

Lemma refresh_is_cosmetic_witness :
  fst (_refreshStyles false (finishedAddon Both)) = Returned tt /\
  overviewRulerOptions <$>
    hostDecorations (snd (_refreshStyles false (finishedAddon Both))) !! 0 =
  overviewRulerOptions <$> hostDecorations (finishedAddon Both) !! 0.
Proof.
  pose proof (refresh_is_cosmetic (finishedAddon Both) false 0) as H.
  cbv zeta in H. destruct H as (_ & H0 & _ & _ & _ & _ & H).
  split; [apply H0; vm_compute; reflexivity | now apply H].
Defined.

(** [_refreshStyles(true)], whatever has happened to the addon since its
    construction: the decoration of every entry of the registry ends with an
    overview ruler option, whether it had one or not and whatever the
    decorations setting is; its colour is the colour of the exit code of the
    entry under the theme, its position the one the decoration had, if any. *)
Theorem refreshStyles_recolors cap cfg th conts answers (evs : list Event)
    (k : nat) (e : IDisposableDecoration) :
  let a := run evs (construct cap cfg th conts answers) in
  let a' := snd (_refreshStyles true a) in
  In (k, e) (_decorations a) ->
  exists dec0 dec,
    hostDecorations a !! decoration e = Some dec0 /\
    hostDecorations a' !! decoration e = Some dec /\
    overviewRulerOptions dec =
      Some {| color := commandColor (theme a) (entryExitCode e);
              position := match overviewRulerOptions dec0 with
                          | Some o => position o
                          | None => None
                          end |}.
Proof.
  intros a a' Hin. subst a'.
  assert (Ht : tracked a) by apply tracked_always.
  destruct Ht as (Hnd & H2 & H34).
  destruct (H2 k e Hin) as (dec0 & Hl0 & _).
  assert (Ht : tracked a) by apply tracked_always.
  pose proof (altered_once (fun kv : nat * IDisposableDecoration => decoration (snd kv))
                (fun kv => recolored (theme a) (snd kv)) (_decorations a)
                (hostDecorations a) (k, e) (tracked_decorations_NoDup a Ht) Hin) as H1.
  cbn [snd] in H1. rewrite Hl0 in H1. simpl fmap in H1.
  assert (Horo : overviewRulerOptions <$>
                   hostDecorations (snd (_refreshStyles true a)) !! decoration e =
                 Some (overviewRulerOptions (recolored (theme a) e dec0))).
  { unfold _refreshStyles. rewrite bind_get.
    rewrite (bind_returned _ _ _ _ _
               (forEach_alter_closed (fun kv => decoration (snd kv))
                  (fun kv => recolored (theme a) (snd kv)) (_decorations a) a)).
    match goal with
    | |- context [snd (bind ?m ?k ?s1)] =>
        pose proof (keeps_refreshed_classes overviewRulerOptions s1
                      (_placeholderDecoration a) (_decorations a)
                      (fun _ _ _ _ => eq_refl) s1 (refreshed_refl _ s1)) as (_ & _ & H5)
    end.
    rewrite H5. cbn [hostDecorations set_hostDecorations]. now rewrite H1. }
  destruct (hostDecorations (snd (_refreshStyles true a)) !! decoration e) as [dec|] eqn:El;
    [|discriminate].
  exists dec0, dec. split; [exact Hl0|]. split; [reflexivity|].
  simpl in Horo. injection Horo as ->. unfold recolored. simpl.
  now destruct (overviewRulerOptions dec0).
Qed.

Lemma refreshStyles_recolors_witness :
  exists dec0 dec,
    hostDecorations
      (run [Activate; Rendered 0 freshElement]
         (construct (Some (sampleCapability false true)) (sampleConfiguration Gutter)
            sampleTheme [[]] (fun _ => true))) !! 0 = Some dec0 /\
    hostDecorations
      (snd (_refreshStyles true
              (run [Activate; Rendered 0 freshElement]
                 (construct (Some (sampleCapability false true))
                    (sampleConfiguration Gutter) sampleTheme [[]] (fun _ => true)))))
      !! 0 = Some dec /\
    overviewRulerOptions dec0 = None /\
    overviewRulerOptions dec = Some {| color := "#f14c4c"; position := None |}.
Proof.
  pose proof (refreshStyles_recolors (Some (sampleCapability false true))
                (sampleConfiguration Gutter) sampleTheme [[]] (fun _ => true)
                [Activate; Rendered 0 freshElement] 2
                {| decoration := 0;
                   disposables := [Click; MouseEnter; MouseLeave; MouseOut];
                   entryExitCode := Some 2%Z;
                   entryGenericMarkProperties := None |}) as H.
  cbv zeta in H. destruct H as (dec0 & dec & H0 & H1 & H2).
  - vm_compute. left. reflexivity.
  - exists dec0, dec. split; [exact H0|]. split; [exact H1|].
    assert (E : hostDecorations
                  (run [Activate; Rendered 0 freshElement]
                     (construct (Some (sampleCapability false true))
                        (sampleConfiguration Gutter) sampleTheme [[]] (fun _ => true)))
                !! 0 = Some dec0 -> overviewRulerOptions dec0 = None).
    { vm_compute. intros E. injection E as <-. reflexivity. }
    pose proof (E H0) as E0. split; [exact E0|].
    rewrite H2, E0. vm_compute. reflexivity.
Defined.

(** ** From the placeholder to the final decoration *)

Lemma map_get_snoc {V} (k : nat) (v : V) (m : JsMap V) :
  map_get k m = None -> map_get k (m ++ [(k, v)]) = Some v.
Proof.
  unfold map_get. induction m as [|kv m IH]; simpl.
  - now rewrite Nat.eqb_refl.
  - destruct (Nat.eqb (fst kv) k); [discriminate | exact IH].
Qed.

Lemma since_alter (s0 s : Addon) (d : nat) (f : IDecoration -> IDecoration) :
  (forall x, overviewRulerOptions (f x) = overviewRulerOptions x) ->
  (forall x, isDisposed (f x) = isDisposed x) ->
  since s0 s -> since s0 (set_hostDecorations (alter f d (hostDecorations s)) s).
Proof.
  intros Ho Hd Hs. eapply since_trans; [exact Hs|].
  apply since_step_alter; [exact Ho|]. intros x H. now rewrite Hd.
Qed.

Lemma keeps_since_render (s0 : Addon) (d : nat) (fresh : HTMLElement) :
  keeps (since s0) (host_render d fresh).
Proof.
  intros s Hs. unfold host_render, bind, get.
  destruct (hostDecorations s !! d) as [dec|] eqn:Hl; [|exact Hs].
  destruct (isDisposed dec); [exact Hs|].
  unfold onRender_listener, bind, get. rewrite Hl.
  destruct (map_get (marker_id (decorationMarker dec)) (_decorations s)); simpl;
    rewrite snd_rethrow.
  - now apply since_alter.
  - match goal with
    | |- since s0 (set_hostDecorations (alter ?f d _) ?x) =>
        apply (since_alter s0 x d f); [reflexivity | reflexivity |]
    end.
    match goal with
    | |- since s0 (set_decorations ?m ?x) =>
        apply (since_ext s0 x); [reflexivity|]
    end.
    now apply since_alter.
Qed.

Lemma keeps_placeholder_render (v : option nat) (d : nat) (fresh : HTMLElement) :
  keeps (fun s => _placeholderDecoration s = v) (host_render d fresh).
Proof.
  unfold host_render, onRender_listener, alter_decoration.
  repeat first [ keeps_step | (intros s H; exact H) ].
Qed.

(** When a command finishes whose placeholder has been rendered, the
    registration of the final decoration disposes the placeholder, whose
    entry leaves the registry, and the rendering of the final decoration
    enters it under the same marker, with the exit code of the command and
    the listeners of a finished command. *)
Theorem placeholder_replaced_by_final cap cfg th conts answers (evs : list Event)
    (p k : nat) (e : IDisposableDecoration) (c : TerminalCommand) (m : Marker)
    (fresh : HTMLElement) :
  let a := run evs (construct cap cfg th conts answers) in
  let a1 := snd (registerCommandDecoration c false a) in
  let d := length (hostDecorations a) in
  let a2 := step a1 (Rendered d fresh) in
  _placeholderDecoration a = Some p -> In (k, e) (_decorations a) -> decoration e = p ->
  guarded a c false = false -> marker c = Some m -> marker_id m = k ->
  registerDecorationAnswers a (registerDecorationCalls a) = true ->
  fst (registerCommandDecoration c false a) = Returned (Some d) /\
  (exists dec, hostDecorations a2 !! p = Some dec /\ isDisposed dec = true) /\
  _placeholderDecoration a2 = None /\
  map_get k (_decorations a1) = None /\
  map_get k (_decorations a2) =
    Some {| decoration := d;
            disposables := _createDisposables c;
            entryExitCode := exitCode c;
            entryGenericMarkProperties := genericMarkProperties c |}.
Proof.
  intros a a1 d a2 Hp Hin He Hg Hm Hk Hans.
  assert (Ht : tracked a) by apply tracked_always.
  pose proof Ht as (Hnd & H2 & _).
  destruct (H2 k e Hin) as (dec0 & Hl0 & Hlive0 & _ & Hon0). rewrite He in Hl0.
  assert (Ha1 : registerCommandDecoration c false a =
                (Returned (Some d),
                 set_hostDecorations
                   (hostDecorations (cleared a) ++
                    [newDecoration m (rulerOptions (cleared a) c false) c false])
                   (set_registerDecorationCalls (S (registerDecorationCalls a))
                      (cleared a)))).
  { rewrite (registerCommandDecoration_registered c false m a Hg Hm).
    unfold registered. rewrite cleared_answers, cleared_calls, cleared_length, Hans.
    reflexivity. }
  assert (Hreg1 : map_get k (_decorations a1) = None).
  { subst a1. rewrite Ha1. cbn [snd]. simpl. unfold cleared. rewrite Hp. simpl.
    destruct (map_get k (delete_keys (dispose_keys p a) (_decorations a))) as [e'|] eqn:E;
      [|reflexivity].
    apply map_get_In, In_delete_keys in E. destruct E as [_ E]. exfalso. apply E.
    simpl. unfold dispose_keys. now rewrite Hl0, Hlive0. }
  assert (Hl1 : hostDecorations a1 !! d =
                Some (newDecoration m (rulerOptions (cleared a) c false) c false)).
  { subst a1 d. rewrite Ha1. cbn [snd]. simpl. rewrite <- (cleared_length a).
    now apply list_lookup_middle. }
  assert (Hreg2 : _decorations a2 =
                  _decorations a1 ++
                  [(k, {| decoration := d;
                          disposables := _createDisposables c;
                          entryExitCode := exitCode c;
                          entryGenericMarkProperties := genericMarkProperties c |})]).
  { subst a2. rewrite (rendered_entry a1 d _ fresh Hl1 eq_refl); simpl; rewrite Hk;
      [reflexivity | exact Hreg1]. }
  split; [subst a1; now rewrite Ha1|].
  split; [|split; [|split]].
  - assert (Hd1 : hostDecorations a1 !! p = Some (dec_set_isDisposed true dec0)).
    { subst a1. rewrite Ha1. cbn [snd]. simpl. apply lookup_app_l_Some.
      now apply cleared_placeholder_disposed. }
    pose proof (keeps_since_render a1 d fresh) as Hk2.
    destruct (Hk2 a1 (since_refl a1) p _ Hd1) as (dec & Hl & _ & Hdis).
    exists dec. split; [exact Hl | now apply Hdis].
  - apply (keeps_placeholder_render None d fresh a1).
    subst a1. rewrite Ha1. reflexivity.
  - exact Hreg1.
  - rewrite Hreg2. now apply map_get_snoc.
Qed.

Lemma placeholder_replaced_by_final_witness :
  map_get 1
    (_decorations
       (step
          (snd (registerCommandDecoration (sampleCommand "ls" 1 (Some 0%Z) false) false
                  (run [Activate; CommandStarted (sampleCommand "ls" 1 None false);
                        Rendered 0 freshElement]
                     (construct (Some (sampleCapability false false))
                        (sampleConfiguration Both) sampleTheme [[]] (fun _ => true)))))
          (Rendered
             (length
                (hostDecorations
                   (run [Activate; CommandStarted (sampleCommand "ls" 1 None false);
                         Rendered 0 freshElement]
                      (construct (Some (sampleCapability false false))
                         (sampleConfiguration Both) sampleTheme [[]] (fun _ => true)))))
             freshElement))) =
  Some {| decoration :=
            length
              (hostDecorations
                 (run [Activate; CommandStarted (sampleCommand "ls" 1 None false);
                       Rendered 0 freshElement]
                    (construct (Some (sampleCapability false false))
                       (sampleConfiguration Both) sampleTheme [[]] (fun _ => true))));
          disposables := _createDisposables (sampleCommand "ls" 1 (Some 0%Z) false);
          entryExitCode := exitCode (sampleCommand "ls" 1 (Some 0%Z) false);
          entryGenericMarkProperties :=
            genericMarkProperties (sampleCommand "ls" 1 (Some 0%Z) false) |}.
Proof.
  pose proof (placeholder_replaced_by_final (Some (sampleCapability false false))
                (sampleConfiguration Both) sampleTheme [[]] (fun _ => true)
                [Activate; CommandStarted (sampleCommand "ls" 1 None false);
                 Rendered 0 freshElement]
                0 1 {| decoration := 0; disposables := []; entryExitCode := None;
                       entryGenericMarkProperties := None |}
                (sampleCommand "ls" 1 (Some 0%Z) false)
                {| marker_id := 1; marker_line := 5 |} freshElement) as H.
  cbv zeta in H.
  destruct H as (_ & _ & _ & _ & H).
  - vm_compute. reflexivity.
  - vm_compute. left. reflexivity.
  - reflexivity.
  - vm_compute. reflexivity.
  - reflexivity.
  - reflexivity.
  - vm_compute. reflexivity.
  - exact H.
Defined.

(** ** The mode "both" *)

(** [_updateDecorationVisibility] for "both", on an addon that is enabled,
    has an empty registry, a stale placeholder reference and an active
    terminal whose host creates every decoration, when the capability knows
    a finished command: the first [_attachToCommandCapability] replays the
    capability under the flags found, the second under the new flags. *)
Lemma visibility_both_twice (s : Addon) (cap : Capability) :
  shellIntegrationDecorationsEnabled (configuration s) = Both ->
  _decorations s = [] ->
  stale (_placeholderDecoration s) (hostDecorations s) ->
  registering s ->
  capabilities s = Some cap ->
  commands cap <> [] ->
  Forall (fun c => isSome (marker c) = true) (commands cap) ->
  hoare (fun x => x = s) _updateDecorationVisibility
    (fun _ x => _decorations x = [] /\
                flags x = (Some true, Some false) /\
                _placeholderDecoration x = None /\
                hostDecorations x =
                  (hostDecorations s ++ replayed s cap) ++ replayed x cap)
    (fun _ => False).
Proof.
  intros Hmode Hm Hst Hreg Hcap Hne Hall.
  unfold _updateDecorationVisibility.
  apply hoare_get_bind. intros s1 ->. rewrite Hmode.
  set (s0 := set_decorationsDisabled (Some false)
               (set_overviewRulerDecorations (Some true) s)).
  assert (Hph : forall x n ph, replayedPlaceholder x cap n ph = None).
  { intros x n ph. unfold replayedPlaceholder. destruct (commands cap); congruence. }
  eapply hoare_bind
    with (Q := fun _ => replaying s (hostDecorations s) (_placeholderDecoration s)).
  { apply hoare_modify. intros x ->. repeat split; assumption. }
  intros u. eapply hoare_bind
    with (Q := fun _ => replaying s (hostDecorations s ++ replayed s cap) None).
  { eapply hoare_post; [apply (hoare_replay_attach s cap); assumption|].
    intros u0 x Hx. cbv beta in Hx. now rewrite Hph in Hx. }
  intros u0. eapply hoare_bind
    with (Q := fun _ x => hostDecorations x = hostDecorations s ++ replayed s cap /\
                          _decorations x = [] /\
                          _placeholderDecoration x = None /\
                          _terminal x = _terminal s /\ theme x = theme s /\
                          capabilities x = capabilities s /\
                          registerDecorationAnswers x = registerDecorationAnswers s /\
                          _overviewRulerDecorations x = Some true).
  { apply hoare_modify. intros x (H1 & H2 & H3 & H4). unfold setup in H4.
    injection H4 as H5 H6 H7 H8 H9 H10. simpl. repeat split; assumption. }
  intros u1. eapply hoare_bind
    with (Q := fun _ => replaying s0 (hostDecorations s ++ replayed s cap) None).
  { apply hoare_modify. intros x (H1 & H2 & H3 & H4 & H5 & H6 & H7 & H8).
    unfold replaying, setup. simpl. rewrite H1, H2, H3, H4, H5, H6, H7, H8.
    repeat split. }
  intros u2. eapply hoare_post.
  { apply (hoare_replay_attach s0 cap); auto.
    - destruct Hreg as (Ht & _ & Ha). repeat split; auto.
    - intros p dec Hp. discriminate. }
  intros u3 x Hx. cbv beta in Hx. rewrite Hph in Hx.
  destruct Hx as (Hx1 & Hx2 & Hx3 & Hx4).
  split; [exact Hx2|]. split; [|split; [exact Hx3|]].
  - unfold setup in Hx4. unfold flags. injection Hx4 as _ H1 H2 _ _ _. now rewrite H1, H2.
  - rewrite Hx1. f_equal. symmetry. now apply replayed_setup.
Qed.

(** A change of the decorations setting to "both" while decorations are
    enabled replays the capability twice: with an active terminal, a host
    that creates every decoration and a capability that knows finished
    commands, each with a marker, the listener returns, and after the
    decorations the host held come the decorations of a replay under the
    flags of before, then those of a replay under the new flags; so every
    finished command has two new decorations that are not disposed, at the
    same marker, of which the registry can hold one. *)
Theorem both_registers_twice cap0 cfg th conts answers (evs : list Event)
    (cap : Capability) :
  let a := run evs (construct cap0 cfg th conts answers) in
  let a' := setVisibility Both a in
  _terminal a = true -> truthy_flag (_decorationsDisabled a) = false ->
  capabilities a = Some cap ->
  (forall n, registerDecorationAnswers a n = true) ->
  commands cap <> [] ->
  Forall (fun c => isSome (marker c) = true) (commands cap) ->
  fst (setVisibility_run Both a) = Returned tt /\
  _decorations a' = [] /\
  drop (length (hostDecorations a)) (hostDecorations a') =
    replayed a cap ++ replayed a' cap /\
  (forall c m, In c (commands cap) -> marker c = Some m ->
     In (newDecoration m (rulerOptions a c false) c false)
        (drop (length (hostDecorations a)) (hostDecorations a')) /\
     In (newDecoration m (rulerOptions a' c false) c false)
        (drop (length (hostDecorations a)) (hostDecorations a'))).
Proof.
  intros a a' Hterm Hdis Hcap Hans Hne Hall.
  assert (Ht : tracked a) by apply tracked_always.
  set (ac := set_configuration (with_mode Both (configuration a)) a).
  assert (Htc : tracked ac) by now apply tracked_set_configuration.
  destruct (shaped_fields ac (swept ac) (shaped_swept ac))
    as (Hsetup & _ & Hcfg & _).
  assert (Hs : setup (swept ac) = setup a) by exact Hsetup.
  pose proof Hs as Hs'. unfold setup in Hs'. injection Hs' as Hs1 Hs2 Hs3 Hs4 Hs5 Hs6.
  assert (Hq : hoare (fun x => x = swept ac) _updateDecorationVisibility
                 (fun _ x => _decorations x = [] /\
                             flags x = (Some true, Some false) /\
                             _placeholderDecoration x = None /\
                             hostDecorations x =
                               (hostDecorations (swept ac) ++ replayed (swept ac) cap) ++
                               replayed x cap)
                 (fun _ => False)).
  { apply visibility_both_twice; try assumption.
    - rewrite Hcfg. reflexivity.
    - now apply swept_registry.
    - apply swept_stale.
    - repeat split.
      + now rewrite Hs1.
      + now rewrite Hs2.
      + intros n. now rewrite Hs6.
    - now rewrite Hs5. }
  specialize (Hq (swept ac) eq_refl).
  assert (Hrun : setVisibility_run Both a = _updateDecorationVisibility (swept ac))
    by apply setVisibility_run_swept.
  subst a'. unfold setVisibility. rewrite Hrun.
  destruct (_updateDecorationVisibility (swept ac)) as [[u|msg] x]; [|destruct Hq].
  destruct Hq as (Hx1 & Hx2 & Hx3 & Hx4). cbn [fst snd].
  assert (Hdrop : drop (length (hostDecorations a)) (hostDecorations x) =
                  replayed a cap ++ replayed x cap).
  { rewrite Hx4, <- app_assoc, (replayed_setup (swept ac) a cap Hs).
    change (hostDecorations a) with (hostDecorations ac).
    rewrite <- (swept_length ac). apply drop_app_length. }
  split; [destruct u; reflexivity|]. split; [exact Hx1|]. split; [exact Hdrop|].
  intros c m Hc Hm. rewrite Hdrop.
  assert (Hin : forall y, In (newDecoration m (rulerOptions y c false) c false)
                            (replayed y cap)).
  { intros y. unfold replayed. destruct (commands cap) as [|c0 cs] eqn:E; [destruct Hc|].
    apply in_or_app. right. apply list_elem_of_In, list_elem_of_omap.
    exists c. split; [now apply list_elem_of_In|].
    unfold finalDecoration. now rewrite Hm. }
  split; apply in_or_app; [left | right]; apply Hin.
Qed.

Lemma both_registers_twice_witness :
  drop
    (length
       (hostDecorations
          (run [Activate; Rendered 0 freshElement]
             (construct (Some (sampleCapability false true)) (sampleConfiguration Gutter)
                sampleTheme [[]] (fun _ => true)))))
    (hostDecorations
       (setVisibility Both
          (run [Activate; Rendered 0 freshElement]
             (construct (Some (sampleCapability false true)) (sampleConfiguration Gutter)
                sampleTheme [[]] (fun _ => true))))) =
  [newDecoration {| marker_id := 2; marker_line := 5 |} None
     (sampleCommand "make" 2 (Some 2%Z) true) false;
   newDecoration {| marker_id := 2; marker_line := 5 |}
     (Some {| color := "#f14c4c"; position := Some RulerRight |})
     (sampleCommand "make" 2 (Some 2%Z) true) false].
Proof.
  pose proof (both_registers_twice (Some (sampleCapability false true))
                (sampleConfiguration Gutter) sampleTheme [[]] (fun _ => true)
                [Activate; Rendered 0 freshElement] (sampleCapability false true)) as H.
  cbv zeta in H. destruct H as (_ & _ & H & _).
  - vm_compute. reflexivity.
  - vm_compute. reflexivity.
  - vm_compute. reflexivity.
  - intros n. vm_compute. reflexivity.
  - simpl. discriminate.
  - repeat constructor.
  - rewrite H. vm_compute. reflexivity.
Defined.

(** ** A finished command without a marker *)

Lemma open_ext (n : nat) (s s' : Addon) :
  _terminal s' = _terminal s -> _decorationsDisabled s' = _decorationsDisabled s ->
  removeCapabilityListeners s' = removeCapabilityListeners s ->
  open n s -> open n s'.
Proof. unfold open. now intros -> -> ->. Qed.

Lemma keeps_open_register (n : nat) (c : TerminalCommand) (before : bool) :
  keeps (open n) (registerCommandDecoration c before).
Proof.
  intros s H. destruct (guarded s c before) eqn:Hg.
  - now rewrite registerCommandDecoration_guarded.
  - destruct (marker c) as [m|] eqn:Hm.
    + rewrite (registerCommandDecoration_registered c before m s Hg Hm).
      unfold registered, cleared.
      destruct (registerDecorationAnswers _ _); destruct before;
        destruct (_placeholderDecoration s); simpl;
        revert H; apply open_ext; reflexivity.
    + now rewrite registerCommandDecoration_no_marker.
Qed.

Lemma keeps_open_push (n : nat) (ev : CommandEvent) (cap : Capability) :
  keeps (open n) (push_listener ev cap).
Proof.
  intros s H. unfold push_listener, bind, get.
  destruct (_commandDetectionListeners s); [|exact H].
  simpl. revert H. apply open_ext; reflexivity.
Qed.

Lemma register_marker_returns (c : TerminalCommand) (before : bool) (m : Marker)
    (s : Addon) :
  marker c = Some m -> thrown (fst (registerCommandDecoration c before s)) = false.
Proof.
  intros Hm. destruct (guarded s c before) eqn:Hg.
  - now rewrite registerCommandDecoration_guarded.
  - rewrite (registerCommandDecoration_registered c before m s Hg Hm).
    unfold registered. now destruct (registerDecorationAnswers _ _).
Qed.

(** The replay of the finished commands stops at the first one without a
    marker, with the exception of [registerCommandDecoration]. *)
Lemma hoare_replay_throws (evs : list CommandEvent) (n : nat) (cs : list TerminalCommand) :
  Exists (fun c => marker c = None) cs ->
  hoare (fun s => binding evs s /\ open n s)
    (forEach cs (fun c => ignore (registerCommandDecoration c false)))
    (fun _ _ => False)
    (fun s => binding evs s /\ open n s).
Proof.
  induction cs as [|c cs IH]; intros Hex; [now apply Exists_nil in Hex|].
  intros s [Hb Ho]. cbn [forEach]. unfold bind at 1. unfold ignore at 1. unfold bind at 1.
  destruct (marker c) as [m|] eqn:Hm.
  - pose proof (register_marker_returns c false m s Hm) as Hr.
    pose proof (keeps_binding_register evs c false s Hb) as Hb'.
    pose proof (keeps_open_register n c false s Ho) as Ho'.
    destruct (registerCommandDecoration c false s) as [[r|msg] s']; [|discriminate].
    simpl. apply IH; [|now split].
    apply Exists_cons in Hex. destruct Hex as [Hex | Hex]; [congruence | exact Hex].
  - assert (Hg : guarded s c false = false).
    { unfold guarded. destruct Ho as (-> & -> & _). reflexivity. }
    rewrite (registerCommandDecoration_no_marker c false s Hg Hm). now split.
Qed.

Lemma hoare_subscribe_throws (capability : Capability) (n : nat) :
  Exists (fun c => marker c = None) (commands capability) ->
  hoare (fun s => all_disposed s /\ open n s)
    (replayAndSubscribe capability)
    (fun _ _ => False)
    (fun s => binding [OnCommandStarted] s /\ open n s).
Proof.
  intros Hex. unfold replayAndSubscribe.
  eapply hoare_bind with (Q := fun _ s => binding [] s /\ open n s).
  { intros s [Hall Ho]. simpl. split; [now apply all_disposed_binding|].
    revert Ho. apply open_ext; reflexivity. }
  intros _. eapply hoare_bind with (Q := fun _ s => binding [] s /\ open n s).
  { eapply hoare_weaken;
      [apply (hoare_never_thrown (fun s => binding [] s /\ open n s)) | auto | auto |
       intros s []].
    - destruct (executingCommandObject capability) as [c|]; [|apply keeps_ret].
      destruct (isSome (marker c)); [|apply keeps_ret].
      apply keeps_ignore, keeps_and;
        [apply keeps_binding_register | apply keeps_open_register].
    - intros s. destruct (executingCommandObject capability) as [c|]; [|reflexivity].
      destruct (marker c) as [m|] eqn:Hm; [|reflexivity]. cbn [isSome].
      pose proof (register_marker_returns c true m s Hm) as Hr.
      unfold ignore, bind. now destruct (registerCommandDecoration c true s) as [[r|msg] s']. }
  intros _. eapply hoare_bind
    with (Q := fun _ s => binding [OnCommandStarted] s /\ open n s).
  { apply hoare_and_keeps; [apply (hoare_push []) | apply keeps_open_push]. }
  intros _. eapply hoare_bind with (Q := fun _ _ => False).
  { now apply hoare_replay_throws. }
  intros _ s [].
Qed.

(** [activate] lets the error of a replayed command through: when
    decorations are not disabled and the capability knows a finished command
    without a marker, [activate] throws; the terminal is set, the listener
    of [onDidRemoveCapability] is not registered, and of the listeners of
    the capability only the one of "command started" may have been
    registered, so that later "command finished" and "command invalidated"
    events do not reach the addon. *)
Theorem activate_throws_on_missing_marker cap0 cfg th conts answers (evs : list Event)
    (cap : Capability) (ev : CommandEvent) :
  let a := run evs (construct cap0 cfg th conts answers) in
  let r := activate a in
  truthy_flag (_decorationsDisabled a) = false ->
  capabilities a = Some cap ->
  Exists (fun c => marker c = None) (commands cap) ->
  thrown (fst r) = true /\
  _terminal (snd r) = true /\
  removeCapabilityListeners (snd r) = removeCapabilityListeners a /\
  (ev <> OnCommandStarted -> active_for ev (snd r) = [] /\ fired ev (snd r) = []).
Proof.
  intros a r Hdis Hcap Hex. subst r.
  assert (Hb : bound a) by apply bound_always.
  set (n := removeCapabilityListeners a).
  set (a0 := set_terminal true a).
  assert (Hb0 : bound a0) by (revert Hb; now apply bound_ext).
  assert (Ho0 : open n a0) by (repeat split; assumption).
  destruct (bound_disposed_first a0 Hb0) as (Hall & _ & Hr). cbv zeta in Hall, Hr.
  set (m := match _commandDetectionListeners a0 with
            | Some l => dispose_listeners l
            | None => ret tt
            end) in *.
  assert (Ho1 : open n (snd (m a0))).
  { subst m. destruct (_commandDetectionListeners a0);
      [rewrite dispose_listeners_closed|]; exact Ho0. }
  pose proof (hoare_subscribe_throws cap n Hex (snd (m a0)) (conj Hall Ho1)) as H.
  assert (Hact : activate a =
                 bind (replayAndSubscribe cap)
                   (fun _ => modify (fun x => set_removeCapabilityListeners
                                                (S (removeCapabilityListeners x)) x))
                   (snd (m a0))).
  { unfold activate. rewrite (bind_returned _ _ a a0 tt eq_refl).
    unfold _attachToCommandCapability. rewrite bind_get.
    change (capabilities a0) with (capabilities a). rewrite Hcap. cbn [isSome].
    unfold _addCommandDetectionListeners at 1.
    unfold bind at 1. rewrite bind_get. fold m.
    unfold bind at 1. rewrite (run_eta m a0), Hr.
    change (capabilities a0) with (capabilities a). rewrite Hcap. reflexivity. }
  rewrite Hact.
  destruct (replayAndSubscribe cap (snd (m a0))) as [[u|msg] x] eqn:E; [destruct H|].
  rewrite (bind_thrown _ _ _ _ _ E). cbn [fst snd]. destruct H as [(old & new & Hs & Hold & Hl & Hev) (Ht & _ & Hn)].
  split; [reflexivity|]. split; [exact Ht|]. split; [exact Hn|].
  intros Hne.
  assert (Hact' : active_for ev x = []).
  { unfold active_for. rewrite Hs, List.filter_app.
    assert (H1 : List.filter (fun sub => subActive sub && event_eqb (subEvent sub) ev) old
                 = []).
    { apply filter_none. intros sub Hin.
      apply list_elem_of_In in Hin. rewrite Forall_forall in Hold.
      now rewrite (Hold sub Hin). }
    rewrite H1. simpl.
    destruct new as [|sub [|sub' new]]; try discriminate.
    simpl in Hev. injection Hev as Hev. simpl. rewrite Hev.
    destruct ev; try congruence; now rewrite andb_false_r. }
  split; [exact Hact'|].
  pose proof (fired_active ev x) as Hle. rewrite Hact' in Hle.
  destruct (fired ev x); [reflexivity | simpl in Hle; lia].
Qed.

Lemma activate_throws_on_missing_marker_witness :
  thrown
    (fst (activate
            (run []
               (construct (Some markerlessCapability) (sampleConfiguration Both)
                  sampleTheme [[]] (fun _ => true))))) = true /\
  fired OnCommandFinished
    (snd (activate
            (run []
               (construct (Some markerlessCapability) (sampleConfiguration Both)
                  sampleTheme [[]] (fun _ => true))))) = [].
Proof.
  pose proof (activate_throws_on_missing_marker (Some markerlessCapability)
                (sampleConfiguration Both) sampleTheme [[]] (fun _ => true) []
                markerlessCapability OnCommandFinished) as H.
  cbv zeta in H. destruct H as (H1 & _ & _ & H2).
  - vm_compute. reflexivity.
  - vm_compute. reflexivity.
  - apply Exists_cons_tl, Exists_cons_hd. reflexivity.
  - split; [exact H1|]. apply H2. discriminate.
Defined.

(** ** Every event has its listener *)

Lemma listeningTo_ext (cap : Capability) (evs : list CommandEvent) (a a' : Addon) :
  capabilities a' = capabilities a ->
  _commandDetectionListeners a' = _commandDetectionListeners a ->
  subscriptions a' = subscriptions a ->
  listeningTo cap evs a -> listeningTo cap evs a'.
Proof. unfold listeningTo. now intros -> -> ->. Qed.

Lemma keeps_listeningTo_register (cap : Capability) (evs : list CommandEvent)
    (c : TerminalCommand) (before : bool) :
  keeps (listeningTo cap evs) (registerCommandDecoration c before).
Proof.
  intros s H. destruct (guarded s c before) eqn:Hg.
  - now rewrite registerCommandDecoration_guarded.
  - destruct (marker c) as [m|] eqn:Hm.
    + rewrite (registerCommandDecoration_registered c before m s Hg Hm).
      unfold registered, cleared.
      destruct (registerDecorationAnswers _ _); destruct before;
        destruct (_placeholderDecoration s); simpl;
        revert H; apply listeningTo_ext; reflexivity.
    + now rewrite registerCommandDecoration_no_marker.
Qed.

Lemma hoare_push_listeningTo (cap : Capability) (evs : list CommandEvent)
    (ev : CommandEvent) (E : Addon -> Prop) :
  hoare (listeningTo cap evs) (push_listener ev cap)
    (fun _ => listeningTo cap (evs ++ [ev])) E.
Proof.
  intros s (Hc & old & Hs & Hold & Hl).
  unfold push_listener, bind, get. rewrite Hl. simpl.
  split; [exact Hc|]. exists old. split; [|split].
  - rewrite Hs, List.map_app, <- app_assoc. reflexivity.
  - exact Hold.
  - rewrite Hs, !length_app, length_map. simpl.
    rewrite Nat.add_1_r, seq_S. reflexivity.
Qed.

Lemma hoare_keeps_returned {A} (I : Addon -> Prop) (m : M A) :
  keeps I m -> hoare I m (fun _ => I) (fun _ => True).
Proof.
  intros Hk s Hs. specialize (Hk s Hs). now destruct (m s) as [[a|msg] s'].
Qed.

Lemma hoare_subscribe_listeningTo (capability : Capability) :
  hoare (fun s => all_disposed s /\ capabilities s = Some capability)
    (replayAndSubscribe capability)
    (fun _ => listeningTo capability
                [OnCommandStarted; OnCommandFinished; OnCommandInvalidated;
                 OnCurrentCommandInvalidated])
    (fun _ => True).
Proof.
  unfold replayAndSubscribe.
  eapply hoare_bind with (Q := fun _ => listeningTo capability []).
  { intros s [H Hc]. simpl. split; [exact Hc|]. exists (subscriptions s). simpl.
    split; [now rewrite app_nil_r|]. split; [|reflexivity].
    apply Forall_forall. intros sub Hin. apply list_elem_of_lookup in Hin.
    destruct Hin as [i Hi]. exact (H i sub Hi). }
  intros _. eapply hoare_bind with (Q := fun _ => listeningTo capability []).
  { apply hoare_keeps_returned.
    destruct (executingCommandObject capability) as [c|]; [|apply keeps_ret].
    destruct (isSome (marker c)); [|apply keeps_ret].
    apply keeps_ignore, keeps_listeningTo_register. }
  intros _. eapply hoare_bind with (Q := fun _ => listeningTo capability [OnCommandStarted]).
  { apply (hoare_push_listeningTo capability []). }
  intros _. eapply hoare_bind with (Q := fun _ => listeningTo capability [OnCommandStarted]).
  { apply hoare_keeps_returned.
    apply keeps_forEach. intros c. apply keeps_ignore, keeps_listeningTo_register. }
  intros _. eapply hoare_bind
    with (Q := fun _ => listeningTo capability [OnCommandStarted; OnCommandFinished]).
  { apply (hoare_push_listeningTo capability [OnCommandStarted]). }
  intros _. eapply hoare_bind
    with (Q := fun _ => listeningTo capability
                          [OnCommandStarted; OnCommandFinished; OnCommandInvalidated]).
  { apply (hoare_push_listeningTo capability [OnCommandStarted; OnCommandFinished]). }
  intros _.
  apply (hoare_push_listeningTo capability
           [OnCommandStarted; OnCommandFinished; OnCommandInvalidated]).
Qed.

Lemma listeningTo_fired (cap : Capability) (x : Addon) (ev : CommandEvent) :
  listeningTo cap [OnCommandStarted; OnCommandFinished; OnCommandInvalidated;
                   OnCurrentCommandInvalidated] x ->
  length (active_for ev x) = 1 /\ length (fired ev x) = 1.
Proof.
  intros (Hc & old & Hs & Hold & _).
  assert (Hold' : forall f : Subscription -> bool,
             (forall sub, f sub = true -> subActive sub = true) ->
             List.filter f old = []).
  { intros f Hf. apply filter_none. intros sub Hin.
    apply list_elem_of_In in Hin. rewrite Forall_forall in Hold.
    destruct (f sub) eqn:E; [|reflexivity].
    pose proof (Hf sub E) as Ha. rewrite (Hold sub Hin) in Ha. discriminate. }
  split.
  - unfold active_for. rewrite Hs, List.filter_app, Hold'.
    + destruct ev; reflexivity.
    + intros sub Hf. now apply andb_true_iff in Hf.
  - unfold fired. rewrite Hc, Hs, List.filter_app, Hold'.
    + unfold listens. simpl. rewrite Nat.eqb_refl. destruct ev; reflexivity.
    + intros sub Hf. unfold listens in Hf. apply andb_true_iff in Hf.
      destruct Hf as [Hf _]. now apply andb_true_iff in Hf.
Qed.

Lemma addListeners_unfold (a : Addon) (cap : Capability) :
  bound a -> capabilities a = Some cap ->
  exists s1, all_disposed s1 /\ capabilities s1 = Some cap /\
             _addCommandDetectionListeners a = replayAndSubscribe cap s1.
Proof.
  intros Hb Hcap.
  destruct (bound_disposed_first a Hb) as (Hall & _ & Hr). cbv zeta in Hall, Hr.
  set (m := match _commandDetectionListeners a with
            | Some l => dispose_listeners l
            | None => ret tt
            end) in *.
  exists (snd (m a)). split; [exact Hall|]. split.
  - subst m. destruct (_commandDetectionListeners a);
      [rewrite dispose_listeners_closed|]; exact Hcap.
  - unfold _addCommandDetectionListeners. rewrite bind_get. fold m.
    unfold bind at 1. rewrite (run_eta m a), Hr, Hcap. reflexivity.
Qed.

(** When [_addCommandDetectionListeners] returns, with the capability
    present, each of the four events of the capability has exactly one live
    listener of the addon, registered on the current capability: an event
    reaches the addon once. *)
Theorem rebind_listens_to_each_event cap0 cfg th conts answers (evs : list Event)
    (cap : Capability) (ev : CommandEvent) :
  let a := run evs (construct cap0 cfg th conts answers) in
  let r := _addCommandDetectionListeners a in
  capabilities a = Some cap -> fst r = Returned tt ->
  length (active_for ev (snd r)) = 1 /\ length (fired ev (snd r)) = 1.
Proof.
  intros a r Hcap Hret. subst r.
  assert (Hb : bound a) by apply bound_always.
  destruct (addListeners_unfold a cap Hb Hcap) as (s1 & Hall & Hc1 & Hadd).
  rewrite Hadd in *.
  pose proof (hoare_subscribe_listeningTo cap s1 (conj Hall Hc1)) as H.
  destruct (replayAndSubscribe cap s1) as [[u|msg] x]; [|discriminate].
  cbn [snd]. now apply (listeningTo_fired cap).
Qed.

Lemma rebind_listens_to_each_event_witness :
  length
    (fired OnCommandFinished
       (snd (_addCommandDetectionListeners
               (run [Activate; CapabilityRemoved;
                     CapabilityAdded (sampleCapability true true)]
                  (construct (Some (sampleCapability false false))
                     (sampleConfiguration Both) sampleTheme [[]] (fun _ => true))))))
  = 1.
Proof.
  pose proof (rebind_listens_to_each_event (Some (sampleCapability false false))
                (sampleConfiguration Both) sampleTheme [[]] (fun _ => true)
                [Activate; CapabilityRemoved; CapabilityAdded (sampleCapability true true)]
                (sampleCapability true true) OnCommandFinished) as H.
  cbv zeta in H. destruct H as (_ & H).
  - vm_compute. reflexivity.
  - vm_compute. reflexivity.
  - exact H.
Defined.

(** ** The host disposes a decoration *)

(** When the host disposes the decoration of an entry, the listener that
    the rendering registered on the decoration takes the entry from the
    registry; the other entries stay, in their order. *)
Theorem host_disposal_removes_entry cap cfg th conts answers (evs : list Event)
    (k : nat) (e : IDisposableDecoration) :
  let a := run evs (construct cap cfg th conts answers) in
  let a' := step a (HostDisposed (decoration e)) in
  In (k, e) (_decorations a) ->
  _decorations a' = map_delete k (_decorations a) /\
  map_get k (_decorations a') = None /\
  (exists dec, hostDecorations a' !! decoration e = Some dec /\ isDisposed dec = true).
Proof.
  intros a a' Hin. subst a'.
  assert (Ht : tracked a) by apply tracked_always.
  pose proof Ht as (Hnd & H2 & _).
  unfold step. cbn [handle]. rewrite decoration_dispose_closed. cbn [snd].
  assert (Hreg : _decorations (disposed (decoration e) a) = map_delete k (_decorations a)).
  { apply disposed_entry; [exact Ht|]. now apply In_map_get. }
  split; [exact Hreg|]. split.
  - rewrite Hreg.
    destruct (map_get k (map_delete k (_decorations a))) as [e'|] eqn:E; [|reflexivity].
    apply map_get_In, In_map_delete in E. simpl in E. tauto.
  - destruct (H2 k e Hin) as (dec & Hl & _).
    exists (dec_set_isDisposed true dec). split; [|reflexivity].
    unfold disposed. simpl. now rewrite list_lookup_alter_eq, Hl.
Qed.

Lemma host_disposal_removes_entry_witness :
  _decorations
    (step (run [Activate; Rendered 0 freshElement]
             (construct (Some (sampleCapability false true)) (sampleConfiguration Both)
                sampleTheme [[]] (fun _ => true)))
       (HostDisposed
          (decoration {| decoration := 0;
                         disposables := [Click; MouseEnter; MouseLeave; MouseOut];
                         entryExitCode := Some 2%Z;
                         entryGenericMarkProperties := None |}))) =
  map_delete 2
    (_decorations
       (run [Activate; Rendered 0 freshElement]
          (construct (Some (sampleCapability false true)) (sampleConfiguration Both)
             sampleTheme [[]] (fun _ => true)))).
Proof.
  pose proof (host_disposal_removes_entry (Some (sampleCapability false true))
                (sampleConfiguration Both) sampleTheme [[]] (fun _ => true)
                [Activate; Rendered 0 freshElement] 2
                {| decoration := 0;
                   disposables := [Click; MouseEnter; MouseLeave; MouseOut];
                   entryExitCode := Some 2%Z;
                   entryGenericMarkProperties := None |}) as H.
  cbv zeta in H. destruct H as (H & _).
  - vm_compute. left. reflexivity.
  - exact H.
Defined.

(** ** The element of a decoration *)

(** The first rendering of a decoration, on an element without the class
    [codicon].  The listener throws exactly when the configured icon of the
    command has whitespace in its name.  Whether it throws or not, the
    decoration has an entry in the registry afterwards and is as it was but
    for its element, which has the classes [terminal-command-decoration],
    [codicon] and [xterm-decoration] and the style [_updateLayout] gives to
    the element of the host; when the listener returns, the element has
    every class of the command the decoration was registered for. *)
Theorem first_render_styles_element (s : Addon) (d : nat) (dec : IDecoration)
    (fresh : HTMLElement) :
  hostDecorations s !! d = Some dec -> isDisposed dec = false ->
  element dec = None ->
  token_in DecorationSelector.Codicon (classList fresh) = false ->
  let c := renderCommand dec in
  (thrown (fst (host_render d fresh s)) = true <->
   exists icon,
     configuredIcon (configuration s) (exitCode c) (genericMarkProperties c) = Some icon /\
     has_whitespace icon = true) /\
  map_get (marker_id (decorationMarker dec)) (_decorations (step s (Rendered d fresh)))
    <> None /\
  exists dec' el,
    hostDecorations (step s (Rendered d fresh)) !! d = Some dec' /\
    element dec' = Some el /\
    isDisposed dec' = false /\ decorationMarker dec' = decorationMarker dec /\
    In DecorationSelector.CommandDecoration (classList el) /\
    In DecorationSelector.Codicon (classList el) /\
    In DecorationSelector.XtermDecoration (classList el) /\
    style el = style (updateLayout_element (configuration s) fresh) /\
    (thrown (fst (host_render d fresh s)) = false ->
     forall t,
       In t (_updateClasses_tokens (configuration s) (exitCode c)
               (genericMarkProperties c)) ->
       In t (classList el)).
Proof.
  intros Hl Hlive Hel Hcod c.
  set (r := updateClasses_element (configuration s)
              (updateLayout_element (configuration s) fresh)
              (exitCode c) (genericMarkProperties c)).
  assert (Hrun : thrown (fst (host_render d fresh s)) = thrown (fst r) /\
                 map_get (marker_id (decorationMarker dec))
                   (_decorations (step s (Rendered d fresh))) <> None /\
                 exists dec',
                   hostDecorations (step s (Rendered d fresh)) !! d = Some dec' /\
                   element dec' = Some (snd r) /\ isDisposed dec' = false /\
                   decorationMarker dec' = decorationMarker dec).
  { pose proof (host_render_closed s d dec fresh Hl Hlive) as Hc. cbv zeta in Hc.
    rewrite Hel, Hcod in Hc. cbn [negb orb] in Hc. fold c in Hc. fold r in Hc.
    destruct Hc as [Hc1 Hc2]. unfold step, handle. rewrite Hc2. split; [exact Hc1|].
    destruct (map_get (marker_id (decorationMarker dec)) (_decorations s)) eqn:Hget;
      cbn [hostDecorations set_hostDecorations set_decorations _decorations].
    - split; [rewrite Hget; discriminate|].
      eexists. rewrite list_lookup_alter_eq, Hl. cbn [fmap option_fmap option_map].
      repeat split; assumption.
    - split; [rewrite map_get_set; discriminate|].
      eexists. rewrite !list_lookup_alter_eq, Hl. cbn [fmap option_fmap option_map].
      repeat split; assumption. }
  destruct Hrun as (Hthrown & Hkey & dec' & Hl' & Hel' & Hlive' & Hm').
  split; [|split; [exact Hkey|]].
  - rewrite Hthrown. split.
    + intros Ht.
      destruct (configuredIcon (configuration s) (exitCode c) (genericMarkProperties c))
        as [icon|] eqn:Hi.
      * destruct (has_whitespace icon) eqn:Hw;
          [exists icon; split; [reflexivity | exact Hw]|].
        exfalso. subst r. rewrite updateClasses_returned in Ht by now rewrite Hi.
        discriminate.
      * exfalso. subst r. rewrite updateClasses_returned in Ht by now rewrite Hi.
        discriminate.
    + intros (icon & Hi & Hw). subst r. now apply updateClasses_thrown with (icon := icon).
  - exists dec', (snd r). split; [exact Hl'|]. split; [exact Hel'|].
    split; [exact Hlive'|]. split; [exact Hm'|].
    split; [apply updateClasses_base; simpl; tauto|].
    split; [apply updateClasses_base; simpl; tauto|].
    split; [apply updateClasses_base; simpl; tauto|].
    split; [reflexivity|].
    rewrite Hthrown. intros Ht t Hin. subst r.
    unfold updateClasses_element in *. cbn [fst snd classList] in *.
    rewrite classList_addEach_when_returned.
    + now apply append_tokens_adds.
    + destruct (fst (classList_addEach _ _)) as [[]|]; [reflexivity | discriminate].
Qed.

Lemma first_render_styles_element_witness :
  thrown (fst (host_render 0 freshElement (startedAddon Both))) = false /\
  exists dec' el,
    hostDecorations (step (startedAddon Both) (Rendered 0 freshElement)) !! 0 = Some dec' /\
    element dec' = Some el /\
    In "codicon-circle-outline" (classList el).
Proof.
  assert (Hl : hostDecorations (startedAddon Both) !! 0 =
               Some (newDecoration {| marker_id := 1; marker_line := 5 |}
                       (Some {| color := ""; position := Some RulerLeft |})
                       (sampleCommand "ls" 1 None false) true))
    by (vm_compute; reflexivity).
  pose proof (first_render_styles_element (startedAddon Both) 0 _ freshElement Hl
                eq_refl eq_refl eq_refl) as H.
  cbv zeta in H.
  destruct H as (_ & _ & dec' & el & H1 & H2 & _ & _ & _ & _ & _ & _ & H3).
  assert (Ht : thrown (fst (host_render 0 freshElement (startedAddon Both))) = false)
    by (vm_compute; reflexivity).
  split; [exact Ht|].
  exists dec', el. split; [exact H1|]. split; [exact H2|].
  apply (H3 Ht). vm_compute. tauto.
Defined.

Lemma restyled_layout_twice (cfg : Configuration) (x : IDecoration) :
  restyled (updateLayout_element cfg) (restyled (updateLayout_element cfg) x) =
  restyled (updateLayout_element cfg) x.
Proof.
  pose proof (updateLayout_element_twice cfg) as H.
  unfold restyled. destruct x as [m o dis [el|] od c b]; simpl; [|reflexivity].
  now rewrite H.
Qed.

(** [refreshLayouts], whatever has happened to the addon since its
    construction, lays out the element of every entry of the registry, and
    the placeholder's, under the current settings, also when the placeholder
    is itself an entry: the decoration is as it was but for the layout of
    its element, if it has one.  Every other decoration of the host, such as
    one that is not rendered yet, is left as it was. *)
Theorem refreshLayouts_lays_out cap cfg th conts answers (evs : list Event)
    (d : nat) (dec0 : IDecoration) :
  let a := run evs (construct cap cfg th conts answers) in
  let a' := snd (refreshLayouts a) in
  hostDecorations a !! d = Some dec0 ->
  (_placeholderDecoration a = Some d \/
   In d (List.map (fun kv => decoration (snd kv)) (_decorations a)) ->
   hostDecorations a' !! d =
   Some (restyled (updateLayout_element (configuration a)) dec0)) /\
  (_placeholderDecoration a <> Some d ->
   ~ In d (List.map (fun kv => decoration (snd kv)) (_decorations a)) ->
   hostDecorations a' !! d = Some dec0).
Proof.
  intros a a' Hl. subst a'. rewrite refreshLayouts_closed. cbn [snd].
  change (hostDecorations (set_hostDecorations (refreshedLayouts a) a))
    with (refreshedLayouts a).
  assert (Ht : tracked a) by apply tracked_always.
  pose proof (tracked_decorations_NoDup a Ht) as Hnd.
  unfold refreshedLayouts.
  set (f := restyled (updateLayout_element (configuration a))).
  set (H1 := match _placeholderDecoration a with
             | Some p => alter f p (hostDecorations a)
             | None => hostDecorations a
             end).
  assert (HH1 : (_placeholderDecoration a = Some d -> H1 !! d = Some (f dec0)) /\
                (_placeholderDecoration a <> Some d -> H1 !! d = Some dec0)).
  { subst H1. destruct (_placeholderDecoration a) as [p|].
    - split.
      + intros Hp. injection Hp as ->. now rewrite list_lookup_alter_eq, Hl.
      + intros Hp. rewrite list_lookup_alter_ne by congruence. exact Hl.
    - split; [discriminate | intros _; exact Hl]. }
  destruct HH1 as [Hyes Hno].
  assert (Hdec : _placeholderDecoration a = Some d \/ _placeholderDecoration a <> Some d).
  { destruct (_placeholderDecoration a) as [p|]; [|right; discriminate].
    destruct (Nat.eq_dec p d) as [-> | Hne]; [now left | right; congruence]. }
  split.
  - intros Hcase.
    destruct (in_dec Nat.eq_dec d
                (List.map (fun kv => decoration (snd kv)) (_decorations a)))
      as [Hin | Hin].
    + apply in_map_iff in Hin. destruct Hin as (kv & <- & Hkv).
      rewrite (altered_once (fun kv : nat * IDisposableDecoration => decoration (snd kv))
                 (fun _ => f) (_decorations a) H1 kv Hnd Hkv).
      destruct Hdec as [Hp | Hp].
      * rewrite (Hyes Hp). simpl. f_equal. apply restyled_layout_twice.
      * now rewrite (Hno Hp).
    + rewrite altered_untouched by exact Hin.
      destruct Hcase as [Hp | Hc]; [now apply Hyes | contradiction].
  - intros Hp Hin. rewrite altered_untouched by exact Hin. now apply Hno.
Qed.

Lemma refreshLayouts_lays_out_witness :
  hostDecorations
    (snd (refreshLayouts
            (run [Activate; CommandStarted (sampleCommand "ls" 1 None false);
                  Rendered 0 freshElement]
               (construct (Some (sampleCapability false false)) (sampleConfiguration Both)
                  sampleTheme [[]] (fun _ => true))))) !! 0 =
  hostDecorations
    (run [Activate; CommandStarted (sampleCommand "ls" 1 None false);
          Rendered 0 freshElement]
       (construct (Some (sampleCapability false false)) (sampleConfiguration Both)
          sampleTheme [[]] (fun _ => true))) !! 0.
Proof.
  assert (Hl : exists dec0,
             hostDecorations
               (run [Activate; CommandStarted (sampleCommand "ls" 1 None false);
                     Rendered 0 freshElement]
                  (construct (Some (sampleCapability false false))
                     (sampleConfiguration Both) sampleTheme [[]] (fun _ => true))) !! 0
             = Some dec0 /\
             restyled (updateLayout_element (sampleConfiguration Both)) dec0 = dec0)
    by (eexists; split; vm_compute; reflexivity).
  destruct Hl as (dec0 & Hl & Hfix).
  pose proof (refreshLayouts_lays_out (Some (sampleCapability false false))
                (sampleConfiguration Both) sampleTheme [[]] (fun _ => true)
                [Activate; CommandStarted (sampleCommand "ls" 1 None false);
                 Rendered 0 freshElement] 0 dec0 Hl) as H.
  cbv zeta in H. destruct H as [H _]. rewrite H.
  - rewrite Hl. f_equal.
    replace (configuration _) with (sampleConfiguration Both) by (vm_compute; reflexivity).
    exact Hfix.
  - left. vm_compute. reflexivity.
Defined.

(** ** The capability arrives or leaves *)

Lemma replay_finished_returns (cs : list TerminalCommand) (s : Addon) :
  Forall (fun c => isSome (marker c) = true) cs ->
  thrown (fst (forEach cs (fun c => ignore (registerCommandDecoration c false)) s)) = false.
Proof.
  intros Hall. revert s. induction cs as [|c cs IH]; intros s; [reflexivity|].
  apply Forall_cons in Hall. destruct Hall as [Hc Hcs].
  destruct (marker c) as [m|] eqn:Hm; [|discriminate].
  pose proof (register_marker_returns c false m s Hm) as Hr.
  cbn [forEach]. unfold bind at 1. unfold ignore at 1. unfold bind at 1.
  destruct (registerCommandDecoration c false s) as [[r|msg] s']; [|discriminate].
  simpl. now apply IH.
Qed.

Lemma hoare_subscribe_total (capability : Capability) :
  Forall (fun c => isSome (marker c) = true) (commands capability) ->
  hoare (fun s => all_disposed s /\ capabilities s = Some capability)
    (replayAndSubscribe capability)
    (fun _ => listeningTo capability
                [OnCommandStarted; OnCommandFinished; OnCommandInvalidated;
                 OnCurrentCommandInvalidated])
    (fun _ => False).
Proof.
  intros Hall. unfold replayAndSubscribe.
  eapply hoare_bind with (Q := fun _ => listeningTo capability []).
  { intros s [H Hc]. simpl. split; [exact Hc|]. exists (subscriptions s). simpl.
    split; [now rewrite app_nil_r|]. split; [|reflexivity].
    apply Forall_forall. intros sub Hin. apply list_elem_of_lookup in Hin.
    destruct Hin as [i Hi]. exact (H i sub Hi). }
  intros _. eapply hoare_bind with (Q := fun _ => listeningTo capability []).
  { apply hoare_never_thrown.
    - destruct (executingCommandObject capability) as [c|]; [|apply keeps_ret].
      destruct (isSome (marker c)); [|apply keeps_ret].
      apply keeps_ignore, keeps_listeningTo_register.
    - intros s. destruct (executingCommandObject capability) as [c|]; [|reflexivity].
      destruct (marker c) as [m|] eqn:Hm; [|reflexivity]. cbn [isSome].
      pose proof (register_marker_returns c true m s Hm) as Hr.
      unfold ignore, bind.
      now destruct (registerCommandDecoration c true s) as [[r|msg] s']. }
  intros _. eapply hoare_bind with (Q := fun _ => listeningTo capability [OnCommandStarted]).
  { apply (hoare_push_listeningTo capability []). }
  intros _. eapply hoare_bind with (Q := fun _ => listeningTo capability [OnCommandStarted]).
  { apply hoare_never_thrown.
    - apply keeps_forEach. intros c. apply keeps_ignore, keeps_listeningTo_register.
    - intros s. now apply replay_finished_returns. }
  intros _. eapply hoare_bind
    with (Q := fun _ => listeningTo capability [OnCommandStarted; OnCommandFinished]).
  { apply (hoare_push_listeningTo capability [OnCommandStarted]). }
  intros _. eapply hoare_bind
    with (Q := fun _ => listeningTo capability
                          [OnCommandStarted; OnCommandFinished; OnCommandInvalidated]).
  { apply (hoare_push_listeningTo capability [OnCommandStarted; OnCommandFinished]). }
  intros _.
  apply (hoare_push_listeningTo capability
           [OnCommandStarted; OnCommandFinished; OnCommandInvalidated]).
Qed.

Lemma addListeners_total (s : Addon) (cap : Capability) :
  bound s -> capabilities s = Some cap ->
  Forall (fun c => isSome (marker c) = true) (commands cap) ->
  fst (_addCommandDetectionListeners s) = Returned tt /\
  listeningTo cap [OnCommandStarted; OnCommandFinished; OnCommandInvalidated;
                   OnCurrentCommandInvalidated]
    (snd (_addCommandDetectionListeners s)).
Proof.
  intros Hb Hcap Hall.
  destruct (addListeners_unfold s cap Hb Hcap) as (s1 & Hd & Hc1 & ->).
  pose proof (hoare_subscribe_total cap Hall s1 (conj Hd Hc1)) as H.
  destruct (replayAndSubscribe cap s1) as [[[]|msg] x]; [|destruct H].
  split; [reflexivity | exact H].
Qed.

Lemma times_deliver_listening (cap : Capability) (n : nat) (s : Addon) :
  Forall (fun c => isSome (marker c) = true) (commands cap) ->
  bound s -> capabilities s = Some cap ->
  listeningTo cap [OnCommandStarted; OnCommandFinished; OnCommandInvalidated;
                   OnCurrentCommandInvalidated]
    (snd (times (S n) (deliver _addCommandDetectionListeners) s)).
Proof.
  intros Hall. revert s. induction n as [|n IH]; intros s Hb Hcap.
  - simpl. exact (proj2 (addListeners_total s cap Hb Hcap Hall)).
  - change (times (S (S n)) (deliver _addCommandDetectionListeners) s)
      with (times (S n) (deliver _addCommandDetectionListeners)
              (snd (_addCommandDetectionListeners s))).
    apply IH.
    + now apply keeps_bound_addListeners.
    + exact (proj1 (proj2 (addListeners_total s cap Hb Hcap Hall))).
Qed.

(** The capability is picked up when it arrives: if the addon was attached
    while the capability was absent, so that a listener of
    [onDidAddCapability] is registered, then after the capability is added
    (its finished commands having markers) each of its four events has
    exactly one live listener of the addon. *)
Theorem capability_added_binds cap0 cfg th conts answers (evs : list Event)
    (cap : Capability) (ev : CommandEvent) :
  let a := run evs (construct cap0 cfg th conts answers) in
  let a' := step a (CapabilityAdded cap) in
  (0 < addCapabilityListeners a)%nat ->
  Forall (fun c => isSome (marker c) = true) (commands cap) ->
  capabilities a' = Some cap /\
  length (active_for ev a') = 1 /\ length (fired ev a') = 1.
Proof.
  intros a a' Hn Hall. subst a'.
  assert (Hb : bound a) by apply bound_always.
  set (a1 := set_capabilities (Some cap) a).
  assert (Hb1 : bound a1) by (revert Hb; now apply bound_ext).
  destruct (addCapabilityListeners a) as [|n] eqn:En; [lia|].
  assert (Hstep : step a (CapabilityAdded cap) =
                  snd (times (S n) (deliver _addCommandDetectionListeners) a1)).
  { unfold step. cbn [handle]. rewrite (bind_returned _ _ a a1 tt eq_refl).
    rewrite bind_get. change (addCapabilityListeners a1) with (addCapabilityListeners a).
    now rewrite En. }
  rewrite Hstep.
  pose proof (times_deliver_listening cap n a1 Hall Hb1 eq_refl) as H.
  split; [exact (proj1 H) | now apply (listeningTo_fired cap)].
Qed.

Lemma capability_added_binds_witness :
  length
    (fired OnCommandStarted
       (step (run [Activate]
                (construct None (sampleConfiguration Both) sampleTheme [[]]
                   (fun _ => true)))
          (CapabilityAdded (sampleCapability true true)))) = 1.
Proof.
  pose proof (capability_added_binds None (sampleConfiguration Both) sampleTheme [[]]
                (fun _ => true) [Activate] (sampleCapability true true)
                OnCommandStarted) as H.
  cbv zeta in H. destruct H as (_ & _ & H).
  - vm_compute. lia.
  - repeat constructor.
  - exact H.
Defined.

Lemma removeListener_closed (s : Addon) :
  bound s ->
  let s' := snd (onDidRemoveCapability_listener s) in
  all_disposed s' /\ _commandDetectionListeners s' = None /\
  hostDecorations s' = hostDecorations s /\ _decorations s' = _decorations s /\
  _placeholderDecoration s' = _placeholderDecoration s /\
  capabilities s' = capabilities s.
Proof.
  intros Hb. unfold onDidRemoveCapability_listener. rewrite bind_get.
  destruct (_commandDetectionListeners s) as [l|] eqn:Hl.
  - unfold bind. rewrite dispose_listeners_closed. simpl.
    split; [|repeat split].
    intros i sub Hs. exact (bound_deactivated_all l s Hb Hl i sub Hs).
  - simpl. split; [|repeat split; assumption].
    intros i sub Hs. destruct (subActive sub) eqn:Hact; [|reflexivity].
    destruct Hb as [H1 _]. destruct (H1 i sub Hs Hact) as (l & Hl' & _). congruence.
Qed.

Lemma removeListener_again (s : Addon) :
  _commandDetectionListeners s = None ->
  onDidRemoveCapability_listener s = (Returned tt, s).
Proof. intros H. unfold onDidRemoveCapability_listener. rewrite bind_get. now rewrite H. Qed.

(** When the capability is removed, with a listener of
    [onDidRemoveCapability] registered, no listener of the addon is left
    that is not disposed and the list of listeners is undefined; the
    decorations stay: the registry, the placeholder reference and the
    decorations of the host are as before. *)
Theorem capability_removed_unbinds cap cfg th conts answers (evs : list Event)
    (ev : CommandEvent) :
  let a := run evs (construct cap cfg th conts answers) in
  let a' := step a CapabilityRemoved in
  (0 < removeCapabilityListeners a)%nat ->
  all_disposed a' /\ active_for ev a' = [] /\ fired ev a' = [] /\
  _commandDetectionListeners a' = None /\ capabilities a' = None /\
  hostDecorations a' = hostDecorations a /\ _decorations a' = _decorations a /\
  _placeholderDecoration a' = _placeholderDecoration a.
Proof.
  intros a a' Hn. subst a'.
  assert (Hb : bound a) by apply bound_always.
  set (a1 := set_capabilities None a).
  assert (Hb1 : bound a1) by (revert Hb; now apply bound_ext).
  destruct (removeCapabilityListeners a) as [|n] eqn:En; [lia|].
  destruct (removeListener_closed a1 Hb1) as (Hall & Hl & Hh & Hr & Hp & Hc).
  cbv zeta in Hall, Hl, Hh, Hr, Hp, Hc.
  set (a2 := snd (onDidRemoveCapability_listener a1)) in *.
  assert (Hrest : forall k, times k (deliver onDidRemoveCapability_listener) a2 =
                            (Returned tt, a2)).
  { induction k as [|k IH]; [reflexivity|].
    cbn [times]. unfold bind, deliver at 1. rewrite (removeListener_again a2 Hl).
    exact IH. }
  assert (Hstep : step a CapabilityRemoved = a2).
  { unfold step. cbn [handle]. rewrite (bind_returned _ _ a a1 tt eq_refl).
    rewrite bind_get.
    change (removeCapabilityListeners a1) with (removeCapabilityListeners a).
    rewrite En. cbn [times]. unfold bind, deliver at 1. fold a2. now rewrite Hrest. }
  rewrite Hstep.
  split; [exact Hall|]. split; [|split; [|repeat split; assumption]].
  - unfold active_for. apply all_disposed_filter; [exact Hall|].
    intros sub H. now apply andb_true_iff in H.
  - unfold fired. now rewrite Hc.
Qed.

Lemma capability_removed_unbinds_witness :
  _decorations
    (step (run [Activate; Rendered 0 freshElement]
             (construct (Some (sampleCapability false true)) (sampleConfiguration Both)
                sampleTheme [[]] (fun _ => true)))
       CapabilityRemoved) =
  _decorations
    (run [Activate; Rendered 0 freshElement]
       (construct (Some (sampleCapability false true)) (sampleConfiguration Both)
          sampleTheme [[]] (fun _ => true))).
Proof.
  pose proof (capability_removed_unbinds (Some (sampleCapability false true))
                (sampleConfiguration Both) sampleTheme [[]] (fun _ => true)
                [Activate; Rendered 0 freshElement] OnCommandStarted) as H.
  cbv zeta in H. destruct H as (_ & _ & _ & _ & _ & _ & H & _).
  - vm_compute. lia.
  - exact H.
Defined.
